(** * Modpack Bridge (bridge.js): a shallow embedding and its properties

    The bridge is a small local HTTP agent.  The embedding follows the
    source function by function:

    - [Path]: the pieces of Node's [path] module the bridge calls
      ([path.join], [path.dirname]), in their POSIX flavour, on strings.
    - [JS]: JSON values as the request body and the token file carry
      them, with truthiness and property access.
    - [Fs]: the file system as a finite map from resolved paths to nodes,
      with the [fs] calls the bridge makes.  Paths are resolved lexically
      (no symbolic links).  Besides the tree, the environment records which
      entries the process cannot remove (no right to write the directory
      that holds them, a file in use): [fs.rmSync] and [fs.unlink] fail
      on those, everything else fails only for structural reasons (a file
      where a directory is needed, and so on).
    - [Bridge]: [getConfigPath], [getOrCreateDeviceToken],
      [getMinecraftPath], [detectInstances], [ensureDir], [downloadFile]
      and the handler of [POST /install-files], written in a state and
      exception monad.  The network is a function from urls to what a GET
      of them comes to.
    - [Endpoints]: the handlers of [GET /status] and of [POST /install].
      The archive library the latter loads is not part of the source: the
      handler takes it as a parameter.

    After the embedding come the identifier rule in the words of the
    specification ([Claimed]), some machines and requests to run the
    definitions on ([Scenario], [Trials]), the predicates the statements
    use ([Terms], [Notions]), and then the lemmas: on paths, on the file
    system calls, and on the bridge itself. *)

From Stdlib Require Import ZArith NArith Ascii String Bool.
From stdpp Require Import base gmap sets list strings.

Set Warnings "-register-all".

Local Open Scope string_scope.
Local Open Scope list_scope.

(* ------------------------------------------------------------------ *)
(** ** Strings *)

Module Str.

Definition is_empty (s : string) : bool :=
  match s with EmptyString => true | String _ _ => false end.

Definition eqb (a b : string) : bool := String.eqb a b.

(** [s.startsWith(p)] *)
Definition startsWith (p s : string) : bool := String.prefix p s.

Fixpoint last_char (s : string) : option ascii :=
  match s with
  | EmptyString => None
  | String c EmptyString => Some c
  | String _ r => last_char r
  end.

Definition slash : ascii := "/"%char.

Definition is_slash (c : ascii) : bool := Ascii.eqb c slash.

End Str.

(* ------------------------------------------------------------------ *)
(** ** Node's [path] module (POSIX flavour)

    Separators are ["/"] throughout, also where [process.platform] is
    [win32] and Node would take [path.win32]. *)

Module Path.

(** The segments between separators, empty ones included:
    [split "/a//b" = [""; "a"; ""; "b"]]. *)
Fixpoint split (s : string) : list string :=
  match s with
  | EmptyString => [EmptyString]
  | String c r =>
      if Str.is_slash c then EmptyString :: split r
      else match split r with
           | [] => [String c EmptyString]
           | h :: t => String c h :: t
           end
  end.

(** One separator-delimited segment of [normalizeString].  The result
    so far is kept as a stack of segments, last segment first. *)
Definition step (allowAboveRoot : bool) (stack : list string) (seg : string)
  : list string :=
  if Str.eqb seg "" || Str.eqb seg "." then stack
  else if Str.eqb seg ".." then
    match stack with
    | top :: rest =>
        if Str.eqb top ".." then
          if allowAboveRoot then ".." :: stack else stack
        else rest
    | [] => if allowAboveRoot then [".."] else []
    end
  else seg :: stack.

Definition normalizeStack (allowAboveRoot : bool) (stack : list string)
    (segs : list string) : list string :=
  fold_left (step allowAboveRoot) segs stack.

Fixpoint render (segs : list string) : string :=
  match segs with
  | [] => ""
  | [s] => s
  | s :: rest => s +:+ "/" +:+ render rest
  end.

Definition isAbsolute (p : string) : bool :=
  match p with
  | String c _ => Str.is_slash c
  | EmptyString => false
  end.

Definition trailingSeparator (p : string) : bool :=
  match Str.last_char p with
  | Some c => Str.is_slash c
  | None => false
  end.

(** [normalizeString(path, allowAboveRoot, '/', isPosixPathSeparator)] *)
Definition normalizeString (p : string) (allowAboveRoot : bool) : string :=
  render (rev (normalizeStack allowAboveRoot [] (split p))).

(** [path.normalize] *)
Definition normalize (p : string) : string :=
  if Str.is_empty p then "."
  else
    let r := normalizeString p (negb (isAbsolute p)) in
    if Str.is_empty r then
      if isAbsolute p then "/"
      else if trailingSeparator p then "./" else "."
    else
      let r := if trailingSeparator p then r +:+ "/" else r in
      if isAbsolute p then "/" +:+ r else r.

(** [path.join(...args)]: empty arguments are left out, the rest is
    glued with ["/"] and normalized; with nothing left the result is
    ["."]. *)
Definition joinl (args : list string) : string :=
  match List.filter (fun a => negb (Str.is_empty a)) args with
  | [] => "."
  | parts => normalize (render parts)
  end.

Definition join (a b : string) : string := joinl [a; b].

Fixpoint drop_slashes (l : list ascii) : list ascii :=
  match l with
  | c :: r => if Str.is_slash c then drop_slashes r else l
  | [] => []
  end.

Fixpoint drop_name (l : list ascii) : list ascii :=
  match l with
  | c :: r => if Str.is_slash c then l else drop_name r
  | [] => []
  end.

(** [path.dirname]: the scan runs from the last character down to index
    1, first over trailing separators, then over the last name, and
    stops on the separator before it. *)
Definition dirname (p : string) : string :=
  match p with
  | EmptyString => "."
  | String c0 rest =>
      let hasRoot := Str.is_slash c0 in
      match drop_name (drop_slashes (rev (list_ascii_of_string rest))) with
      | [] => if hasRoot then "/" else "."
      | _ :: before =>
          match before with
          | [] => if hasRoot then "//" else String c0 EmptyString
          | _ => String c0 (string_of_list_ascii (rev before))
          end
      end
  end.

(** How the operating system reads a path: from the working directory
    unless it starts with a separator, [.] and empty segments dropped,
    [..] cancelling the segment before it.  The result is the list of
    names from the root down. *)
Definition resolve (cwd : string) (p : string) : list string :=
  rev (normalizeStack false []
         ((if isAbsolute p then [] else split cwd) ++ split p)).

End Path.

(* ------------------------------------------------------------------ *)
(** ** JSON values *)

Module JS.

(** What [JSON.parse] produces, plus [undefined] for a property that is
    not there.  Numbers only matter through their truthiness here; the
    model carries integers. *)
Inductive value :=
| VUndef
| VNull
| VBool (b : bool)
| VNum (z : Z)
| VStr (s : string)
| VArr (items : list value)
| VObj (fields : list (string * value)).

(** [!!v] *)
Definition truthy (v : value) : bool :=
  match v with
  | VUndef | VNull => false
  | VBool b => b
  | VNum z => negb (Z.eqb z 0)
  | VStr s => negb (Str.is_empty s)
  | VArr _ | VObj _ => true
  end.

(** An object literal read by [JSON.parse] keeps the last of several
    equal keys. *)
Fixpoint field (k : string) (fields : list (string * value)) : value :=
  match fields with
  | [] => VUndef
  | (k', v) :: rest =>
      match field k rest with
      | VUndef => if Str.eqb k k' then v else VUndef
      | later => later
      end
  end.

(** [v.k] for the property names the bridge reads ([mode], [items],
    [url], [fileName], [type], [token], ...): none of them exists on the
    prototypes of strings, numbers, booleans or arrays.  [None] is the
    [TypeError] of reading a property of [null] or [undefined]. *)
Definition prop (v : value) (k : string) : option value :=
  match v with
  | VUndef | VNull => None
  | VObj fields => Some (field k fields)
  | _ => Some VUndef
  end.

(** [v.k] where [v] is known not to be [null] or [undefined]. *)
Definition get (v : value) (k : string) : value :=
  match prop v k with
  | Some x => x
  | None => VUndef
  end.

(** [v === "s"] *)
Definition is_str (v : value) (s : string) : bool :=
  match v with
  | VStr s' => Str.eqb s' s
  | _ => false
  end.

(** [a || b] *)
Definition or_else (a b : value) : value := if truthy a then a else b.

End JS.

Export JS (value(..)).

(* ------------------------------------------------------------------ *)
(** ** Exceptions *)

Inductive exn :=
| TypeError                     (* a string was required *)
| SyntaxError                   (* [JSON.parse] on text that is not JSON *)
| SystemError (code : string)   (* an [fs] call failed: ENOENT, EISDIR, ... *)
| UnsupportedOS                 (* [new Error('Unsupported OS')] *)
| DownloadFailed (status : Z)   (* [Download failed with status code: ...] *)
| RequestError (reason : string) (* the request's ['error'] event *)
| InvalidUrl.                   (* [client.get] refuses the url *)

Inductive result (A : Type) :=
| Ok (a : A)
| Err (e : exn).
Arguments Ok {A} a.
Arguments Err {A} e.

(* ------------------------------------------------------------------ *)
(** ** The file system *)

Module Fs.

(** What a file holds.  [Json v] is the text [JSON.stringify] prints for
    [v], kept as the value that [JSON.parse] reads back from it; [Text s]
    is any other text: what a download wrote, a token file that does not
    parse. *)
Inductive content :=
| Text (s : string)
| Json (v : value).

Inductive node :=
| Dir
| File (data : content).

Abbreviation tree := (gmap (list string) node).

(** The part of the environment a path reaches the tree through: the
    working directory, and the entries the process cannot remove. *)
Record mount := {
  cwd : string;                 (* [process.cwd()] *)
  pinned : gset (list string)
}.

Definition is_file (o : option node) : bool :=
  match o with Some (File _) => true | _ => false end.

Definition is_dir (o : option node) : bool :=
  match o with Some Dir => true | _ => false end.

(** The root directory is always there. *)
Definition stat (t : tree) (k : list string) : option node :=
  match k with
  | [] => Some Dir
  | _ => t !! k
  end.

Section WithMount.
Variable m : mount.

(** Where a path leads: its lexical resolution from the working
    directory.  The file system walks a path segment by segment instead;
    the two agree (there being no symbolic links) on paths in which
    nothing is cancelled or dropped.  They differ on a trailing separator
    or [.] after a file, on [..] after something that is not a directory,
    and on the empty path. *)
Definition key (p : string) : list string := Path.resolve (cwd m) p.

(** [fs.existsSync(p)] *)
Definition existsSync (t : tree) (p : string) : bool :=
  match stat t (key p) with Some _ => true | None => false end.

(** [fs.mkdirSync(p, { recursive: true })]: walks down from the root,
    creating what is missing; a file on the way is an error. *)
Fixpoint mkdirs (above todo : list string) (t : tree) : result tree :=
  match todo with
  | [] => Ok t
  | name :: todo' =>
      let k := above ++ [name] in
      match t !! k with
      | Some (File _) => Err (SystemError "ENOTDIR")
      | Some Dir => mkdirs k todo' t
      | None => mkdirs k todo' (<[k := Dir]> t)
      end
  end.

Definition mkdirSync (t : tree) (p : string) : result tree :=
  mkdirs [] (key p) t.

(** Some entry at or below [k] cannot be removed. *)
Definition blocked (t : tree) (k : list string) : bool :=
  bool_decide (set_Exists (λ q, k `prefix_of` q ∧ is_Some (t !! q)) (pinned m)).

(** [fs.rmSync(p, { recursive: true, force: true })]: the entry and
    all below it go; nothing there is not an error.  When an entry in
    the way cannot be removed the call fails; how far Node got before
    that depends on directory order and is not tracked, the tree is
    kept as it was. *)
Definition rmSync (t : tree) (p : string) : result tree :=
  let k := key p in
  if blocked t k then Err (SystemError "EPERM")
  else Ok (filter (λ kv, ¬ k `prefix_of` kv.1) t).

(** [fs.unlink(p, cb)] *)
Definition unlink (t : tree) (p : string) : result tree :=
  let k := key p in
  match stat t k with
  | Some (File _) =>
      if bool_decide (k ∈ pinned m) then Err (SystemError "EPERM")
      else Ok (delete k t)
  | Some Dir => Err (SystemError "EISDIR")
  | None => Err (SystemError "ENOENT")
  end.

(** Opening [p] for writing (flag ['w']): the directory it lies in
    must be there, and [p] must not be a directory; an existing file
    is truncated.  [fs.writeFileSync(p, data)] and
    [fs.createWriteStream(p)] both start with this. *)
Definition writeFileSync (t : tree) (p : string) (data : content) : result tree :=
  let k := key p in
  match stat t k with
  | Some Dir => Err (SystemError "EISDIR")
  | _ =>
      match stat t (removelast k) with
      | Some Dir => Ok (<[k := File data]> t)
      | Some (File _) => Err (SystemError "ENOTDIR")
      | None => Err (SystemError "ENOENT")
      end
  end.

(** Writing through a descriptor that is open on [p]: the file's
    content is replaced. *)
Definition fill (t : tree) (p : string) (data : content) : tree :=
  alter (λ n, match n with File _ => File data | Dir => Dir end) (key p) t.

(** [fs.readFileSync(p, 'utf8')] *)
Definition readFileSync (t : tree) (p : string) : result content :=
  match stat t (key p) with
  | Some (File data) => Ok data
  | Some Dir => Err (SystemError "EISDIR")
  | None => Err (SystemError "ENOENT")
  end.

(** The name of [q] inside directory [k], when [q] lies directly in it. *)
Fixpoint child_name (k q : list string) : option string :=
  match k, q with
  | [], [name] => Some name
  | x :: k', y :: q' => if Str.eqb x y then child_name k' q' else None
  | _, _ => None
  end.

(** [fs.readdirSync(p, { withFileTypes: true })]: each entry with its
    [isDirectory()] answer, in the order the map lists them. *)
Definition readdirSync (t : tree) (p : string) : result (list (string * bool)) :=
  let k := key p in
  match stat t k with
  | Some Dir =>
      Ok (omap (λ kv, (λ name, (name, is_dir (Some kv.2))) <$> child_name k kv.1)
               (map_to_list t))
  | Some (File _) => Err (SystemError "ENOTDIR")
  | None => Err (SystemError "ENOENT")
  end.

End WithMount.

End Fs.

Export Fs (content(..), node(..), mount(..), cwd, pinned).

(* ------------------------------------------------------------------ *)
(** ** The bridge *)

Module Bridge.

(** What a GET of a url comes to.  [Refused]: [client.get] throws at
    once (not a url this client takes).  [Failed]: the request emits
    ['error'].  [Response]: the callback runs with a status code; for
    status 200 the body is then piped whole into the file. *)
Inductive reply :=
| Refused
| Failed (reason : string)
| Response (status : Z) (body : string).

(** The machine the bridge runs on. *)
Record host := {
  platform : string;              (* [process.platform] *)
  homedir : string;               (* [os.homedir()] *)
  APPDATA : option string;        (* [process.env.APPDATA] *)
  disk : mount;
  get : bool -> string -> reply   (* [https.get] for [true], [http.get] for [false] *)
}.

(** What a run changes: the tree, and the urls requested so far. *)
Record state := {
  files : Fs.tree;
  requests : list string
}.

(** ** A state and exception monad

    [Throw] is a JavaScript exception (or a rejected promise that is
    awaited); the state reached when it was thrown is kept.  [Crash] is
    an ['error'] event nobody listens to: it ends the process, and no
    [catch] sees it. *)
Inductive outcome (A : Type) :=
| Ret (a : A)
| Throw (e : exn)
| Crash (e : exn).
Arguments Ret {A} a.
Arguments Throw {A} e.
Arguments Crash {A} e.

Definition M (A : Type) : Type := state -> outcome A * state.

Definition ret {A} (a : A) : M A := λ s, (Ret a, s).
Definition throw {A} (e : exn) : M A := λ s, (Throw e, s).
Definition crash {A} (e : exn) : M A := λ s, (Crash e, s).

Definition bind {A B} (c : M A) (k : A -> M B) : M B :=
  λ s, match c s with
       | (Ret a, s') => k a s'
       | (Throw e, s') => (Throw e, s')
       | (Crash e, s') => (Crash e, s')
       end.

(** [try { c } catch (e) { h(e) }] *)
Definition try_catch {A} (c : M A) (h : exn -> M A) : M A :=
  λ s, match c s with
       | (Throw e, s') => h e s'
       | r => r
       end.

Declare Scope bridge_scope.
Delimit Scope bridge_scope with bridge.
Notation "x <- c ;; k" := (bind c (λ x, k))
  (at level 100, c at next level, right associativity) : bridge_scope.
Notation "c ;; k" := (bind c (λ _, k))
  (at level 100, right associativity) : bridge_scope.
Local Open Scope bridge_scope.

(** A call that reads the tree. *)
Definition reads {A} (f : Fs.tree -> A) : M A := λ s, (Ret (f (files s)), s).

(** A call that reads the tree and may throw. *)
Definition tries {A} (f : Fs.tree -> result A) : M A :=
  λ s, match f (files s) with
       | Ok a => (Ret a, s)
       | Err e => (Throw e, s)
       end.

(** A call that changes the tree, or throws and leaves it. *)
Definition writes (f : Fs.tree -> result Fs.tree) : M unit :=
  λ s, match f (files s) with
       | Ok t => (Ret tt, {| files := t; requests := requests s |})
       | Err e => (Throw e, s)
       end.

Definition lift {A} (r : result A) : M A :=
  match r with
  | Ok a => ret a
  | Err e => throw e
  end.

Definition note_request (url : string) : M unit :=
  λ s, (Ret tt, {| files := files s; requests := requests s ++ [url] |}).

(** [crypto.randomUUID()] from 128 random bits: 32 hexadecimal digits in
    groups of 8, 4, 4, 4 and 12, with the version digit [4] and the
    variant digit among [8 9 a b]. *)
Definition hex_digit (n : N) : ascii :=
  match n with
  | 0 => "0" | 1 => "1" | 2 => "2" | 3 => "3" | 4 => "4" | 5 => "5"
  | 6 => "6" | 7 => "7" | 8 => "8" | 9 => "9" | 10 => "a" | 11 => "b"
  | 12 => "c" | 13 => "d" | 14 => "e" | _ => "f"
  end%N%char.

Fixpoint hex (digits : nat) (n : N) : string :=
  match digits with
  | O => ""
  | S d => hex d (n / 16) +:+ String (hex_digit (n mod 16)) ""
  end.

Definition randomUUID (bits : N) : string :=
  hex 8 (bits / 2 ^ 96) +:+ "-" +:+
  hex 4 (bits / 2 ^ 80) +:+ "-" +:+
  String "4" (hex 3 (bits / 2 ^ 64)) +:+ "-" +:+
  String (hex_digit (8 + (bits / 2 ^ 60) mod 4)) (hex 3 (bits / 2 ^ 48)) +:+ "-" +:+
  hex 12 bits.

Record Instance := {
  id : string;
  name : string;
  path : string;
  versionFolder : option string     (* [kind] is ['version'] when present, ['default'] otherwise *)
}.

(** [/[^\w\-]/] on one code unit: anything but a letter, a digit, [_]
    or [-].  Strings are kept as bytes; a character outside ASCII is
    some bytes above 127, none of which is a word character, as none of
    its UTF-16 code units is. *)
Definition word_or_dash (c : ascii) : bool :=
  let n := nat_of_ascii c in
  (Nat.leb 65 n && Nat.leb n 90) || (Nat.leb 97 n && Nat.leb n 122)
  || (Nat.leb 48 n && Nat.leb n 57) || Nat.eqb n 95 || Nat.eqb n 45.

(** [s.replace(/[^\w\-]+/g, '_')], scanning left to right; [in_match]
    says that the character before was consumed by the current match,
    which has already put its underscore. *)
Fixpoint replace_runs (in_match : bool) (s : string) : string :=
  match s with
  | EmptyString => EmptyString
  | String c r =>
      if word_or_dash c then String c (replace_runs false r)
      else if in_match then replace_runs true r
      else String "_" (replace_runs true r)
  end.

(** [folderName.replace(/[^\w\-]+/g, '_')] *)
Definition sanitize (folderName : string) : string :=
  replace_runs false folderName.

Definition safeId (folderName : string) : string :=
  "ver_" +:+ sanitize folderName.

Section OnHost.
Variable h : host.

Definition existsSync (p : string) : M bool := reads (λ t, Fs.existsSync (disk h) t p).
Definition mkdirSync (p : string) : M unit := writes (λ t, Fs.mkdirSync (disk h) t p).
Definition rmSync (p : string) : M unit := writes (λ t, Fs.rmSync (disk h) t p).
Definition unlink (p : string) : M unit := writes (λ t, Fs.unlink (disk h) t p).
Definition writeFileSync (p : string) (data : content) : M unit :=
  writes (λ t, Fs.writeFileSync (disk h) t p data).
Definition readFileSync (p : string) : M content := tries (λ t, Fs.readFileSync (disk h) t p).
Definition readdirSync (p : string) : M (list (string * bool)) :=
  tries (λ t, Fs.readdirSync (disk h) t p).

(** [process.env.APPDATA || path.join(homedir, 'AppData', 'Roaming')] *)
Definition appdata : string :=
  match APPDATA h with
  | Some a => if Str.is_empty a then Path.joinl [homedir h; "AppData"; "Roaming"] else a
  | None => Path.joinl [homedir h; "AppData"; "Roaming"]
  end.

Definition configDir : string :=
  if Str.eqb (platform h) "win32"
  then Path.join appdata "lexten-minecraft-bridge"
  else Path.joinl [homedir h; ".config"; "lexten-bridge"].

Definition getConfigPath : M string :=
  there <- existsSync configDir ;;
  (if there then ret tt else mkdirSync configDir) ;;
  ret (Path.join configDir "device_token.json").

(** [JSON.parse(data)] *)
Definition JSON_parse (data : content) : M value :=
  match data with
  | Json v => ret v
  | Text _ => throw SyntaxError
  end.

Definition get_prop (v : value) (k : string) : M value :=
  match JS.prop v k with
  | Some x => ret x
  | None => throw TypeError
  end.

(** The first [try] block of [getOrCreateDeviceToken]: the stored
    token when the block returns one, [None] when control leaves the
    block, by its end or by the [catch]. *)
Definition storedToken (configPath : string) : M (option value) :=
  try_catch
    (there <- existsSync configPath ;;
     if there then
       data <- readFileSync configPath ;;
       json <- JSON_parse data ;;
       tok <- get_prop json "token" ;;
       ret (if JS.truthy tok then Some tok else None)
     else ret None)
    (λ _, ret None).

(** [JSON.stringify({ token: newToken, created_at: ... }, null, 2)] *)
Definition tokenRecord (newToken now : string) : content :=
  Json (VObj [("token", VStr newToken); ("created_at", VStr now)]).

(** [bits] is what [crypto.randomUUID()] draws and [now] what
    [new Date().toISOString()] reads, should the run need them. *)
Definition getOrCreateDeviceToken (bits : N) (now : string) : M value :=
  configPath <- getConfigPath ;;
  stored <- storedToken configPath ;;
  match stored with
  | Some tok => ret tok
  | None =>
      let newToken := randomUUID bits in
      try_catch
        (writeFileSync configPath (tokenRecord newToken now))
        (λ _, ret tt) ;;
      ret (VStr newToken)
  end.

Definition getMinecraftPath : result string :=
  if Str.eqb (platform h) "win32" then
    Ok (Path.join appdata ".minecraft")
  else if Str.eqb (platform h) "darwin" then
    Ok (Path.joinl [homedir h; "Library"; "Application Support"; "minecraft"])
  else if Str.eqb (platform h) "linux" then
    Ok (Path.join (homedir h) ".minecraft")
  else Err UnsupportedOS.

Definition versionInstance (versionsDir folderName : string) : Instance :=
  {| id := safeId folderName;
     name := folderName +:+ " (Version Folder)";
     path := Path.join versionsDir folderName;
     versionFolder := Some folderName |}.

Definition detectInstances : M (list Instance) :=
  match getMinecraftPath with
  | Err _ => ret []
  | Ok mcPath =>
      let default :=
        {| id := "default"; name := ".minecraft (Default)";
           path := mcPath; versionFolder := None |} in
      let versionsDir := Path.join mcPath "versions" in
      there <- existsSync versionsDir ;;
      if there then
        entries <- readdirSync versionsDir ;;
        ret (default ::
             List.map (λ d, versionInstance versionsDir d.1)
                      (List.filter (λ d, d.2) entries))
      else ret [default]
  end.

Definition ensureDir (dir : string) : M unit :=
  there <- existsSync dir ;;
  if there then ret tt else mkdirSync dir.

(** [fs.createWriteStream(destPath)].  The stream opens the file on
    its own; when that fails it emits ['error'], [downloadFile] has
    put no listener on the stream, and the event ends the process.
    The answer says which of the two it will be. *)
Definition createWriteStream (destPath : string) : M (result unit) :=
  λ s, match Fs.writeFileSync (disk h) (files s) destPath (Text "") with
       | Ok t => (Ret (Ok tt), {| files := t; requests := requests s |})
       | Err e => (Ret (Err e), s)
       end.

(** [response.pipe(file)], up to ['finish'], on a stream that is open.
    A reply with a status is taken to arrive whole and to fit the disk: a
    reply that stalls or is cut, or a write that fails, after which the
    promise of [downloadFile] never settles, is not among the replies. *)
Definition pipe (destPath : string) (body : string) : M unit :=
  writes (λ t, Ok (Fs.fill (disk h) t destPath (Text body))).

(** [url.startsWith('https:') ? https : http], then [client.get(url, ...)] *)
Definition request (url : value) : M reply :=
  match url with
  | VStr u =>
      match get h (Str.startsWith "https:" u) u with
      | Refused => throw InvalidUrl
      | r => note_request u ;; ret r
      end
  | _ => throw TypeError
  end.

(** [file.close(() => { fs.unlink(destPath, () => { }); })] *)
Definition discard (destPath : string) : M unit :=
  try_catch (unlink destPath) (λ _, ret tt).

(** The promise, awaited: [Ret] is [resolve], [Throw] is [reject] or
    an exception inside the executor.  When the destination cannot be
    opened the process ends, and the outcome is [Crash] whatever the url:
    for a url that is no string, or that the client refuses, the
    exception of the executor rejects the promise first, and the caller
    may still answer before the end; of that the outcome keeps nothing. *)
Definition downloadFile (url : value) (destPath : string) : M unit :=
  let dir := Path.dirname destPath in
  ensureDir dir ;;
  file <- createWriteStream destPath ;;
  match file with
  | Err e =>
      try_catch (request url ;; ret tt) (λ _, ret tt) ;;
      crash e
  | Ok _ =>
      r <- request url ;;
      match r with
      | Response status body =>
          if negb (Z.eqb status 200) then
            discard destPath ;;
            throw (DownloadFailed status)
          else pipe destPath body
      | Failed reason =>
          discard destPath ;;
          throw (RequestError reason)
      | Refused => throw InvalidUrl   (* [request] has thrown already *)
      end
  end.

(** ** [POST /install-files] *)

Inductive response :=
| Success (autoTerminate : bool)   (* [{ success: true }]; [true]: the exit is scheduled *)
| BadRequest                       (* status 400, ['No items to install.'] *)
| ServerError (err : exn).         (* status 500 with the error's message *)

Fixpoint forEach {A} (f : A -> M unit) (l : list A) : M unit :=
  match l with
  | [] => ret tt
  | x :: rest => f x ;; forEach f rest
  end.

Definition wellKnown : list string := ["mods"; "config"; "resourcepacks"].

Definition resetFolder (rootDir folder : string) : M unit :=
  let target := Path.join rootDir folder in
  there <- existsSync target ;;
  if there then try_catch (rmSync target) (λ _, ret tt) else ret tt.

Definition reset (mode : value) (rootDir : string) : M unit :=
  if JS.is_str mode "full" then forEach (resetFolder rootDir) wellKnown
  else ret tt.

(** [instances.find(i => i.id === instanceId) ||
     instances.find(i => i.id === 'default') || instances[0]] *)
Definition pickTarget (instanceId : value) (instances : list Instance)
  : option Instance :=
  match List.find (λ i, JS.is_str instanceId (id i)) instances with
  | Some i => Some i
  | None =>
      match List.find (λ i, Str.eqb (id i) "default") instances with
      | Some i => Some i
      | None => head instances
      end
  end.

(** [target ? target.path : getMinecraftPath()] *)
Definition rootFrom (instanceId : value) (instances : list Instance)
  : result string :=
  match pickTarget instanceId instances with
  | None => getMinecraftPath
  | Some target => Ok (path target)
  end.

(** [rootDir] as it stands before [ensureDir(rootDir)]. *)
Definition resolveRoot (gameDir instanceId : value) : M value :=
  if JS.truthy gameDir then ret gameDir
  else
    instances <- detectInstances ;;
    p <- lift (rootFrom instanceId instances) ;;
    ret (VStr p).

(** Resolution, [ensureDir(rootDir)] and the reset.  A [rootDir] that
    is not a string does not pass [ensureDir]: [fs.existsSync]
    answers [false] for it and [fs.mkdirSync] throws. *)
Definition prepare (mode gameDir instanceId : value) : M string :=
  rootDir <- resolveRoot gameDir instanceId ;;
  match rootDir with
  | VStr root =>
      ensureDir root ;;
      reset mode root ;;
      ret root
  | _ => throw TypeError
  end.

(** [!item || !item.url || !item.fileName] is false. *)
Definition usable (item : value) : bool :=
  JS.truthy item && JS.truthy (JS.get item "url")
  && JS.truthy (JS.get item "fileName").

Definition subFolder (type : value) : string :=
  if JS.is_str type "resourcepack" then "resourcepacks"
  else if JS.is_str type "config" then "config"
  else "mods".

(** [destPath]; [path.join] throws on a [fileName] that is not a string. *)
Definition destPath (rootDir : string) (item : value) : result string :=
  let type := JS.or_else (JS.get item "type") (VStr "mod") in
  let folderPath := Path.join rootDir (subFolder type) in
  match JS.get item "fileName" with
  | VStr fileName => Ok (Path.join folderPath fileName)
  | _ => Err TypeError
  end.

Definition placeItem (rootDir : string) (item : value) : M unit :=
  if usable item then
    dest <- lift (destPath rootDir item) ;;
    downloadFile (JS.get item "url") dest
  else ret tt.

(** [!Array.isArray(items) || items.length === 0] *)
Definition noItems (items : value) : bool :=
  match items with
  | VArr (_ :: _) => false
  | _ => true
  end.

(** What [for (const item of items)] runs over. *)
Definition elements (items : value) : list value :=
  match items with
  | VArr l => l
  | _ => []
  end.

(** [req.body || {}] *)
Definition bodyOf (body : value) : value := JS.or_else body (VObj []).

Definition install_files (body : value) : M response :=
  let body := bodyOf body in
  let mode := JS.get body "mode" in
  let autoTerminate := JS.get body "autoTerminate" in
  let instanceId := JS.get body "instanceId" in
  let gameDir := JS.get body "gameDir" in
  let items := JS.get body "items" in
  if noItems items then ret BadRequest
  else
    try_catch
      (rootDir <- prepare mode gameDir instanceId ;;
       forEach (placeItem rootDir) (elements items) ;;
       ret (Success (JS.truthy autoTerminate)))
      (λ err, ret (ServerError err)).

End OnHost.

End Bridge.

(* ------------------------------------------------------------------ *)
(** ** The other two endpoints *)

Module Endpoints.
Import Bridge.
Local Open Scope bridge_scope.

(** The body of the answer of [GET /status]. *)
Record statusBody := {
  status : string;
  version : string;
  token : value;
  os : string;
  mcPath : string;
  instances : list Instance
}.

Section OnHost.
Variable h : host.

(** [GET /status].  [DEVICE_TOKEN] is what [getOrCreateDeviceToken]
    returned when the process started.  The handler has no [try] around
    [detectInstances]: what that throws leaves the handler. *)
Definition status_handler (DEVICE_TOKEN : value) : M statusBody :=
  let mcPath :=
    match getMinecraftPath h with
    | Ok p => p
    | Err _ => ""
    end in
  instances <- detectInstances h ;;
  ret {| status := "ready"; version := "1.1.0"; token := DEVICE_TOKEN;
         os := platform h; mcPath := mcPath; instances := instances |}.

(** [fs.unlinkSync(p)] *)
Definition unlinkSync (p : string) : M unit := unlink h p.

(** [POST /install].  The archive library [adm-zip] is not part of the
    repository: [extractAllTo tempFile mcPath] stands for
    [require('adm-zip')], [new AdmZip(tempFile)] and
    [zip.extractAllTo(mcPath, true)] together, whatever they do to the
    tree and whatever they throw.  The loop over the three folders is the
    one of [POST /install-files], word for word. *)
Variable extractAllTo : string -> string -> M unit.

Definition tempFileOf (mcPath : string) : string :=
  Path.join mcPath "temp_modpack.zip".

Definition install (body : value) : M response :=
  let body := bodyOf body in
  let url := JS.get body "url" in
  let mode := JS.get body "mode" in
  let autoTerminate := JS.get body "autoTerminate" in
  try_catch
    (mcPath <- lift (getMinecraftPath h) ;;
     ensureDir h mcPath ;;
     let tempFile := tempFileOf mcPath in
     downloadFile h url tempFile ;;
     reset h mode mcPath ;;
     extractAllTo tempFile mcPath ;;
     unlinkSync tempFile ;;
     ret (Success (JS.truthy autoTerminate)))
    (λ err, ret (ServerError err)).

End OnHost.

End Endpoints.

(* ------------------------------------------------------------------ *)
(** ** The identifier rule as the specification words it *)

Module Claimed.

(** "Replace every character outside [[A-Za-z0-9_-]] with [_]", one
    underscore for each such character. *)
Fixpoint replace_each (s : string) : string :=
  match s with
  | EmptyString => EmptyString
  | String c r =>
      String (if Bridge.word_or_dash c then c else "_"%char) (replace_each r)
  end.

Definition safeId (folderName : string) : string :=
  "ver_" +:+ replace_each folderName.

End Claimed.

(* ------------------------------------------------------------------ *)
(** ** Machines and requests to try the definitions on *)

Module Scenario.
Import Bridge.

Definition replies (https : bool) (url : string) : reply :=
  if Str.eqb url "http://x/a.jar" then Response 200 "JAR"
  else if Str.eqb url "http://x/b.zip" then Response 200 "ZIP"
  else if Str.eqb url "http://down/a.jar" then Failed "ECONNREFUSED"
  else if Str.eqb url "not a url" then Refused
  else Response 404 "".

Definition linux : host :=
  {| platform := "linux"; homedir := "/home/u"; APPDATA := None;
     disk := {| cwd := "/srv/bridge"; pinned := ∅ |};
     get := replies |}.

Definition mc : list string := ["home"; "u"; ".minecraft"].

(** A game directory with one mod and one version folder. *)
Definition installed : Fs.tree :=
  list_to_map
    [(["home"], Dir); (["home"; "u"], Dir); (mc, Dir);
     (mc ++ ["mods"], Dir);
     (mc ++ ["mods"; "old.jar"], File (Text "OLD"));
     (mc ++ ["versions"], Dir);
     (mc ++ ["versions"; "My Pack (v2)"], Dir)].

Definition fresh (t : Fs.tree) : state := {| files := t; requests := [] |}.

Definition item (type url fileName : string) : value :=
  VObj [("type", VStr type); ("url", VStr url); ("fileName", VStr fileName)].

Definition request (mode : string) (items : list value) : value :=
  VObj [("mode", VStr mode); ("instanceId", VStr "default"); ("items", VArr items)].

(** The same machine, where [old.jar] cannot be removed: the bridge may
    write to the files in [mods] but not to the directory itself. *)
Definition locked : host :=
  {| platform := "linux"; homedir := "/home/u"; APPDATA := None;
     disk := {| cwd := "/srv/bridge"; pinned := {[ mc ++ ["mods"; "old.jar"] ]} |};
     get := replies |}.

(** A platform [getMinecraftPath] does not know. *)
Definition freebsd : host :=
  {| platform := "freebsd"; homedir := "/home/u"; APPDATA := None;
     disk := {| cwd := "/srv/bridge"; pinned := ∅ |};
     get := replies |}.

(** A home directory and nothing in it. *)
Definition home_only : Fs.tree :=
  list_to_map [(["home"], Dir); (["home"; "u"], Dir)].

Definition token_path : string := "/home/u/.config/lexten-bridge/device_token.json".

(** The tree after a first run that drew [bits] at time [now]. *)
Definition after_first_run (bits : N) (now : string) : state :=
  (getOrCreateDeviceToken linux bits now (fresh home_only)).2.

(** A home directory where [.config] is a file. *)
Definition config_is_file : Fs.tree :=
  list_to_map
    [(["home"], Dir); (["home"; "u"], Dir);
     (["home"; "u"; ".config"], File (Text "x"))].

(** A home directory where [device_token.json] is a directory. *)
Definition token_is_dir : Fs.tree :=
  list_to_map
    [(["home"], Dir); (["home"; "u"], Dir);
     (["home"; "u"; ".config"], Dir);
     (["home"; "u"; ".config"; "lexten-bridge"], Dir);
     (["home"; "u"; ".config"; "lexten-bridge"; "device_token.json"], Dir)].

Definition inst_a : Instance :=
  {| id := "ver_a"; name := "a"; path := "/a"; versionFolder := Some "a" |}.
Definition inst_default : Instance :=
  {| id := "default"; name := "d"; path := "/d"; versionFolder := None |}.
Definition inst_b : Instance :=
  {| id := "ver_b"; name := "b"; path := "/b"; versionFolder := Some "b" |}.

Definition three_instances : list Instance := [inst_a; inst_default; inst_b].

End Scenario.

(* ------------------------------------------------------------------ *)
(** ** Vocabulary of the statements *)

Module Terms.
Import Path Bridge.

(** A name as a directory entry carries it: not empty, not [.] or [..]. *)
Definition is_proper (seg : string) : bool :=
  negb (Str.eqb seg "" || Str.eqb seg "." || Str.eqb seg "..").

Fixpoint no_slash (s : string) : bool :=
  match s with
  | EmptyString => true
  | String c r => negb (Str.is_slash c) && no_slash r
  end.

Definition all_proper (l : list string) : Prop :=
  Forall (λ x, is_proper x = true) l.

Definition all_dots (l : list string) : Prop := Forall (λ x, x = "..") l.

(** The stack of a relative path: names on top of a run of [..]. *)
Definition rel_nf (stack : list string) : Prop :=
  exists names ups, stack = names ++ ups /\ all_proper names /\ all_dots ups.

(** Reading the normalized relative path [stack] from [base]. *)
Definition lower (stack base : list string) : list string :=
  normalizeStack false base (rev stack).

Definition seg_ok (x : string) : Prop := no_slash x = true /\ x <> "".

(** The working directory, then the segments of [p]. *)
Definition from (cwd p : string) : list string :=
  normalizeStack false [] (if isAbsolute p then [] else split cwd).

(** Everything in [t] is still in [t'], as it was. *)
Definition extends (t t' : Fs.tree) : Prop :=
  forall k n, t !! k = Some n -> t' !! k = Some n.

Definition first_such {A} (P : A -> Prop) (l : list A) (x : A) : Prop :=
  exists before after,
    l = before ++ x :: after /\ P x /\ Forall (λ y, ~ P y) before.

Fixpoint every (P : ascii -> bool) (s : string) : bool :=
  match s with
  | EmptyString => true
  | String c r => P c && every P r
  end.

(** Only characters of the class [[A-Za-z0-9_-]]. *)
Definition word_only (s : string) : bool := every word_or_dash s.

(** Only characters outside it. *)
Definition outside_only (s : string) : bool :=
  every (λ c, negb (word_or_dash c)) s.

(** The string is empty or begins with a character of the class. *)
Definition not_in_run (s : string) : bool :=
  match s with
  | EmptyString => true
  | String c _ => word_or_dash c
  end.

(** [dest] is [dir] itself or lies below it. *)
Definition at_or_below (m : mount) (dir dest : string) : Prop :=
  Fs.key m dir `prefix_of` Fs.key m dest.

(** [dest] lies below [dir], and is not [dir] itself. *)
Definition below (m : mount) (dir dest : string) : Prop :=
  exists name rest, Fs.key m dest = Fs.key m dir ++ name :: rest.

(** The names of the three subdirectories are plain names. *)
Definition plain (name : string) : Prop :=
  is_proper name = true /\ no_slash name = true.

(** From [s] to [s'] entries have only gone, and none that is pinned. *)
Definition eroded (h : host) (s s' : state) : Prop :=
  requests s' = requests s /\
  (forall q n, files s' !! q = Some n -> files s !! q = Some n) /\
  (forall q, q ∈ pinned (disk h) -> is_Some (files s !! q) -> is_Some (files s' !! q)).

(** The error a reply makes [downloadFile] reject with, if any: a status
    other than 200, or the request's ['error']. *)
Definition fetch_error (r : reply) : option exn :=
  match r with
  | Failed reason => Some (RequestError reason)
  | Response status _ =>
      if Z.eqb status 200 then None else Some (DownloadFailed status)
  | Refused => None
  end.

(** Every run of [c] takes a state to one related to it by [R]. *)
Definition keeps {A} (R : state -> state -> Prop) (c : M A) : Prop :=
  forall s, R s (c s).2.

(** No directory has gone, and no file outside [K] has gone or changed. *)
Definition quiet (K : list string -> Prop) (s s' : state) : Prop :=
  (forall k, Fs.stat (files s) k = Some Dir -> Fs.stat (files s') k = Some Dir) /\
  (forall k d, ~ K k -> files s !! k = Some (File d) -> files s' !! k = Some (File d)).

End Terms.

Import Terms.

(* ------------------------------------------------------------------ *)
(** ** Further vocabulary: what a run reaches *)

Module Notions.
Import Bridge.

(** Outside [K] no entry has gone or changed, and no file has appeared
    or changed.  (Directories may have appeared.) *)
Definition confined (K : list string -> Prop) (s s' : state) : Prop :=
  (forall k n, ~ K k -> files s !! k = Some n -> files s' !! k = Some n) /\
  (forall k d, files s' !! k = Some (File d) -> files s !! k = Some (File d) \/ K k).

(** A path that the file system reads as the lexical resolution does,
    segment by segment: not empty, and every segment a name, but for the
    empty one before a leading separator.  No [.] or [..], no doubled or
    trailing separator. *)
Definition canonical (p : string) : bool :=
  match Path.split p with
  | EmptyString :: name :: rest => forallb is_proper (name :: rest)
  | segs => forallb is_proper segs
  end.

(** No request has been made between [s] and [s']. *)
Definition silent (s s' : state) : Prop := requests s' = requests s.

(** Whatever lies in or below [k] has [k] itself there. *)
Definition covered (t : Fs.tree) (k : list string) : Prop :=
  forall q, k `prefix_of` q -> is_Some (t !! q) -> is_Some (t !! k).

(** The url of an item that is not skipped, when it is a string. *)
Definition urlOf (item : value) : option string :=
  if usable item then
    match JS.get item "url" with
    | VStr u => Some u
    | _ => None
    end
  else None.

(** The urls a list of items asks for, in its order. *)
Definition wanted (items : list value) : list string := omap urlOf items.

(** Every entry of the tree lies in something that is there. *)
Definition closed (t : Fs.tree) : bool :=
  bool_decide (map_Forall (λ q _, is_Some (Fs.stat t (removelast q))) t).

(** The first entry of what [detectInstances] lists. *)
Definition defaultInstance (mcPath : string) : Instance :=
  {| id := "default"; name := ".minecraft (Default)";
     path := mcPath; versionFolder := None |}.

(** [path.join(mcPath, 'versions')] *)
Definition versionsOf (mcPath : string) : string := Path.join mcPath "versions".

(** A token file the first [try] block of [getOrCreateDeviceToken] gets
    no token from: text that does not parse, [null], or a value whose
    [token] is missing or falsy. *)
Definition no_token (data : content) : bool :=
  match data with
  | Text _ => true
  | Json v =>
      match JS.prop v "token" with
      | Some tok => negb (JS.truthy tok)
      | None => true
      end
  end.

(** [q] lies in one of the three folders under [root]. *)
Definition in_wellKnown (m : mount) (root : string) (q : list string) : Prop :=
  exists folder, In folder wellKnown /\ Fs.key m (Path.join root folder) `prefix_of` q.

(** [k] is where one of the items that are not skipped goes. *)
Definition destination (m : mount) (root : string) (items : list value)
    (k : list string) : Prop :=
  exists item dest,
    In item items /\ usable item = true /\
    destPath root item = Ok dest /\ Fs.key m dest = k.

End Notions.

Import Notions.

(* ------------------------------------------------------------------ *)
(** ** Archives to try [POST /install] on *)

Module Trials.
Import Bridge.
Local Open Scope bridge_scope.

(** An archive library that finds one mod in every archive whose text is
    [ZIP], and throws on any other file. *)
Definition extractAllTo (h : host) (tempFile mcPath : string) : M unit :=
  data <- readFileSync h tempFile ;;
  match data with
  | Text "ZIP" =>
      ensureDir h (Path.join mcPath "mods") ;;
      writeFileSync h (Path.joinl [mcPath; "mods"; "packed.jar"]) (Text "PACKED")
  | _ => throw SyntaxError
  end.

Definition zip_request (mode url : string) : value :=
  VObj [("url", VStr url); ("mode", VStr mode)].

(** A token file that is not JSON. *)
Definition token_is_junk : Fs.tree :=
  list_to_map
    [(["home"], Dir); (["home"; "u"], Dir);
     (["home"; "u"; ".config"], Dir);
     (["home"; "u"; ".config"; "lexten-bridge"], Dir);
     (["home"; "u"; ".config"; "lexten-bridge"; "device_token.json"],
      File (Text "{tok"))].

(** A game directory where [versions] is a file. *)
Definition versions_is_file : Fs.tree :=
  list_to_map
    [(["home"], Dir); (["home"; "u"], Dir); (Scenario.mc, Dir);
     (Scenario.mc ++ ["versions"], File (Text "x"))].

End Trials.

(* ------------------------------------------------------------------ *)
(** * Facts about paths *)

Module PathFacts.
Import Path.

Lemma eqb_eq (a b : string) : Str.eqb a b = true <-> a = b.
Proof. apply String.eqb_eq. Qed.

Lemma split_not_nil s : split s <> [].
Proof.
  destruct s as [|c r]; simpl; [discriminate|].
  destruct (Str.is_slash c); [discriminate|].
  destruct (split r); discriminate.
Qed.

Lemma split_app_slash a b : split (a +:+ "/" +:+ b) = split a ++ split b.
Proof.
  induction a as [|c a IH]; simpl; [reflexivity|].
  destruct (Str.is_slash c); [now rewrite IH|].
  rewrite IH. pose proof (split_not_nil a) as Hn.
  destruct (split a); [congruence|reflexivity].
Qed.

Lemma split_no_slash s : no_slash s = true -> split s = [s].
Proof.
  induction s as [|c r IH]; simpl; [reflexivity|].
  intros [Hc Hr]%andb_true_iff. apply negb_true_iff in Hc. rewrite Hc.
  now rewrite (IH Hr).
Qed.

Lemma split_segments s : Forall (λ x, no_slash x = true) (split s).
Proof.
  induction s as [|c r IH]; simpl; [repeat constructor|].
  destruct (Str.is_slash c) eqn:Hc; [now constructor|].
  destruct (split r) as [|x l]; inversion IH; subst;
    constructor; simpl; try rewrite Hc; auto.
Qed.

Lemma split_render l :
  l <> [] -> Forall (λ x, no_slash x = true) l -> split (render l) = l.
Proof.
  induction l as [|x l IH]; [congruence|]. intros _ Hall.
  inversion Hall as [|? ? Hx Hl]; subst.
  destruct l as [|y l]; [now apply split_no_slash|].
  change (render (x :: y :: l)) with (x +:+ "/" +:+ render (y :: l)).
  rewrite split_app_slash, split_no_slash, IH by (auto; discriminate).
  reflexivity.
Qed.

Lemma split_trailing s : split (s +:+ "/") = split s ++ [""].
Proof. apply (split_app_slash s ""). Qed.

(** *** One step of the normalization *)

Lemma step_skip b stack seg :
  seg = "" \/ seg = "." -> step b stack seg = stack.
Proof. intros [->| ->]; reflexivity. Qed.

Lemma step_proper b stack seg :
  is_proper seg = true -> step b stack seg = seg :: stack.
Proof.
  unfold is_proper, step. intros H%negb_true_iff.
  apply orb_false_iff in H as [[H1 H2]%orb_false_iff H3].
  now rewrite H1, H2, H3.
Qed.

Lemma proper_cases seg :
  is_proper seg = true \/ seg = "" \/ seg = "." \/ seg = "..".
Proof.
  unfold is_proper.
  destruct (Str.eqb seg "") eqn:H1; [apply eqb_eq in H1; auto|].
  destruct (Str.eqb seg ".") eqn:H2; [apply eqb_eq in H2; auto|].
  destruct (Str.eqb seg "..") eqn:H3; [apply eqb_eq in H3; auto|].
  now left.
Qed.

Lemma proper_not_dots seg : is_proper seg = true -> Str.eqb seg ".." = false.
Proof.
  unfold is_proper. intros H%negb_true_iff.
  now apply orb_false_iff in H as [_ H].
Qed.

(** With [allowAboveRoot] off, [..] takes the last name away. *)
Lemma step_up stack : all_proper stack -> step false stack ".." = drop 1 stack.
Proof.
  intros H. unfold step. simpl.
  destruct stack as [|top rest]; [reflexivity|].
  inversion H; subst. now rewrite proper_not_dots.
Qed.

Lemma step_false_proper stack seg :
  all_proper stack -> all_proper (step false stack seg).
Proof.
  intros H. destruct (proper_cases seg) as [Hp|[->|[->| ->]]].
  - rewrite step_proper by assumption. now constructor.
  - assumption.
  - assumption.
  - rewrite step_up by assumption. destruct stack; [constructor|].
    now inversion H.
Qed.

Lemma normalizeStack_false_proper segs stack :
  all_proper stack -> all_proper (normalizeStack false stack segs).
Proof.
  revert stack. induction segs as [|seg segs IH]; intros stack H; simpl.
  - assumption.
  - apply IH, step_false_proper, H.
Qed.

Lemma normalizeStack_app b stack l1 l2 :
  normalizeStack b stack (l1 ++ l2) =
  normalizeStack b (normalizeStack b stack l1) l2.
Proof. apply fold_left_app. Qed.

(** Names are pushed, empty segments and [.] are passed over. *)
Lemma normalizeStack_push b stack segs :
  Forall (λ x, x <> "..") segs ->
  normalizeStack b stack segs = rev (List.filter is_proper segs) ++ stack.
Proof.
  revert stack. induction segs as [|seg segs IH]; intros stack H; simpl.
  - reflexivity.
  - inversion H as [|? ? Hseg Hrest]; subst.
    change (fold_left (step b) segs (step b stack seg))
      with (normalizeStack b (step b stack seg) segs).
    rewrite IH by assumption.
    destruct (proper_cases seg) as [Hp|[->|[->| ->]]]; try congruence.
    + rewrite Hp, step_proper by assumption. simpl.
      now rewrite <- app_assoc.
    + reflexivity.
    + reflexivity.
Qed.

Lemma normalizeStack_names b stack names :
  all_proper names -> normalizeStack b stack names = rev names ++ stack.
Proof.
  intros H. rewrite normalizeStack_push.
  - f_equal. f_equal. induction H as [|x l Hx Hl IH]; simpl; [reflexivity|].
    now rewrite Hx, IH.
  - eapply Forall_impl; [exact H|]. intros x Hx ->. discriminate.
Qed.

(** *** A relative path, normalized, then read from a directory *)

Lemma all_proper_drop n l : all_proper l -> all_proper (drop n l).
Proof. apply Forall_drop. Qed.

Lemma normalizeStack_ups ups base :
  all_dots ups -> all_proper base ->
  normalizeStack false base ups = drop (length ups) base.
Proof.
  intros Hups. revert base.
  induction Hups as [|x l -> Hl IH]; intros base Hb; simpl.
  - now rewrite drop_0.
  - change (fold_left (step false) l (step false base ".."))
      with (normalizeStack false (step false base "..") l).
    rewrite step_up, IH, drop_drop by auto using all_proper_drop.
    reflexivity.
Qed.

Lemma lower_nf names ups base :
  all_proper names -> all_dots ups -> all_proper base ->
  lower (names ++ ups) base = names ++ drop (length ups) base.
Proof.
  intros Hn Hu Hb. unfold lower.
  rewrite rev_app_distr, normalizeStack_app.
  rewrite (normalizeStack_ups (rev ups) base), length_rev
    by (auto; now apply List.Forall_rev).
  rewrite normalizeStack_names, rev_involutive; auto.
  now apply List.Forall_rev.
Qed.

Lemma rel_nf_nil : rel_nf [].
Proof. exists [], []. repeat split; constructor. Qed.

Lemma step_true_nf stack seg : rel_nf stack -> rel_nf (step true stack seg).
Proof.
  intros (names & ups & -> & Hn & Hu).
  destruct (proper_cases seg) as [Hp|[->|[->| ->]]].
  - rewrite step_proper by assumption.
    exists (seg :: names), ups. repeat split; auto. now constructor.
  - exists names, ups. auto.
  - exists names, ups. auto.
  - destruct names as [|top names]; simpl.
    + exists [], (".." :: ups). repeat split; [|constructor|now constructor].
      unfold step; simpl. destruct ups as [|u ups]; [reflexivity|].
      inversion Hu; subst. reflexivity.
    + inversion Hn; subst. exists names, ups. repeat split; auto.
      unfold step; simpl. now rewrite proper_not_dots.
Qed.

Lemma normalizeStack_true_nf segs stack :
  rel_nf stack -> rel_nf (normalizeStack true stack segs).
Proof.
  revert stack. induction segs as [|seg segs IH]; intros stack H; simpl.
  - assumption.
  - apply IH, step_true_nf, H.
Qed.

Lemma lower_step stack base seg :
  rel_nf stack -> all_proper base ->
  step false (lower stack base) seg = lower (step true stack seg) base.
Proof.
  intros (names & ups & -> & Hn & Hu) Hb.
  rewrite lower_nf by assumption.
  destruct (proper_cases seg) as [Hp|[->|[->| ->]]].
  - rewrite !step_proper by assumption.
    change (seg :: names ++ ups) with ((seg :: names) ++ ups).
    rewrite lower_nf; auto. now constructor.
  - now rewrite !step_skip, lower_nf by auto.
  - now rewrite !step_skip, lower_nf by auto.
  - destruct names as [|top names]; simpl.
    + rewrite step_up by now apply all_proper_drop.
      rewrite drop_drop.
      assert (step true ups ".." = [] ++ ".." :: ups) as ->.
      { unfold step; simpl. destruct ups as [|u ups]; [reflexivity|].
        inversion Hu; subst. reflexivity. }
      rewrite lower_nf; [|constructor|now constructor|assumption].
      simpl. f_equal. lia.
    + inversion Hn; subst.
      assert (step true (top :: names ++ ups) ".." = names ++ ups) as ->.
      { unfold step; simpl. now rewrite proper_not_dots. }
      rewrite lower_nf by assumption.
      unfold step; simpl. now rewrite proper_not_dots.
Qed.

(** Normalizing a relative path first does not change where it leads. *)
Lemma lower_normalizeStack segs stack base :
  rel_nf stack -> all_proper base ->
  normalizeStack false (lower stack base) segs =
  lower (normalizeStack true stack segs) base.
Proof.
  revert stack. induction segs as [|seg segs IH]; intros stack Hs Hb; simpl.
  - reflexivity.
  - rewrite lower_step by assumption.
    apply IH; [now apply step_true_nf|assumption].
Qed.

(** *** What the stack holds, and how it prints *)

Lemma proper_not_empty seg : is_proper seg = true -> seg <> "".
Proof. intros H ->. discriminate. Qed.

Lemma step_ok b stack seg :
  Forall seg_ok stack -> no_slash seg = true -> Forall seg_ok (step b stack seg).
Proof.
  intros Hs Hseg. destruct (proper_cases seg) as [Hp|[->|[->| ->]]].
  - rewrite step_proper by assumption. constructor; [|assumption].
    split; [assumption|now apply proper_not_empty].
  - assumption.
  - assumption.
  - unfold step; simpl. destruct stack as [|top rest].
    + destruct b; repeat constructor. discriminate.
    + inversion Hs; subst.
      destruct (Str.eqb top ".."); [destruct b|]; auto.
      constructor; [split; [reflexivity|discriminate]|assumption].
Qed.

Lemma normalizeStack_ok b segs stack :
  Forall seg_ok stack -> Forall (λ x, no_slash x = true) segs ->
  Forall seg_ok (normalizeStack b stack segs).
Proof.
  revert stack. induction segs as [|seg segs IH]; intros stack Hs Hsegs; simpl.
  - assumption.
  - inversion Hsegs; subst. apply IH; [now apply step_ok|assumption].
Qed.

Lemma seg_ok_no_slash l : Forall seg_ok l -> Forall (λ x, no_slash x = true) l.
Proof. intros H. eapply Forall_impl; [exact H|]. now intros x [Hx _]. Qed.

Lemma render_not_empty x l : x <> "" -> Str.is_empty (render (x :: l)) = false.
Proof.
  intros Hx. destruct x as [|c x]; [congruence|].
  destruct l; reflexivity.
Qed.

Lemma render_relative x l : seg_ok x -> isAbsolute (render (x :: l)) = false.
Proof.
  intros [Hs Hx]. destruct x as [|c x]; [congruence|].
  simpl in Hs. apply andb_true_iff in Hs as [Hc _].
  apply negb_true_iff in Hc. destruct l; simpl; exact Hc.
Qed.

Lemma isAbsolute_app s t : s <> "" -> isAbsolute (s +:+ t) = isAbsolute s.
Proof. destruct s; [congruence|reflexivity]. Qed.

Lemma is_empty_true s : Str.is_empty s = true <-> s = "".
Proof. destruct s; simpl; split; congruence. Qed.

Lemma is_empty_false s : Str.is_empty s = false <-> s <> "".
Proof. destruct s; simpl; split; congruence. Qed.

Lemma all_proper_base cwd : all_proper (normalizeStack false [] (split cwd)).
Proof. apply normalizeStack_false_proper. constructor. Qed.

(** Segments that are passed over at the end change nothing. *)
Lemma normalizeStack_trailing b stack segs :
  normalizeStack b stack (segs ++ [""]) = normalizeStack b stack segs.
Proof. now rewrite normalizeStack_app. Qed.

Lemma resolve_from cwd p :
  resolve cwd p = rev (normalizeStack false (from cwd p) (split p)).
Proof. unfold resolve, from. now rewrite normalizeStack_app. Qed.

Lemma all_proper_from cwd p : all_proper (from cwd p).
Proof. apply normalizeStack_false_proper. constructor. Qed.

(** The segments of a printed stack, with or without a separator after it. *)
Lemma normalizeStack_printed b stack l (trailing : bool) :
  l <> [] -> Forall seg_ok l ->
  normalizeStack b stack (split (if trailing then render l +:+ "/" else render l))
  = normalizeStack b stack l.
Proof.
  intros Hl Hok. destruct trailing.
  - rewrite split_trailing, split_render, normalizeStack_trailing;
      auto using seg_ok_no_slash.
  - rewrite split_render; auto using seg_ok_no_slash.
Qed.

Lemma printed_relative l (trailing : bool) :
  l <> [] -> Forall seg_ok l ->
  isAbsolute (if trailing then render l +:+ "/" else render l) = false.
Proof.
  intros Hl Hok. destruct l as [|x l]; [congruence|].
  inversion Hok; subst.
  destruct trailing; [rewrite isAbsolute_app|]; auto using render_relative.
  apply is_empty_false, render_not_empty. now destruct H1.
Qed.

Lemma resolve_abs cwd s :
  resolve cwd ("/" +:+ s) = rev (normalizeStack false [] (split s)).
Proof. reflexivity. Qed.

(** [path.normalize] does not change where a path leads. *)
Lemma resolve_normalize cwd p : resolve cwd (normalize p) = resolve cwd p.
Proof.
  destruct p as [|c r].
  { unfold resolve. simpl. now rewrite !normalizeStack_app. }
  unfold normalize. cbn [Str.is_empty]. unfold normalizeString.
  set (p := String c r).
  destruct (isAbsolute p) eqn:Habs; cbn [negb].
  - (* absolute *)
    assert (Hp : all_proper (normalizeStack false [] (split p)))
      by (apply normalizeStack_false_proper; constructor).
    assert (Hok : Forall seg_ok (rev (normalizeStack false [] (split p)))).
    { apply List.Forall_rev, normalizeStack_ok; [constructor|apply split_segments]. }
    rewrite (resolve_from cwd p). unfold from. rewrite Habs.
    cbn [normalizeStack fold_left].
    change (fold_left (step false) (split p) []) with (normalizeStack false [] (split p)).
    destruct (rev (normalizeStack false [] (split p))) as [|x l] eqn:Hrev.
    + reflexivity.
    + rewrite render_not_empty by (inversion Hok; subst; now destruct H1).
      rewrite resolve_abs.
      rewrite normalizeStack_printed by (auto; discriminate).
      rewrite normalizeStack_names, app_nil_r, rev_involutive.
      * reflexivity.
      * rewrite <- Hrev. now apply List.Forall_rev.
  - (* relative *)
    set (R := normalizeStack true [] (split p)).
    assert (Hnf : rel_nf R) by apply normalizeStack_true_nf, rel_nf_nil.
    assert (Hok : Forall seg_ok (rev R)).
    { apply List.Forall_rev, normalizeStack_ok; [constructor|apply split_segments]. }
    assert (Hgoal : resolve cwd p = rev (lower R (normalizeStack false [] (split cwd)))).
    { rewrite resolve_from. unfold from. rewrite Habs. f_equal.
      apply (lower_normalizeStack (split p) [] _ rel_nf_nil (all_proper_base cwd)). }
    rewrite Hgoal. unfold lower.
    destruct (rev R) as [|x l] eqn:Hrev.
    + cbn [render Str.is_empty normalizeStack fold_left].
      unfold resolve. destruct (trailingSeparator p); cbn [isAbsolute Str.is_slash];
        simpl; now rewrite normalizeStack_app.
    + rewrite render_not_empty by (inversion Hok; subst; now destruct H1).
      rewrite resolve_from. unfold from.
      rewrite printed_relative, normalizeStack_printed by (auto; discriminate).
      reflexivity.
Qed.

(** *** [path.join] *)

Lemma normalize_not_empty p : normalize p <> "".
Proof.
  unfold normalize. destruct (Str.is_empty p); [discriminate|].
  destruct (Str.is_empty (normalizeString p (negb (isAbsolute p)))) eqn:He.
  - destruct (isAbsolute p); [discriminate|].
    destruct (trailingSeparator p); discriminate.
  - apply is_empty_false in He.
    destruct (isAbsolute p); [discriminate|].
    destruct (trailingSeparator p); [|assumption].
    destruct (normalizeString p (negb false)); [congruence|discriminate].
Qed.

Lemma join_not_empty a b : join a b <> "".
Proof.
  unfold join, joinl. simpl.
  destruct (Str.is_empty a), (Str.is_empty b); simpl;
    try discriminate; apply normalize_not_empty.
Qed.

(** Where [path.join(a, b)] leads: to [a], and from there along [b]. *)
Lemma resolve_join cwd a b :
  a <> "" ->
  resolve cwd (join a b) =
  rev (normalizeStack false (rev (resolve cwd a)) (split b)).
Proof.
  intros Ha. unfold join, joinl. simpl.
  apply is_empty_false in Ha as Ha'. rewrite Ha'. simpl.
  destruct b as [|c b]; simpl negb; cbv iota.
  - cbn [render]. rewrite resolve_normalize. simpl.
    now rewrite step_skip, rev_involutive by auto.
  - cbn [render]. rewrite resolve_normalize. unfold resolve.
    rewrite isAbsolute_app, split_app_slash, app_assoc by assumption.
    now rewrite normalizeStack_app, rev_involutive.
Qed.

Lemma proper_relative sub :
  is_proper sub = true -> no_slash sub = true -> isAbsolute sub = false.
Proof.
  intros Hp Hs. destruct sub as [|c sub]; [reflexivity|].
  simpl in *. apply andb_true_iff in Hs as [Hc _].
  now apply negb_true_iff in Hc.
Qed.

(** A plain name joined to a directory is an entry of that directory. *)
Lemma resolve_join_name cwd dir sub :
  is_proper sub = true -> no_slash sub = true ->
  resolve cwd (join dir sub) = resolve cwd dir ++ [sub].
Proof.
  intros Hp Hs. destruct dir as [|c dir].
  - assert (Hne : sub <> "") by now apply proper_not_empty.
    unfold join, joinl. simpl. apply is_empty_false in Hne as ->. simpl.
    rewrite resolve_normalize. unfold resolve.
    rewrite proper_relative by assumption. simpl isAbsolute. cbv iota.
    rewrite (split_no_slash sub) by assumption.
    rewrite !normalizeStack_app. simpl.
    rewrite (step_skip _ _ "") by auto. rewrite step_proper by auto. reflexivity.
  - rewrite resolve_join by discriminate.
    rewrite split_no_slash by assumption. simpl.
    rewrite step_proper by assumption. simpl.
    now rewrite rev_involutive.
Qed.

(** Without [..] among its segments, [b] only leads downwards. *)
Lemma resolve_join_below cwd a b :
  a <> "" -> Forall (λ x, x <> "..") (split b) ->
  resolve cwd (join a b) = resolve cwd a ++ List.filter is_proper (split b).
Proof.
  intros Ha Hb. rewrite resolve_join by assumption.
  rewrite normalizeStack_push by assumption.
  now rewrite rev_app_distr, !rev_involutive.
Qed.

End PathFacts.

(* ------------------------------------------------------------------ *)
(** * Facts about the file system calls *)

Module FsFacts.
Import Fs.

Lemma extends_refl t : extends t t.
Proof. now intros k n H. Qed.

Lemma extends_trans t1 t2 t3 : extends t1 t2 -> extends t2 t3 -> extends t1 t3.
Proof. intros H12 H23 k n H. now apply H23, H12. Qed.

Lemma stat_lookup (t : tree) k : k <> [] -> stat t k = t !! k.
Proof. now destruct k. Qed.

Lemma extends_stat t t' k n : extends t t' -> stat t k = Some n -> stat t' k = Some n.
Proof. intros H. destruct k; [auto|]. apply H. Qed.

Section WithMount.
Variable m : mount.

Lemma mkdirs_extends todo : forall above t t',
  mkdirs above todo t = Ok t' -> extends t t'.
Proof.
  induction todo as [|name todo IH]; intros above t t' H; simpl in H.
  - injection H as <-. apply extends_refl.
  - destruct (t !! (above ++ [name])) as [[|data]|] eqn:Hk.
    + eapply IH, H.
    + discriminate.
    + eapply extends_trans; [|eapply IH, H].
      intros k n Hn. rewrite lookup_insert_ne; [assumption|congruence].
Qed.

Lemma mkdirs_creates todo : forall above t t',
  todo <> [] -> mkdirs above todo t = Ok t' ->
  t' !! (above ++ todo) = Some Dir.
Proof.
  induction todo as [|name todo IH]; intros above t t' Hne H; [congruence|].
  simpl in H.
  destruct todo as [|name' todo].
  - destruct (t !! (above ++ [name])) as [[|data]|] eqn:Hk; simpl in H.
    + now injection H as <-.
    + discriminate.
    + injection H as <-. apply lookup_insert_eq.
  - replace (above ++ name :: name' :: todo)
      with ((above ++ [name]) ++ name' :: todo) by now rewrite <- app_assoc.
    destruct (t !! (above ++ [name])) as [[|data]|] eqn:Hk.
    + eapply IH, H. discriminate.
    + discriminate.
    + eapply IH, H. discriminate.
Qed.

Lemma mkdirSync_extends t p t' : mkdirSync m t p = Ok t' -> extends t t'.
Proof. apply mkdirs_extends. Qed.

Lemma mkdirSync_exists t p t' : mkdirSync m t p = Ok t' -> stat t' (key m p) = Some Dir.
Proof.
  unfold mkdirSync. intros H. destruct (key m p) as [|name todo] eqn:Hk.
  - reflexivity.
  - rewrite stat_lookup by discriminate.
    apply (mkdirs_creates (name :: todo) [] t t'); [discriminate|assumption].
Qed.

(** What [rmSync] leaves: the entries not at or below the path. *)
Lemma rmSync_lookup t p t' q :
  rmSync m t p = Ok t' ->
  t' !! q = (if decide (key m p `prefix_of` q) then None else t !! q).
Proof.
  unfold rmSync. destruct (blocked m t (key m p)); [discriminate|].
  intros [= <-]. destruct (decide (key m p `prefix_of` q)) as [Hp|Hp].
  - apply map_lookup_filter_None. right. intros n _ Hn. now apply Hn.
  - destruct (t !! q) as [n|] eqn:Hq.
    + apply map_lookup_filter_Some. split; [assumption|exact Hp].
    + apply map_lookup_filter_None. now left.
Qed.

Lemma rmSync_free t p t' : rmSync m t p = Ok t' -> blocked m t (key m p) = false.
Proof. unfold rmSync. now destruct (blocked m t (key m p)). Qed.

Lemma blocked_true t k :
  blocked m t k = true <->
  exists q, q ∈ pinned m /\ k `prefix_of` q /\ is_Some (t !! q).
Proof.
  unfold blocked. rewrite bool_decide_eq_true. unfold set_Exists.
  split; intros (q & H1 & H2); exists q; tauto.
Qed.

Lemma unlink_ok t p t' :
  unlink m t p = Ok t' ->
  t' = delete (key m p) t /\ is_file (stat t (key m p)) = true.
Proof.
  unfold unlink. destruct (stat t (key m p)) as [[|data]|]; try discriminate.
  destruct (bool_decide (key m p ∈ pinned m)); [discriminate|].
  now intros [= <-].
Qed.

Lemma writeFileSync_ok t p data t' :
  writeFileSync m t p data = Ok t' ->
  t' = <[key m p := File data]> t /\ is_dir (stat t (key m p)) = false.
Proof.
  unfold writeFileSync.
  destruct (stat t (key m p)) as [[|old]|];
    try discriminate;
    destruct (stat t (removelast (key m p))) as [[|?]|];
    try discriminate; now intros [= <-].
Qed.

End WithMount.

End FsFacts.

(* ------------------------------------------------------------------ *)
(** * Properties of the bridge *)

Import Bridge.
Local Open Scope bridge_scope.

(** ** The definitions at work *)

Example join_plain :
  Path.join "/home/u/.minecraft" "mods" = "/home/u/.minecraft/mods".
Proof. reflexivity. Qed.

Example join_climbs :
  Path.join "/home/u/.minecraft/mods" "../../x" = "/home/u/x".
Proof. reflexivity. Qed.

Example join_relative : Path.join "a/../.." "b/" = "../b/".
Proof. reflexivity. Qed.

Example join_keeps_absolute_inside : Path.join "/srv/mods" "/etc/passwd" = "/srv/mods/etc/passwd".
Proof. reflexivity. Qed.

Example dirname_file : Path.dirname "/home/u/x.jar" = "/home/u".
Proof. reflexivity. Qed.

Example dirname_top : Path.dirname "/x" = "/".
Proof. reflexivity. Qed.

Example dirname_trailing : Path.dirname "/a/b/" = "/a".
Proof. reflexivity. Qed.

Example resolve_from_cwd : Path.resolve "/srv/app" "../x/./y" = ["srv"; "x"; "y"].
Proof. reflexivity. Qed.

Example instances_found :
  (detectInstances Scenario.linux (Scenario.fresh Scenario.installed)).1
  = Ret [ {| id := "default"; name := ".minecraft (Default)";
             path := "/home/u/.minecraft"; versionFolder := None |};
          {| id := "ver_My_Pack_v2_"; name := "My Pack (v2) (Version Folder)";
             path := "/home/u/.minecraft/versions/My Pack (v2)";
             versionFolder := Some "My Pack (v2)" |} ].
Proof. vm_compute. reflexivity. Qed.

(** The scenario of the specification: a full install of [a.jar] and
    [b.zip] into a root that holds [mods/old.jar]. *)
Example full_install :
  let body := Scenario.request "full"
                [Scenario.item "mod" "http://x/a.jar" "a.jar";
                 Scenario.item "resourcepack" "http://x/b.zip" "b.zip"] in
  let after := install_files Scenario.linux body (Scenario.fresh Scenario.installed) in
  after.1 = Ret (Success false) /\
  files after.2 !! (Scenario.mc ++ ["mods"; "old.jar"]) = None /\
  files after.2 !! (Scenario.mc ++ ["mods"; "a.jar"]) = Some (File (Text "JAR")) /\
  files after.2 !! (Scenario.mc ++ ["resourcepacks"; "b.zip"]) = Some (File (Text "ZIP")) /\
  requests after.2 = ["http://x/a.jar"; "http://x/b.zip"].
Proof. vm_compute. repeat split; reflexivity. Qed.

(** A batch stops at the first fetch that fails; what was placed before
    stays. *)
Example batch_aborts :
  let body := Scenario.request "patch"
                [Scenario.item "mod" "http://x/a.jar" "a.jar";
                 Scenario.item "mod" "http://down/a.jar" "b.jar";
                 Scenario.item "mod" "http://x/b.zip" "c.jar"] in
  let after := install_files Scenario.linux body (Scenario.fresh Scenario.installed) in
  after.1 = Ret (ServerError (RequestError "ECONNREFUSED")) /\
  files after.2 !! (Scenario.mc ++ ["mods"; "a.jar"]) = Some (File (Text "JAR")) /\
  files after.2 !! (Scenario.mc ++ ["mods"; "b.jar"]) = None /\
  files after.2 !! (Scenario.mc ++ ["mods"; "c.jar"]) = None.
Proof. vm_compute. repeat split; reflexivity. Qed.

(** A destination that is a directory cannot be opened: the stream's
    ['error'] has no listener. *)
Example destination_is_a_directory :
  (downloadFile Scenario.linux (VStr "http://x/a.jar") "/home/u/.minecraft/mods"
     (Scenario.fresh Scenario.installed)).1
  = Crash (SystemError "EISDIR").
Proof. vm_compute. reflexivity. Qed.

(** A url that [client.get] refuses makes the executor throw after the
    stream was made: the promise is rejected, and the file, opened and
    empty, stays. *)
Example refused_url_leaves_the_file :
  let after := downloadFile Scenario.linux (VStr "not a url")
                 "/home/u/.minecraft/mods/a.jar" (Scenario.fresh Scenario.installed) in
  after.1 = Throw InvalidUrl /\
  files after.2 !! (Scenario.mc ++ ["mods"; "a.jar"]) = Some (File (Text "")) /\
  requests after.2 = [].
Proof. vm_compute. repeat split; reflexivity. Qed.

(** A [fileName] that is not a string stops the batch in [path.join],
    before anything is fetched. *)
Example fileName_not_a_string :
  let body := Scenario.request "patch"
                [VObj [("url", VStr "http://x/a.jar"); ("fileName", VNum 7)]] in
  install_files Scenario.linux body (Scenario.fresh Scenario.installed)
  = (Ret (ServerError TypeError), Scenario.fresh Scenario.installed).
Proof. vm_compute. reflexivity. Qed.

(** On a platform [getMinecraftPath] does not know there is no instance,
    and an install without [gameDir] stops at the resolution. *)
Example unsupported_platform :
  (detectInstances Scenario.freebsd (Scenario.fresh Scenario.home_only)).1 = Ret [] /\
  install_files Scenario.freebsd
    (Scenario.request "patch" [Scenario.item "mod" "http://x/a.jar" "a.jar"])
    (Scenario.fresh Scenario.home_only)
  = (Ret (ServerError UnsupportedOS), Scenario.fresh Scenario.home_only).
Proof. vm_compute. split; reflexivity. Qed.

(** ** The first element of a list with a property *)

Lemma find_first_such {A} (f : A -> bool) (P : A -> Prop) l x :
  (forall y, f y = true <-> P y) ->
  first_such P l x -> List.find f l = Some x.
Proof.
  intros Hf (before & after & -> & Hx & Hb).
  induction Hb as [|y before Hy Hb IH]; simpl.
  - apply Hf in Hx. now rewrite Hx.
  - destruct (f y) eqn:Hfy; [apply Hf in Hfy; contradiction|assumption].
Qed.

Lemma find_none_such {A} (f : A -> bool) (P : A -> Prop) l :
  (forall y, f y = true <-> P y) ->
  Forall (λ y, ~ P y) l -> List.find f l = None.
Proof.
  intros Hf H. induction H as [|y l Hy Hl IH]; simpl; [reflexivity|].
  destruct (f y) eqn:Hfy; [apply Hf in Hfy; contradiction|assumption].
Qed.

Lemma is_str_spec (v : value) (s : string) : JS.is_str v s = true <-> v = VStr s.
Proof.
  destruct v; simpl; try (split; [discriminate|congruence]).
  rewrite PathFacts.eqb_eq. split; congruence.
Qed.

(** ** Validation *)

(** C5.  A request whose [items] is an empty list, or is not a list at
    all, is answered with the client error, and nothing else happens: the
    tree is as it was (no directory made, nothing reset) and no url has
    been requested. *)
Theorem install_files_rejects_without_items (h : host) (body : value) (s : state) :
  JS.get (bodyOf body) "items" = VArr [] \/
  (forall l, JS.get (bodyOf body) "items" <> VArr l) ->
  install_files h body s = (Ret BadRequest, s).
Proof.
  intros H. unfold install_files.
  assert (noItems (JS.get (bodyOf body) "items") = true) as ->; [|reflexivity].
  destruct H as [-> | H]; [reflexivity|].
  destruct (JS.get (bodyOf body) "items") as [| | | | |l|]; try reflexivity.
  now destruct (H l).
Qed.

Lemma install_files_rejects_without_items_witness :
  install_files Scenario.linux (Scenario.request "full" []) (Scenario.fresh Scenario.installed)
  = (Ret BadRequest, Scenario.fresh Scenario.installed).
Proof.
  apply install_files_rejects_without_items. left. reflexivity.
Defined.

(** ** Root resolution *)

Lemma reads_run {A} (f : Fs.tree -> A) s : reads f s = (Ret (f (files s)), s).
Proof. reflexivity. Qed.

Lemma existsSync_run h p s :
  existsSync h p s = (Ret (Fs.existsSync (disk h) (files s) p), s).
Proof. reflexivity. Qed.

Lemma writes_run (f : Fs.tree -> result Fs.tree) s :
  writes f s = match f (files s) with
               | Ok t => (Ret tt, {| files := t; requests := requests s |})
               | Err e => (Throw e, s)
               end.
Proof. reflexivity. Qed.

Lemma detectInstances_reads h s : (detectInstances h s).2 = s.
Proof.
  unfold detectInstances. destruct (getMinecraftPath h); [|reflexivity].
  unfold bind, existsSync, readdirSync, tries. rewrite reads_run.
  destruct (Fs.existsSync _ _ _); [|reflexivity].
  now destruct (Fs.readdirSync _ _ _).
Qed.

(** The list of instances is empty only on a platform that
    [getMinecraftPath] does not know. *)
Lemma detectInstances_empty h s :
  (detectInstances h s).1 = Ret [] -> getMinecraftPath h = Err UnsupportedOS.
Proof.
  unfold detectInstances, getMinecraftPath.
  destruct (Str.eqb (platform h) "win32"); [|destruct (Str.eqb (platform h) "darwin");
    [|destruct (Str.eqb (platform h) "linux"); [|reflexivity]]];
    (unfold bind; rewrite existsSync_run;
     destruct (Fs.existsSync _ _ _); [|discriminate];
     unfold readdirSync, tries; destruct (Fs.readdirSync _ _ _); discriminate).
Qed.

(** C6.  The root the handler works on: [gameDir] as given when it is
    there; otherwise the path of the first instance whose id is
    [instanceId]; without such an instance, of the first one whose id is
    ["default"]; without that either, of the first instance; and with no
    instance at all, what [getMinecraftPath] gives, which is not looked up
    on disk. *)
Theorem root_precedence (h : host) (gameDir instanceId : value) (s : state) :
  (JS.truthy gameDir = true ->
   resolveRoot h gameDir instanceId s = (Ret gameDir, s)) /\
  (JS.truthy gameDir = false ->
   forall instances, detectInstances h s = (Ret instances, s) ->
   resolveRoot h gameDir instanceId s =
     (match rootFrom h instanceId instances with
      | Ok p => Ret (VStr p)
      | Err e => Throw e
      end, s)) /\
  (forall instances : list Instance,
     let named i := instanceId = VStr (id i) in
     let default i := id i = "default" in
     (forall i, first_such named instances i ->
        rootFrom h instanceId instances = Ok (path i)) /\
     (forall i, Forall (λ j, ~ named j) instances ->
        first_such default instances i ->
        rootFrom h instanceId instances = Ok (path i)) /\
     (forall i rest, Forall (λ j, ~ named j /\ ~ default j) instances ->
        instances = i :: rest ->
        rootFrom h instanceId instances = Ok (path i)) /\
     (instances = [] ->
        rootFrom h instanceId instances = getMinecraftPath h)).
Proof.
  split; [|split].
  - intros Hg. unfold resolveRoot. now rewrite Hg.
  - intros Hg instances Hd. unfold resolveRoot, bind. rewrite Hg, Hd.
    now destruct (rootFrom h instanceId instances).
  - intros instances named default.
    assert (Hnamed : forall i, JS.is_str instanceId (id i) = true <-> named i)
      by (intros i; apply is_str_spec).
    assert (Hdefault : forall i, Str.eqb (id i) "default" = true <-> default i)
      by (intros i; apply PathFacts.eqb_eq).
    unfold rootFrom, pickTarget. repeat split.
    + intros i Hi. now rewrite (find_first_such _ named instances i Hnamed Hi).
    + intros i Hn Hi.
      rewrite (find_none_such _ named instances Hnamed Hn).
      now rewrite (find_first_such _ default instances i Hdefault Hi).
    + intros i rest Hnone ->.
      rewrite (find_none_such _ named _ Hnamed),
              (find_none_such _ default _ Hdefault).
      * reflexivity.
      * eapply Forall_impl; [exact Hnone|]. now intros j [_ Hj].
      * eapply Forall_impl; [exact Hnone|]. now intros j [Hj _].
    + now intros ->.
Qed.

Lemma root_precedence_witness :
  resolveRoot Scenario.linux (VStr "/opt/game") (VStr "ver_b") (Scenario.fresh Scenario.installed)
    = (Ret (VStr "/opt/game"), Scenario.fresh Scenario.installed) /\
  rootFrom Scenario.linux (VStr "ver_b") Scenario.three_instances = Ok "/b" /\
  rootFrom Scenario.linux (VStr "/opt/game") Scenario.three_instances = Ok "/d" /\
  rootFrom Scenario.linux (VStr "ver_b") [] = Ok "/home/u/.minecraft".
Proof.
  destruct (root_precedence Scenario.linux (VStr "/opt/game") (VStr "ver_b")
              (Scenario.fresh Scenario.installed)) as (H1 & _ & _).
  destruct (root_precedence Scenario.linux (VStr "ver_b") (VStr "ver_b")
              (Scenario.fresh Scenario.installed)) as (_ & _ & H3).
  destruct (root_precedence Scenario.linux (VStr "/opt/game") (VStr "/opt/game")
              (Scenario.fresh Scenario.installed)) as (_ & _ & H4).
  destruct (H3 Scenario.three_instances) as (Hnamed & _).
  destruct (H4 Scenario.three_instances) as (_ & Hdefault & _).
  destruct (H3 []) as (_ & _ & _ & Hnone).
  split; [apply H1; reflexivity|].
  split.
  { apply (Hnamed Scenario.inst_b).
    exists [Scenario.inst_a; Scenario.inst_default], [].
    split; [reflexivity|]. split; [reflexivity|].
    repeat constructor; discriminate. }
  split.
  { apply (Hdefault Scenario.inst_default).
    - repeat constructor; discriminate.
    - exists [Scenario.inst_a], [Scenario.inst_b].
      split; [reflexivity|]. split; [reflexivity|].
      repeat constructor; discriminate. }
  apply Hnone. reflexivity.
Defined.

(** ** Instance identifiers *)

Lemma append_empty_r s : s +:+ "" = s.
Proof.
  induction s as [|c s IH]; [reflexivity|].
  change (String c s +:+ "") with (String c (s +:+ "")). now rewrite IH.
Qed.

Lemma replace_runs_word_false w rest :
  word_only w = true ->
  replace_runs false (w +:+ rest) = w +:+ replace_runs false rest.
Proof.
  induction w as [|c w IH]; intros Hw; [reflexivity|].
  apply andb_true_iff in Hw as [Hc Hw].
  change (String c w +:+ ?x) with (String c (w +:+ x)). simpl.
  rewrite Hc. f_equal. now apply IH.
Qed.

Lemma replace_runs_inside run rest :
  outside_only run = true -> not_in_run rest = true ->
  replace_runs true (run +:+ rest) = replace_runs false rest.
Proof.
  intros Hrun Hrest. induction run as [|c run IH]; simpl in *.
  - destruct rest as [|c rest]; [reflexivity|].
    simpl in *. now rewrite Hrest.
  - apply andb_true_iff in Hrun as [Hc Hrun].
    apply negb_true_iff in Hc. rewrite Hc. now apply IH.
Qed.

(** C7, as the code has it.  The identifier is ["ver_"] followed by the
    folder name in which every maximal run of characters outside
    [[A-Za-z0-9_-]] has become one underscore, whatever the length of the
    run, and every other character is kept: a name made of characters of
    the class only is left as it is, and a stretch of such characters, a
    run, and a rest that does not continue the run come out as the
    stretch, one underscore, and the rest treated the same way. *)
Theorem safeId_replaces_runs :
  (forall folderName, safeId folderName = "ver_" +:+ sanitize folderName) /\
  (forall w, word_only w = true -> sanitize w = w) /\
  (forall w run rest,
     word_only w = true -> run <> "" -> outside_only run = true ->
     not_in_run rest = true ->
     sanitize (w +:+ run +:+ rest) = w +:+ "_" +:+ sanitize rest).
Proof.
  split; [reflexivity|]. split.
  - intros w Hw. unfold sanitize.
    rewrite <- (append_empty_r w) at 1.
    rewrite replace_runs_word_false by assumption. simpl.
    apply append_empty_r.
  - intros w run rest Hw Hne Hrun Hrest. unfold sanitize.
    rewrite replace_runs_word_false by assumption. f_equal.
    destruct run as [|c run]; [congruence|]. simpl in *.
    apply andb_true_iff in Hrun as [Hc Hrun].
    apply negb_true_iff in Hc. rewrite Hc. f_equal.
    now apply replace_runs_inside.
Qed.

Lemma safeId_replaces_runs_witness :
  safeId "1.20-forge" = "ver_" +:+ sanitize "1.20-forge" /\
  sanitize "forge-47" = "forge-47" /\
  sanitize ("My" +:+ " (" +:+ "v2)") = "My" +:+ "_" +:+ sanitize "v2)".
Proof.
  destruct safeId_replaces_runs as (H1 & H2 & H3).
  split; [apply H1|]. split; [apply H2; reflexivity|].
  apply H3; [reflexivity|discriminate|reflexivity|reflexivity].
Defined.

(** C7 as claimed fails: two characters in a row outside the class give
    one underscore, not two. *)
Lemma safeId_not_per_character :
  safeId "My Pack (v2)" = "ver_My_Pack_v2_" /\
  Claimed.safeId "My Pack (v2)" = "ver_My_Pack__v2_" /\
  safeId "My Pack (v2)" <> Claimed.safeId "My Pack (v2)".
Proof. repeat split. discriminate. Qed.

(** ** The device token *)

Lemma is_empty_app a b : Str.is_empty (a +:+ b) = Str.is_empty a && Str.is_empty b.
Proof. now destruct a. Qed.

Lemma randomUUID_truthy bits : JS.truthy (VStr (randomUUID bits)) = true.
Proof.
  unfold JS.truthy, randomUUID. rewrite is_empty_app.
  change ("-" +:+ ?x) with (String "-" x). cbn [Str.is_empty].
  now rewrite andb_false_r.
Qed.

(** [getConfigPath] either throws out of [mkdirSync], or returns the path
    of the token file with its directory in place. *)
Lemma getConfigPath_ok h s cp s1 :
  getConfigPath h s = (Ret cp, s1) ->
  cp = Path.join (configDir h) "device_token.json" /\
  requests s1 = requests s /\
  extends (files s) (files s1) /\
  Fs.existsSync (disk h) (files s1) (configDir h) = true.
Proof.
  unfold getConfigPath, bind. rewrite existsSync_run.
  destruct (Fs.existsSync (disk h) (files s) (configDir h)) eqn:He.
  - intros [= <- <-]. repeat split; auto using FsFacts.extends_refl.
  - unfold mkdirSync. rewrite writes_run.
    destruct (Fs.mkdirSync (disk h) (files s) (configDir h)) as [t|e] eqn:Hm;
      [|discriminate].
    intros [= <- <-]. repeat split.
    + eapply FsFacts.mkdirSync_extends, Hm.
    + unfold Fs.existsSync. simpl.
      now rewrite (FsFacts.mkdirSync_exists _ _ _ _ Hm).
Qed.

Lemma getConfigPath_again h s cp :
  cp = Path.join (configDir h) "device_token.json" ->
  Fs.existsSync (disk h) (files s) (configDir h) = true ->
  getConfigPath h s = (Ret cp, s).
Proof.
  intros -> He. unfold getConfigPath, bind. now rewrite existsSync_run, He.
Qed.

(** The first [try] block never throws and never writes. *)
Lemma storedToken_total h cp s : exists o, storedToken h cp s = (Ret o, s).
Proof.
  unfold storedToken, try_catch, bind. rewrite existsSync_run.
  destruct (Fs.existsSync (disk h) (files s) cp); [|now eexists].
  unfold readFileSync, tries.
  destruct (Fs.readFileSync (disk h) (files s) cp) as [[txt|v]|e];
    try (now eexists).
  unfold JSON_parse, ret, get_prop.
  destruct (JS.prop v "token") as [tok|]; now eexists.
Qed.

Lemma storedToken_found h cp s fields :
  Fs.readFileSync (disk h) (files s) cp = Ok (Json (VObj fields)) ->
  JS.truthy (JS.field "token" fields) = true ->
  storedToken h cp s = (Ret (Some (JS.field "token" fields)), s).
Proof.
  intros Hr Ht. unfold storedToken, try_catch, bind. rewrite existsSync_run.
  assert (Fs.existsSync (disk h) (files s) cp = true) as ->.
  { unfold Fs.existsSync. unfold Fs.readFileSync in Hr.
    now destruct (Fs.stat (files s) (Fs.key (disk h) cp)) as [[|d]|]. }
  unfold readFileSync, tries. rewrite Hr. simpl. unfold ret. now rewrite Ht.
Qed.

Lemma written_then_read h t cp data t' :
  Fs.writeFileSync (disk h) t cp data = Ok t' ->
  Fs.readFileSync (disk h) t' cp = Ok data.
Proof.
  intros Hw. apply FsFacts.writeFileSync_ok in Hw as [-> Hnd].
  unfold Fs.readFileSync.
  destruct (Fs.key (disk h) cp) as [|x k] eqn:Hk; [discriminate|].
  rewrite FsFacts.stat_lookup by discriminate. now rewrite lookup_insert_eq.
Qed.

Lemma written_keeps_existing h t cp data t' p :
  Fs.writeFileSync (disk h) t cp data = Ok t' ->
  Fs.existsSync (disk h) t p = true -> Fs.existsSync (disk h) t' p = true.
Proof.
  intros Hw. apply FsFacts.writeFileSync_ok in Hw as [-> _].
  unfold Fs.existsSync.
  destruct (Fs.key (disk h) p) as [|x k] eqn:Hk; [reflexivity|].
  rewrite !FsFacts.stat_lookup by discriminate.
  destruct (decide (Fs.key (disk h) cp = x :: k)) as [->|Hne].
  - now rewrite lookup_insert_eq.
  - now rewrite lookup_insert_ne.
Qed.

(** C8.  A run that finds no usable stored token and whose write of the
    new record succeeds returns the new token; every later run that starts
    from the tree this run left, whatever it would draw itself, returns
    that same token and writes nothing.  More generally, a token file that
    can be read and holds an object with a truthy [token] has that token
    returned. *)
Theorem device_token_round_trip (h : host) (bits : N) (now : string)
    (s : state) (cp : string) (s1 : state) (t2 : Fs.tree) :
  getConfigPath h s = (Ret cp, s1) ->
  storedToken h cp s1 = (Ret None, s1) ->
  Fs.writeFileSync (disk h) (files s1) cp (tokenRecord (randomUUID bits) now) = Ok t2 ->
  getOrCreateDeviceToken h bits now s
    = (Ret (VStr (randomUUID bits)), {| files := t2; requests := requests s1 |}) /\
  (forall bits' now' reqs,
     getOrCreateDeviceToken h bits' now' {| files := t2; requests := reqs |}
     = (Ret (VStr (randomUUID bits)), {| files := t2; requests := reqs |})) /\
  (forall s' fields bits' now',
     Fs.existsSync (disk h) (files s') (configDir h) = true ->
     Fs.readFileSync (disk h) (files s') cp = Ok (Json (VObj fields)) ->
     JS.truthy (JS.field "token" fields) = true ->
     getOrCreateDeviceToken h bits' now' s' = (Ret (JS.field "token" fields), s')).
Proof.
  intros Hcp Hst Hw.
  destruct (getConfigPath_ok _ _ _ _ Hcp) as (Hcp_eq & _ & _ & Hdir).
  assert (Hlater : forall s' fields bits' now',
     Fs.existsSync (disk h) (files s') (configDir h) = true ->
     Fs.readFileSync (disk h) (files s') cp = Ok (Json (VObj fields)) ->
     JS.truthy (JS.field "token" fields) = true ->
     getOrCreateDeviceToken h bits' now' s' = (Ret (JS.field "token" fields), s')).
  { intros s' fields bits' now' He Hr Ht.
    unfold getOrCreateDeviceToken, bind.
    rewrite (getConfigPath_again h s' cp Hcp_eq He).
    now rewrite (storedToken_found h cp s' fields Hr Ht). }
  split; [|split].
  - unfold getOrCreateDeviceToken, bind. rewrite Hcp, Hst.
    unfold try_catch, writeFileSync. rewrite writes_run, Hw. reflexivity.
  - intros bits' now' reqs.
    apply (Hlater {| files := t2; requests := reqs |}
             [("token", VStr (randomUUID bits)); ("created_at", VStr now)]).
    + simpl. eapply written_keeps_existing; eassumption.
    + simpl. eapply written_then_read. exact Hw.
    + apply randomUUID_truthy.
  - exact Hlater.
Qed.

Lemma device_token_round_trip_witness :
  getOrCreateDeviceToken Scenario.linux 5 "2026-01-01T00:00:00.000Z"
    (Scenario.fresh Scenario.home_only)
  = (Ret (VStr (randomUUID 5)), Scenario.after_first_run 5 "2026-01-01T00:00:00.000Z") /\
  getOrCreateDeviceToken Scenario.linux 77 "2026-02-02T00:00:00.000Z"
    (Scenario.after_first_run 5 "2026-01-01T00:00:00.000Z")
  = (Ret (VStr (randomUUID 5)), Scenario.after_first_run 5 "2026-01-01T00:00:00.000Z").
Proof.
  destruct (device_token_round_trip Scenario.linux 5 "2026-01-01T00:00:00.000Z"
              (Scenario.fresh Scenario.home_only) Scenario.token_path
              (getConfigPath Scenario.linux (Scenario.fresh Scenario.home_only)).2
              (files (Scenario.after_first_run 5 "2026-01-01T00:00:00.000Z")))
    as (H1 & H2 & _).
  - vm_compute. reflexivity.
  - vm_compute. reflexivity.
  - vm_compute. reflexivity.
  - split.
    + rewrite H1. vm_compute. reflexivity.
    + apply (H2 77%N "2026-02-02T00:00:00.000Z" []).
Defined.

(** C10, as the code has it.  Once [getConfigPath] has returned,
    [getOrCreateDeviceToken] returns a token and throws nothing: what goes
    wrong while the stored token is read or the new one written is
    swallowed.  In particular, when nothing usable is stored and the write
    of the new record fails, the new token is still returned, and the tree
    is as [getConfigPath] left it. *)
Theorem device_token_after_config_path (h : host) (bits : N) (now : string)
    (s : state) (cp : string) (s1 : state) :
  getConfigPath h s = (Ret cp, s1) ->
  (exists tok s2,
     getOrCreateDeviceToken h bits now s = (Ret tok, s2) /\ JS.truthy tok = true) /\
  (forall e,
     storedToken h cp s1 = (Ret None, s1) ->
     Fs.writeFileSync (disk h) (files s1) cp (tokenRecord (randomUUID bits) now) = Err e ->
     getOrCreateDeviceToken h bits now s = (Ret (VStr (randomUUID bits)), s1)).
Proof.
  intros Hcp. split.
  - unfold getOrCreateDeviceToken, bind. rewrite Hcp.
    destruct (storedToken_total h cp s1) as [o Ho]. rewrite Ho.
    destruct o as [tok|].
    + exists tok, s1. split; [reflexivity|].
      (* the block returns a token only after testing it *)
      revert Ho. unfold storedToken, try_catch, bind. rewrite existsSync_run.
      destruct (Fs.existsSync (disk h) (files s1) cp); [|discriminate].
      unfold readFileSync, tries.
      destruct (Fs.readFileSync (disk h) (files s1) cp) as [[txt|v]|e];
        try discriminate.
      unfold JSON_parse, ret, get_prop.
      destruct (JS.prop v "token") as [tok'|]; [|discriminate].
      simpl. destruct (JS.truthy tok') eqn:Ht; [|discriminate].
      now intros [= <-].
    + unfold try_catch, writeFileSync. rewrite writes_run.
      destruct (Fs.writeFileSync _ _ _ _);
        eexists _, _; (split; [reflexivity|apply randomUUID_truthy]).
  - intros e Hst Hw. unfold getOrCreateDeviceToken, bind. rewrite Hcp, Hst.
    unfold try_catch, writeFileSync. rewrite writes_run, Hw. reflexivity.
Qed.

Lemma device_token_after_config_path_witness :
  getOrCreateDeviceToken Scenario.linux 5 "2026-01-01T00:00:00.000Z"
    (Scenario.fresh Scenario.token_is_dir)
  = (Ret (VStr (randomUUID 5)), Scenario.fresh Scenario.token_is_dir).
Proof.
  destruct (device_token_after_config_path Scenario.linux 5 "2026-01-01T00:00:00.000Z"
              (Scenario.fresh Scenario.token_is_dir) Scenario.token_path
              (Scenario.fresh Scenario.token_is_dir)) as (_ & H).
  - vm_compute. reflexivity.
  - apply (H (SystemError "EISDIR")); vm_compute; reflexivity.
Defined.

(** C10 as claimed fails: [getConfigPath] runs outside the [try] blocks,
    and what [fs.mkdirSync] throws there leaves
    [getOrCreateDeviceToken].  Here [.config] is a file. *)
Lemma device_token_can_throw :
  getOrCreateDeviceToken Scenario.linux 5 "2026-01-01T00:00:00.000Z"
    (Scenario.fresh Scenario.config_is_file)
  = (Throw (SystemError "ENOTDIR"), Scenario.fresh Scenario.config_is_file).
Proof. vm_compute. reflexivity. Qed.

(** ** Destinations *)

(** C1, as the code has it, on a host whose [path] is the POSIX one (any
    platform but [win32], where [\] separates as well).  The handler
    neither cleans nor refuses a [fileName] with separators in it: the
    destination is [path.join(path.join(rootDir, subFolder), fileName)]
    with the name as it came.  When no segment of the name is [..], the
    destination is the subdirectory's path followed by the segments of the
    name that are names (not empty, not [.]): the subdirectory's own path
    when there is none ([.], [./], [/]), strictly below the subdirectory
    otherwise.  For a plain name it is the entry of that name in the
    subdirectory. *)
Theorem destPath_takes_fileName_as_given (h : host) (rootDir : string)
    (item : value) (dest : string) :
  platform h <> "win32" ->
  destPath rootDir item = Ok dest ->
  exists fileName,
    let folderPath :=
      Path.join rootDir (subFolder (JS.or_else (JS.get item "type") (VStr "mod"))) in
    let names := List.filter is_proper (Path.split fileName) in
    JS.get item "fileName" = VStr fileName /\
    dest = Path.join folderPath fileName /\
    (Forall (λ seg, seg <> "..") (Path.split fileName) ->
     Fs.key (disk h) dest = Fs.key (disk h) folderPath ++ names /\
     (names = [] -> Fs.key (disk h) dest = Fs.key (disk h) folderPath) /\
     (names <> [] -> below (disk h) folderPath dest)) /\
    (is_proper fileName = true -> no_slash fileName = true ->
     Fs.key (disk h) dest = Fs.key (disk h) folderPath ++ [fileName]).
Proof.
  intros _. unfold destPath.
  destruct (JS.get item "fileName") as [| | | |fileName| |]; try discriminate.
  intros [= <-]. exists fileName. cbv zeta.
  split; [reflexivity|]. split; [reflexivity|]. split.
  - intros Hseg. set (folderPath := Path.join rootDir _).
    assert (Hkey : Fs.key (disk h) (Path.join folderPath fileName)
                   = Fs.key (disk h) folderPath
                     ++ List.filter is_proper (Path.split fileName)).
    { unfold Fs.key. apply PathFacts.resolve_join_below; [|exact Hseg].
      apply PathFacts.join_not_empty. }
    split; [exact Hkey|]. split.
    + intros Hnone. rewrite Hkey, Hnone. apply app_nil_r.
    + intros Hsome. unfold below. rewrite Hkey.
      destruct (List.filter is_proper (Path.split fileName)) as [|name rest];
        [contradiction|]. now exists name, rest.
  - intros Hp Hs. unfold Fs.key. now apply PathFacts.resolve_join_name.
Qed.

Lemma destPath_takes_fileName_as_given_witness :
  below (disk Scenario.linux) "/home/u/.minecraft/mods"
    "/home/u/.minecraft/mods/sub/a.jar" /\
  Fs.key (disk Scenario.linux) "/home/u/.minecraft/mods/"
  = Fs.key (disk Scenario.linux) "/home/u/.minecraft/mods" /\
  Fs.key (disk Scenario.linux) "/home/u/.minecraft/config/a.cfg"
  = Fs.key (disk Scenario.linux) "/home/u/.minecraft/config" ++ ["a.cfg"].
Proof.
  assert (Hposix : platform Scenario.linux <> "win32") by discriminate.
  destruct (destPath_takes_fileName_as_given Scenario.linux
              "/home/u/.minecraft" (Scenario.item "mod" "http://x/a.jar" "sub/a.jar")
              "/home/u/.minecraft/mods/sub/a.jar" Hposix) as (f1 & H1 & _ & H1in & _);
    [reflexivity|].
  destruct (destPath_takes_fileName_as_given Scenario.linux
              "/home/u/.minecraft" (Scenario.item "mod" "http://x/a.jar" "./")
              "/home/u/.minecraft/mods/" Hposix) as (f3 & H3 & _ & H3in & _);
    [reflexivity|].
  destruct (destPath_takes_fileName_as_given Scenario.linux
              "/home/u/.minecraft" (Scenario.item "config" "http://x/a.jar" "a.cfg")
              "/home/u/.minecraft/config/a.cfg" Hposix) as (f2 & H2 & _ & _ & H2key);
    [reflexivity|].
  injection H1 as <-. injection H2 as <-. injection H3 as <-.
  split; [|split].
  - apply H1in; [repeat constructor; discriminate|]. discriminate.
  - apply H3in; [repeat constructor; discriminate|]. reflexivity.
  - apply H2key; reflexivity.
Defined.

(** C1 as claimed fails: a name that climbs with [..] is joined as it is,
    and the file lands outside the subdirectory, here next to the game
    directory. *)
Lemma fileName_can_escape :
  let climbing := Scenario.item "mod" "http://x/a.jar" "../../x.txt" in
  let outcome := install_files Scenario.linux (Scenario.request "patch" [climbing])
                   (Scenario.fresh Scenario.installed) in
  destPath "/home/u/.minecraft" climbing = Ok "/home/u/x.txt" /\
  ~ at_or_below (disk Scenario.linux) "/home/u/.minecraft/mods" "/home/u/x.txt" /\
  outcome.1 = Ret (Success false) /\
  files outcome.2 !! ["home"; "u"; "x.txt"] = Some (File (Text "JAR")).
Proof.
  cbv zeta. split; [reflexivity|]. split; [|split].
  - unfold at_or_below. intros [k Hk]. vm_compute in Hk. discriminate.
  - vm_compute. reflexivity.
  - vm_compute. reflexivity.
Qed.

(** A name without [..] need not lead into the subdirectory either: the
    name [.] is not skipped, its destination is the subdirectory's own
    path, and in mode [full], the folder having just been removed, the
    download is written as a file in the folder's place. *)
Example fileName_dot_takes_the_folder :
  let dot := Scenario.item "mod" "http://x/a.jar" "." in
  let outcome := install_files Scenario.linux (Scenario.request "full" [dot])
                   (Scenario.fresh Scenario.installed) in
  usable dot = true /\
  destPath "/home/u/.minecraft" dot = Ok "/home/u/.minecraft/mods" /\
  outcome.1 = Ret (Success false) /\
  files outcome.2 !! (Scenario.mc ++ ["mods"]) = Some (File (Text "JAR")) /\
  files outcome.2 !! (Scenario.mc ++ ["mods"; "old.jar"]) = None.
Proof. vm_compute. repeat split; reflexivity. Qed.

(** ** The reset *)

Lemma eroded_refl h s : eroded h s s.
Proof. repeat split; auto. Qed.

Lemma eroded_trans h s1 s2 s3 : eroded h s1 s2 -> eroded h s2 s3 -> eroded h s1 s3.
Proof.
  intros (R12 & L12 & P12) (R23 & L23 & P23). repeat split.
  - congruence.
  - intros q n H. now apply L12, L23.
  - intros q Hq H. now apply P23, P12.
Qed.

Lemma eroded_absent h s s' p :
  eroded h s s' -> Fs.key (disk h) p <> [] ->
  Fs.existsSync (disk h) (files s) p = false ->
  Fs.existsSync (disk h) (files s') p = false.
Proof.
  intros (_ & L & _) Hk. unfold Fs.existsSync.
  rewrite !FsFacts.stat_lookup by assumption.
  destruct (files s' !! Fs.key (disk h) p) as [n|] eqn:Hn; [|reflexivity].
  now rewrite (L _ _ Hn).
Qed.

Lemma eroded_blocked h s s' k :
  eroded h s s' ->
  Fs.blocked (disk h) (files s) k = true -> Fs.blocked (disk h) (files s') k = true.
Proof.
  intros (_ & _ & P). rewrite !FsFacts.blocked_true.
  intros (q & Hq & Hpre & Hsome). exists q. auto.
Qed.

Lemma wellKnown_plain : Forall plain wellKnown.
Proof. repeat constructor. Qed.

Lemma key_join_plain (m : mount) root name :
  plain name -> Fs.key m (Path.join root name) = Fs.key m root ++ [name].
Proof. intros [Hp Hs]. now apply PathFacts.resolve_join_name. Qed.

Lemma key_join_plain_not_root (m : mount) root name :
  plain name -> Fs.key m (Path.join root name) <> [].
Proof. intros H. rewrite key_join_plain by assumption. now destruct (Fs.key m root). Qed.

(** One round of the reset loop: it returns, the tree is eroded, what is
    outside the subdirectory stays, and the subdirectory is gone unless
    something in it could not be removed. *)
Lemma resetFolder_run h root folder s :
  plain folder ->
  exists s',
    resetFolder h root folder s = (Ret tt, s') /\
    eroded h s s' /\
    (forall q, ~ Fs.key (disk h) (Path.join root folder) `prefix_of` q ->
               files s' !! q = files s !! q) /\
    (Fs.existsSync (disk h) (files s') (Path.join root folder) = true ->
     Fs.blocked (disk h) (files s) (Fs.key (disk h) (Path.join root folder)) = true).
Proof.
  intros Hplain. unfold resetFolder, bind. rewrite existsSync_run.
  set (target := Path.join root folder).
  destruct (Fs.existsSync (disk h) (files s) target) eqn:He.
  - unfold try_catch, rmSync. rewrite writes_run.
    destruct (Fs.rmSync (disk h) (files s) target) as [t|e] eqn:Hrm.
    + eexists. split; [reflexivity|]. simpl.
      assert (Hfree := FsFacts.rmSync_free _ _ _ _ Hrm).
      repeat split; simpl.
      * intros q n. rewrite (FsFacts.rmSync_lookup _ _ _ _ q Hrm).
        now destruct (decide _).
      * intros q Hq Hsome. rewrite (FsFacts.rmSync_lookup _ _ _ _ q Hrm).
        destruct (decide _) as [Hpre|]; [|assumption].
        exfalso. assert (Fs.blocked (disk h) (files s) (Fs.key (disk h) target) = true)
          by (apply FsFacts.blocked_true; eauto).
        congruence.
      * intros q Hq. rewrite (FsFacts.rmSync_lookup _ _ _ _ q Hrm).
        now destruct (decide _).
      * unfold Fs.existsSync.
        rewrite FsFacts.stat_lookup by now apply key_join_plain_not_root.
        rewrite (FsFacts.rmSync_lookup _ _ _ _ _ Hrm).
        destruct (decide _) as [|Hn]; [discriminate|]. now destruct Hn.
    + exists s. split; [reflexivity|]. split; [apply eroded_refl|].
      split; [reflexivity|]. intros _.
      unfold Fs.rmSync in Hrm. fold target.
      now destruct (Fs.blocked (disk h) (files s) (Fs.key (disk h) target)).
  - exists s. split; [reflexivity|]. split; [apply eroded_refl|].
    split; [reflexivity|]. congruence.
Qed.

Lemma resetFolders_run h root folders : forall s,
  Forall plain folders ->
  exists s',
    forEach (resetFolder h root) folders s = (Ret tt, s') /\
    eroded h s s' /\
    (forall q, Forall (λ f, ~ Fs.key (disk h) (Path.join root f) `prefix_of` q) folders ->
               files s' !! q = files s !! q) /\
    Forall (λ f, Fs.existsSync (disk h) (files s') (Path.join root f) = true ->
                 Fs.blocked (disk h) (files s') (Fs.key (disk h) (Path.join root f)) = true)
           folders.
Proof.
  induction folders as [|f folders IH]; intros s Hall.
  - exists s. split; [reflexivity|]. split; [apply eroded_refl|].
    split; [reflexivity|constructor].
  - inversion Hall as [|? ? Hf Hrest]; subst.
    destruct (resetFolder_run h root f s Hf) as (s1 & Hrun & Her & Hout & Hgone).
    destruct (IH s1 Hrest) as (s' & Hrun' & Her' & Hout' & Hgone').
    exists s'. split; [|split; [|split]].
    + simpl. unfold bind. now rewrite Hrun.
    + eapply eroded_trans; eassumption.
    + intros q Hq. inversion Hq; subst. rewrite Hout', Hout; auto.
    + constructor; [|assumption].
      intros Hex.
      apply (eroded_blocked h s s'); [exact (eroded_trans _ _ _ _ Her Her')|].
      apply Hgone.
      destruct (Fs.existsSync (disk h) (files s1) (Path.join root f)) eqn:H1;
        [reflexivity|].
      rewrite (eroded_absent h s1 s' _ Her') in Hex;
        auto using key_join_plain_not_root.
Qed.

Lemma resolveRoot_reads h gameDir instanceId s :
  (resolveRoot h gameDir instanceId s).2 = s.
Proof.
  unfold resolveRoot. destruct (JS.truthy gameDir); [reflexivity|].
  unfold bind. pose proof (detectInstances_reads h s) as Hd.
  destruct (detectInstances h s) as [[instances|e|e] s0]; simpl in Hd; subst;
    try reflexivity.
  unfold lift. now destruct (rootFrom h instanceId instances).
Qed.

(** What it takes for [prepare] to return. *)
Lemma prepare_ok h mode gameDir instanceId s root s' :
  prepare h mode gameDir instanceId s = (Ret root, s') ->
  exists s1,
    resolveRoot h gameDir instanceId s = (Ret (VStr root), s) /\
    ensureDir h root s = (Ret tt, s1) /\
    reset h mode root s1 = (Ret tt, s').
Proof.
  unfold prepare. unfold bind at 1.
  pose proof (resolveRoot_reads h gameDir instanceId s) as Hr.
  destruct (resolveRoot h gameDir instanceId s) as [[v|e|e] s0]; simpl in Hr; subst;
    try discriminate.
  destruct v as [| | | |r| |]; try discriminate.
  unfold bind.
  destruct (ensureDir h r s) as [[[]|e|e] s1] eqn:He; try discriminate.
  destruct (reset h mode r s1) as [[[]|e|e] s2] eqn:Hreset; try discriminate.
  intros [= <- <-]. now exists s1.
Qed.

(** C2, as the code has it.  When [prepare] has returned in full mode,
    that is right after the reset and before the first item, each of
    [mods], [config] and [resourcepacks] under the root is gone, unless
    something at or below it cannot be removed: then [fs.rmSync] has
    thrown, the [catch] has swallowed it, and the subdirectory is still
    there.  On a machine where nothing is pinned all three are gone. *)
Theorem reset_clears_what_it_can (h : host) (mode gameDir instanceId : value)
    (s : state) (root : string) (s' : state) :
  prepare h mode gameDir instanceId s = (Ret root, s') ->
  JS.is_str mode "full" = true ->
  Forall (λ folder,
            (Fs.existsSync (disk h) (files s') (Path.join root folder) = true ->
             Fs.blocked (disk h) (files s')
               (Fs.key (disk h) (Path.join root folder)) = true) /\
            (pinned (disk h) = ∅ ->
             Fs.existsSync (disk h) (files s') (Path.join root folder) = false))
         wellKnown.
Proof.
  intros Hprep Hfull.
  destruct (prepare_ok _ _ _ _ _ _ _ Hprep) as (s1 & _ & _ & Hreset).
  unfold reset in Hreset. rewrite Hfull in Hreset.
  destruct (resetFolders_run h root wellKnown s1 wellKnown_plain)
    as (s2 & Hrun & _ & _ & Hgone).
  rewrite Hrun in Hreset. injection Hreset as <-.
  eapply Forall_impl; [exact Hgone|]. intros folder Hfolder. simpl in Hfolder.
  split; [exact Hfolder|].
  intros Hnone.
  destruct (Fs.existsSync (disk h) (files s2) (Path.join root folder)) eqn:Hex;
    [|reflexivity].
  specialize (Hfolder eq_refl). apply FsFacts.blocked_true in Hfolder.
  destruct Hfolder as (q & Hq & _). rewrite Hnone in Hq. set_solver.
Qed.

Lemma reset_clears_what_it_can_witness :
  Fs.existsSync (disk Scenario.linux)
    (files (prepare Scenario.linux (VStr "full") VUndef (VStr "default")
              (Scenario.fresh Scenario.installed)).2)
    (Path.join "/home/u/.minecraft" "mods") = false.
Proof.
  pose proof (reset_clears_what_it_can Scenario.linux (VStr "full") VUndef
                (VStr "default") (Scenario.fresh Scenario.installed)
                "/home/u/.minecraft"
                (prepare Scenario.linux (VStr "full") VUndef (VStr "default")
                   (Scenario.fresh Scenario.installed)).2) as H.
  assert (Hrun : prepare Scenario.linux (VStr "full") VUndef (VStr "default")
                   (Scenario.fresh Scenario.installed)
                 = (Ret "/home/u/.minecraft",
                    (prepare Scenario.linux (VStr "full") VUndef (VStr "default")
                       (Scenario.fresh Scenario.installed)).2))
    by (vm_compute; reflexivity).
  specialize (H Hrun eq_refl).
  apply Forall_inv in H. destruct H as [_ H]. apply H. reflexivity.
Defined.

(** C2 as claimed fails: while [old.jar] cannot be removed, [fs.rmSync]
    throws on [mods], the [catch] swallows it, and [mods] is still there
    after the reset. *)
Lemma reset_can_leave_a_subdirectory :
  let after := prepare Scenario.locked (VStr "full") VUndef (VStr "default")
                 (Scenario.fresh Scenario.installed) in
  after.1 = Ret "/home/u/.minecraft" /\
  Fs.existsSync (disk Scenario.locked) (files after.2) "/home/u/.minecraft/mods" = true.
Proof. vm_compute. split; reflexivity. Qed.

(** ** Items that are passed over *)

Lemma ensureDir_ok h p s s1 :
  ensureDir h p s = (Ret tt, s1) ->
  requests s1 = requests s /\
  extends (files s) (files s1) /\
  Fs.existsSync (disk h) (files s1) p = true.
Proof.
  unfold ensureDir, bind. rewrite existsSync_run.
  destruct (Fs.existsSync (disk h) (files s) p) eqn:He.
  - intros [= <-]. repeat split; auto using FsFacts.extends_refl.
  - unfold mkdirSync. rewrite writes_run.
    destruct (Fs.mkdirSync (disk h) (files s) p) as [t|e] eqn:Hm; [|discriminate].
    intros [= <-]. repeat split.
    + eapply FsFacts.mkdirSync_extends, Hm.
    + unfold Fs.existsSync. simpl.
      now rewrite (FsFacts.mkdirSync_exists _ _ _ _ Hm).
Qed.

Lemma forEach_skipped h root items s :
  Forall (λ item, usable item = false) items ->
  forEach (placeItem h root) items s = (Ret tt, s).
Proof.
  induction 1 as [|item items Hitem _ IH]; [reflexivity|].
  simpl. unfold bind, placeItem. now rewrite Hitem.
Qed.

Lemma not_prefix_of_longer (k : list string) name : ~ (k ++ [name]) `prefix_of` k.
Proof.
  intros [rest Hrest]. apply (f_equal length) in Hrest.
  rewrite !length_app in Hrest. simpl in Hrest. lia.
Qed.

(** The reset leaves the root itself alone. *)
Lemma reset_keeps_root h mode root s s' :
  reset h mode root s = (Ret tt, s') ->
  requests s' = requests s /\
  (Fs.existsSync (disk h) (files s) root = true ->
   Fs.existsSync (disk h) (files s') root = true).
Proof.
  unfold reset. destruct (JS.is_str mode "full").
  - destruct (resetFolders_run h root wellKnown s wellKnown_plain)
      as (s2 & Hrun & (Hreq & _) & Hout & _).
    rewrite Hrun. intros [= <-]. split; [assumption|].
    unfold Fs.existsSync. destruct (Fs.key (disk h) root) as [|x k] eqn:Hk;
      [reflexivity|].
    rewrite !FsFacts.stat_lookup by discriminate. rewrite Hout; [auto|].
    eapply Forall_impl; [exact wellKnown_plain|]. intros f Hf. simpl.
    rewrite key_join_plain, Hk by assumption. apply not_prefix_of_longer.
  - now intros [= <-].
Qed.

(** C9, as the code has it.  Take a request with a list of items that
    is not empty and holds no usable item.  Whenever [prepare] returns
    for it (the root resolves, [ensureDir] passes), the answer is success,
    no url has been requested, the state is the one [prepare] left:
    the root is there, and in full mode the reset has been through, each
    well-known subdirectory gone unless it could not be removed. *)
Theorem unusable_items_still_prepare (h : host) (body : value) (s : state)
    (root : string) (s1 : state) :
  let req := bodyOf body in
  noItems (JS.get req "items") = false ->
  Forall (λ item, usable item = false) (elements (JS.get req "items")) ->
  prepare h (JS.get req "mode") (JS.get req "gameDir") (JS.get req "instanceId") s
    = (Ret root, s1) ->
  install_files h body s
    = (Ret (Success (JS.truthy (JS.get req "autoTerminate"))), s1) /\
  requests s1 = requests s /\
  Fs.existsSync (disk h) (files s1) root = true /\
  (JS.is_str (JS.get req "mode") "full" = true ->
   Forall (λ folder,
             Fs.existsSync (disk h) (files s1) (Path.join root folder) = true ->
             Fs.blocked (disk h) (files s1)
               (Fs.key (disk h) (Path.join root folder)) = true)
          wellKnown).
Proof.
  intros req Hitems Hskip Hprep.
  destruct (prepare_ok _ _ _ _ _ _ _ Hprep) as (sA & _ & Hdir & Hreset).
  destruct (ensureDir_ok _ _ _ _ Hdir) as (HreqA & _ & HexA).
  destruct (reset_keeps_root _ _ _ _ _ Hreset) as (Hreq1 & Hex1).
  split; [|split; [|split]].
  - unfold install_files. fold req. rewrite Hitems.
    unfold try_catch, bind. rewrite Hprep.
    now rewrite (forEach_skipped h root _ s1 Hskip).
  - congruence.
  - auto.
  - intros Hfull. unfold reset in Hreset. rewrite Hfull in Hreset.
    destruct (resetFolders_run h root wellKnown sA wellKnown_plain)
      as (s2 & Hrun & _ & _ & Hgone).
    rewrite Hrun in Hreset. now injection Hreset as <-.
Qed.

Lemma unusable_items_still_prepare_witness :
  let body := VObj [("mode", VStr "full"); ("autoTerminate", VBool true);
                    ("items", VArr [VNull; VObj [("url", VStr "http://x/a.jar")]])] in
  let outcome := install_files Scenario.linux body (Scenario.fresh Scenario.installed) in
  outcome.1 = Ret (Success true) /\
  requests outcome.2 = [] /\
  Fs.existsSync (disk Scenario.linux) (files outcome.2) "/home/u/.minecraft" = true.
Proof.
  cbv zeta.
  destruct (unusable_items_still_prepare Scenario.linux
              (VObj [("mode", VStr "full"); ("autoTerminate", VBool true);
                     ("items", VArr [VNull; VObj [("url", VStr "http://x/a.jar")]])])
              (Scenario.fresh Scenario.installed) "/home/u/.minecraft"
              (prepare Scenario.linux (VStr "full") VUndef VUndef
                 (Scenario.fresh Scenario.installed)).2)
    as (Hrun & Hreq & Hroot & _).
  - reflexivity.
  - repeat constructor.
  - vm_compute. reflexivity.
  - rewrite Hrun. simpl. auto.
Defined.

(** C9 as claimed fails: [ensureDir(rootDir)] runs inside the [try]
    block, and when the root cannot be made, here because [gameDir] lies
    below a file, the same kind of request is answered with the error;
    nothing is created. *)
Lemma unusable_items_can_fail :
  let body := VObj [("mode", VStr "full");
                    ("gameDir", VStr "/home/u/.minecraft/mods/old.jar/game");
                    ("items", VArr [VObj []])] in
  Forall (λ item, usable item = false) (elements (JS.get (bodyOf body) "items")) /\
  install_files Scenario.linux body (Scenario.fresh Scenario.installed)
  = (Ret (ServerError (SystemError "ENOTDIR")), Scenario.fresh Scenario.installed).
Proof. cbv zeta. split; [repeat constructor|]. vm_compute. reflexivity. Qed.

(** ** A fetch that fails *)

Lemma createWriteStream_run h dest s :
  createWriteStream h dest s =
  match Fs.writeFileSync (disk h) (files s) dest (Text "") with
  | Ok t => (Ret (Ok tt), {| files := t; requests := requests s |})
  | Err e => (Ret (Err e), s)
  end.
Proof. reflexivity. Qed.

Lemma discard_run h dest s :
  discard h dest s =
  match Fs.unlink (disk h) (files s) dest with
  | Ok t => (Ret tt, {| files := t; requests := requests s |})
  | Err _ => (Ret tt, s)
  end.
Proof.
  unfold discard, try_catch, unlink. rewrite writes_run.
  now destruct (Fs.unlink (disk h) (files s) dest).
Qed.

Lemma unlink_opened h t dest data t2 :
  Fs.writeFileSync (disk h) t dest data = Ok t2 ->
  Fs.unlink (disk h) t2 dest =
  if bool_decide (Fs.key (disk h) dest ∈ pinned (disk h))
  then Err (SystemError "EPERM")
  else Ok (delete (Fs.key (disk h) dest) t2).
Proof.
  intros Hw. apply FsFacts.writeFileSync_ok in Hw as [-> Hnd].
  unfold Fs.unlink.
  destruct (Fs.key (disk h) dest) as [|x k] eqn:Hk; [discriminate|].
  rewrite FsFacts.stat_lookup by discriminate. now rewrite lookup_insert_eq.
Qed.

(** C4, as the code has it.  A status other than 200, or an ['error']
    of the request, never lets [downloadFile] resolve.  When the call gets
    as far as the request (the directory of the destination is ensured,
    the destination is opened for writing), the promise is rejected with
    that error, and the destination is unlinked, whatever the unlink
    throws being ignored: no file is left at the destination unless it
    cannot be removed, in which case it stays, empty. *)
Theorem failed_fetch_discards (h : host) (u dest : string) (s : state) (err : exn) :
  fetch_error (get h (Str.startsWith "https:" u) u) = Some err ->
  (downloadFile h (VStr u) dest s).1 <> Ret tt /\
  (forall s1 t2,
     ensureDir h (Path.dirname dest) s = (Ret tt, s1) ->
     Fs.writeFileSync (disk h) (files s1) dest (Text "") = Ok t2 ->
     exists s',
       downloadFile h (VStr u) dest s = (Throw err, s') /\
       requests s' = requests s1 ++ [u] /\
       (Fs.key (disk h) dest ∉ pinned (disk h) ->
        files s' = delete (Fs.key (disk h) dest) t2 /\
        Fs.existsSync (disk h) (files s') dest = false) /\
       (Fs.key (disk h) dest ∈ pinned (disk h) ->
        files s' = t2 /\
        Fs.stat (files s') (Fs.key (disk h) dest) = Some (File (Text "")))).
Proof.
  intros Herr.
  assert (Hopened : forall s1 t2,
     ensureDir h (Path.dirname dest) s = (Ret tt, s1) ->
     Fs.writeFileSync (disk h) (files s1) dest (Text "") = Ok t2 ->
     exists s',
       downloadFile h (VStr u) dest s = (Throw err, s') /\
       requests s' = requests s1 ++ [u] /\
       (Fs.key (disk h) dest ∉ pinned (disk h) ->
        files s' = delete (Fs.key (disk h) dest) t2 /\
        Fs.existsSync (disk h) (files s') dest = false) /\
       (Fs.key (disk h) dest ∈ pinned (disk h) ->
        files s' = t2 /\
        Fs.stat (files s') (Fs.key (disk h) dest) = Some (File (Text "")))).
  { intros s1 t2 Hdir Hopen.
    assert (Hkey : Fs.key (disk h) dest <> []).
    { apply FsFacts.writeFileSync_ok in Hopen as [_ Hnd]. intros Hk.
      rewrite Hk in Hnd. discriminate. }
    assert (Hgone : Fs.existsSync (disk h) (delete (Fs.key (disk h) dest) t2) dest = false).
    { unfold Fs.existsSync. rewrite FsFacts.stat_lookup by assumption.
      now rewrite lookup_delete_eq. }
    assert (Hstay : Fs.stat t2 (Fs.key (disk h) dest) = Some (File (Text ""))).
    { apply FsFacts.writeFileSync_ok in Hopen as [-> _].
      rewrite FsFacts.stat_lookup by assumption. apply lookup_insert_eq. }
    assert (Hrun : forall e, (discard h dest ;; throw e)
                     {| files := t2; requests := requests s1 ++ [u] |}
                   = (Throw e : outcome unit,
                      {| files := if bool_decide (Fs.key (disk h) dest ∈ pinned (disk h))
                                  then t2 else delete (Fs.key (disk h) dest) t2;
                         requests := requests s1 ++ [u] |})).
    { intros e. unfold bind. rewrite discard_run. simpl.
      rewrite (unlink_opened _ _ _ _ _ Hopen).
      now destruct (bool_decide _). }
    assert (Hdone : downloadFile h (VStr u) dest s
                    = (Throw err,
                       {| files := if bool_decide (Fs.key (disk h) dest ∈ pinned (disk h))
                                   then t2 else delete (Fs.key (disk h) dest) t2;
                          requests := requests s1 ++ [u] |})).
    { unfold downloadFile. unfold bind at 1. rewrite Hdir.
      unfold bind at 1. rewrite createWriteStream_run, Hopen.
      unfold bind at 1. unfold request.
      destruct (get h (Str.startsWith "https:" u) u) as [|reason|status body];
        simpl in Herr; try discriminate.
      - injection Herr as <-. unfold bind at 1, note_request. simpl. apply Hrun.
      - destruct (Z.eqb status 200) eqn:Hst; [discriminate|]. injection Herr as <-.
        unfold bind at 1, note_request. simpl. rewrite Hst. simpl. apply Hrun. }
    eexists. split; [exact Hdone|]. simpl. split; [reflexivity|].
    destruct (bool_decide (Fs.key (disk h) dest ∈ pinned (disk h))) eqn:Hpin.
    - apply bool_decide_eq_true in Hpin. split; [contradiction|auto].
    - apply bool_decide_eq_false in Hpin. split; [auto|contradiction]. }
  split; [|exact Hopened].
  unfold downloadFile. unfold bind at 1.
  destruct (ensureDir h (Path.dirname dest) s) as [[[]|e|e] s1] eqn:Hdir;
    try discriminate.
  unfold bind at 1. rewrite createWriteStream_run.
  destruct (Fs.writeFileSync (disk h) (files s1) dest (Text "")) as [t2|e] eqn:Hopen.
  - destruct (Hopened s1 t2 eq_refl Hopen) as (s' & Hrun & _).
    unfold downloadFile in Hrun. unfold bind at 1 in Hrun. rewrite Hdir in Hrun.
    unfold bind at 1 in Hrun. rewrite createWriteStream_run, Hopen in Hrun.
    rewrite Hrun. discriminate.
  - unfold bind.
    destruct (try_catch _ _ s1) as [[[]|e'|e'] s2]; discriminate.
Qed.

Lemma failed_fetch_discards_witness :
  let after := downloadFile Scenario.linux (VStr "http://x/missing.jar")
                 "/home/u/.minecraft/mods/new.jar" (Scenario.fresh Scenario.installed) in
  after.1 = Throw (DownloadFailed 404) /\
  Fs.existsSync (disk Scenario.linux) (files after.2)
    "/home/u/.minecraft/mods/new.jar" = false.
Proof.
  cbv zeta.
  destruct (failed_fetch_discards Scenario.linux "http://x/missing.jar"
              "/home/u/.minecraft/mods/new.jar"
              (Scenario.fresh Scenario.installed) (DownloadFailed 404))
    as (_ & Hopened); [reflexivity|].
  destruct (Hopened (Scenario.fresh Scenario.installed)
              (<[Scenario.mc ++ ["mods"; "new.jar"] := File (Text "")]> Scenario.installed))
    as (s' & Hrun & _ & Hfree & _).
  - vm_compute. reflexivity.
  - vm_compute. reflexivity.
  - rewrite Hrun. split; [reflexivity|]. apply Hfree.
    vm_compute. intros H. discriminate H.
Defined.

(** C4 as claimed fails: a file that is there and cannot be removed is
    opened, truncated, and, after the status 404, still there; the unlink
    has failed and its callback takes no notice. *)
Lemma failed_fetch_can_leave_the_file :
  let after := downloadFile Scenario.locked (VStr "http://x/missing.jar")
                 "/home/u/.minecraft/mods/old.jar" (Scenario.fresh Scenario.installed) in
  after.1 = Throw (DownloadFailed 404) /\
  files after.2 !! (Scenario.mc ++ ["mods"; "old.jar"]) = Some (File (Text "")).
Proof. vm_compute. split; reflexivity. Qed.

(** ** What a run leaves alone *)

Section Keeps.
Variable R : state -> state -> Prop.
Hypothesis R_refl : forall s, R s s.
Hypothesis R_trans : forall a b c, R a b -> R b c -> R a c.

Lemma keeps_ret {A} (a : A) : keeps R (ret a).
Proof. intros s. apply R_refl. Qed.

Lemma keeps_throw {A} e : keeps R (@throw A e).
Proof. intros s. apply R_refl. Qed.

Lemma keeps_crash {A} e : keeps R (@crash A e).
Proof. intros s. apply R_refl. Qed.

Lemma keeps_reads {A} (f : Fs.tree -> A) : keeps R (reads f).
Proof. intros s. apply R_refl. Qed.

Lemma keeps_bind {A B} (c : M A) (k : A -> M B) :
  keeps R c -> (forall a, keeps R (k a)) -> keeps R (bind c k).
Proof.
  intros Hc Hk s. unfold bind. specialize (Hc s).
  destruct (c s) as [[a|e|e] s1]; simpl in *; auto.
  eapply R_trans; [exact Hc|apply Hk].
Qed.

Lemma keeps_try_catch {A} (c : M A) (handler : exn -> M A) :
  keeps R c -> (forall e, keeps R (handler e)) -> keeps R (try_catch c handler).
Proof.
  intros Hc Hh s. unfold try_catch. specialize (Hc s).
  destruct (c s) as [[a|e|e] s1]; simpl in *; auto.
  eapply R_trans; [exact Hc|apply Hh].
Qed.

Lemma keeps_forEach {A} (f : A -> M unit) (l : list A) :
  Forall (λ x, keeps R (f x)) l -> keeps R (forEach f l).
Proof.
  induction 1 as [|x l Hx _ IH]; simpl.
  - apply keeps_ret.
  - apply keeps_bind; auto.
Qed.
End Keeps.

Lemma quiet_refl K s : quiet K s s.
Proof. split; auto. Qed.

Lemma quiet_trans K a b c : quiet K a b -> quiet K b c -> quiet K a c.
Proof. intros [D1 F1] [D2 F2]. split; eauto. Qed.

Lemma quiet_weaken (K K' : list string -> Prop) s s' :
  (forall k, K k -> K' k) -> quiet K s s' -> quiet K' s s'.
Proof. intros HK [D F]. split; [exact D|]. intros k d Hk. apply F. auto. Qed.

Lemma quiet_extends K s s' : extends (files s) (files s') -> quiet K s s'.
Proof.
  intros He. split.
  - intros k. apply FsFacts.extends_stat, He.
  - intros k d _. apply He.
Qed.

Lemma quiet_same_files K s s' : files s' = files s -> quiet K s s'.
Proof. intros H. unfold quiet. rewrite H. auto. Qed.

Lemma stat_insert_file (t : Fs.tree) k data q :
  Fs.stat t q = Some Dir -> Fs.is_dir (Fs.stat t k) = false ->
  Fs.stat (<[k := File data]> t) q = Some Dir.
Proof.
  intros Hq Hk. destruct q as [|x q]; [reflexivity|].
  rewrite FsFacts.stat_lookup in * by discriminate.
  destruct (decide (k = x :: q)) as [->|Hne].
  - rewrite FsFacts.stat_lookup in Hk by discriminate. now rewrite Hq in Hk.
  - now rewrite lookup_insert_ne.
Qed.

Section Quiet.
Variable h : host.
Variable K : list string -> Prop.

Lemma q_ret {A} (a : A) : keeps (quiet K) (ret a).
Proof. apply keeps_ret, quiet_refl. Qed.

Lemma q_throw {A} e : keeps (quiet K) (@throw A e).
Proof. apply keeps_throw, quiet_refl. Qed.

Lemma q_crash {A} e : keeps (quiet K) (@crash A e).
Proof. apply keeps_crash, quiet_refl. Qed.

Lemma q_bind {A B} (c : M A) (k : A -> M B) :
  keeps (quiet K) c -> (forall a, keeps (quiet K) (k a)) -> keeps (quiet K) (bind c k).
Proof. apply keeps_bind, quiet_trans. Qed.

Lemma q_try_catch {A} (c : M A) (handler : exn -> M A) :
  keeps (quiet K) c -> (forall e, keeps (quiet K) (handler e)) -> keeps (quiet K) (try_catch c handler).
Proof. apply keeps_try_catch, quiet_trans. Qed.

Lemma keeps_existsSync p : keeps (quiet K) (existsSync h p).
Proof. apply keeps_reads, quiet_refl. Qed.

Lemma keeps_mkdirSync p : keeps (quiet K) (mkdirSync h p).
Proof.
  intros s. unfold mkdirSync. rewrite writes_run.
  destruct (Fs.mkdirSync (disk h) (files s) p) as [t|e] eqn:Hm;
    [|apply quiet_refl].
  apply quiet_extends. simpl. eapply FsFacts.mkdirSync_extends, Hm.
Qed.

Lemma keeps_ensureDir p : keeps (quiet K) (ensureDir h p).
Proof.
  apply q_bind; [apply keeps_existsSync|].
  intros []; [apply q_ret|apply keeps_mkdirSync].
Qed.

Lemma keeps_request url : keeps (quiet K) (request h url).
Proof.
  intros s. unfold request. destruct url; try apply quiet_refl.
  destruct (get h _ _); apply quiet_same_files; reflexivity.
Qed.

Lemma keeps_createWriteStream dest :
  K (Fs.key (disk h) dest) -> keeps (quiet K) (createWriteStream h dest).
Proof.
  intros HK s. rewrite createWriteStream_run.
  destruct (Fs.writeFileSync _ _ _ _) as [t|e] eqn:Hw; [|apply quiet_refl].
  apply FsFacts.writeFileSync_ok in Hw as [-> Hnd]. split; simpl.
  - intros k Hk. now apply stat_insert_file.
  - intros k d Hk Hf. rewrite lookup_insert_ne; [assumption|congruence].
Qed.

Lemma keeps_discard dest :
  K (Fs.key (disk h) dest) -> keeps (quiet K) (discard h dest).
Proof.
  intros HK s. rewrite discard_run.
  destruct (Fs.unlink _ _ _) as [t|e] eqn:Hu; [|apply quiet_refl].
  apply FsFacts.unlink_ok in Hu as [-> Hfile]. split; simpl.
  - intros k Hk. destruct k as [|x k]; [reflexivity|].
    rewrite FsFacts.stat_lookup in * by discriminate.
    rewrite lookup_delete_ne; [assumption|]. intros Heq.
    rewrite Heq, FsFacts.stat_lookup, Hk in Hfile by discriminate.
    discriminate.
  - intros k d Hk Hf. rewrite lookup_delete_ne; [assumption|congruence].
Qed.

Lemma keeps_pipe dest body :
  K (Fs.key (disk h) dest) -> keeps (quiet K) (pipe h dest body).
Proof.
  intros HK s. unfold pipe. rewrite writes_run. unfold Fs.fill. split; simpl.
  - intros k Hk. destruct k as [|x k]; [reflexivity|].
    rewrite FsFacts.stat_lookup in * by discriminate.
    rewrite lookup_alter. destruct (decide _) as [Heq|]; [|assumption].
    now rewrite Heq, Hk.
  - intros k d Hk Hf. rewrite lookup_alter_ne; [assumption|congruence].
Qed.

Lemma keeps_downloadFile url dest :
  K (Fs.key (disk h) dest) -> keeps (quiet K) (downloadFile h url dest).
Proof.
  intros HK. unfold downloadFile.
  apply q_bind; [apply keeps_ensureDir|]. intros _.
  apply q_bind; [now apply keeps_createWriteStream|]. intros [[]|e].
  - apply q_bind; [apply keeps_request|]. intros [|reason|status body].
    + apply q_throw.
    + apply q_bind; [now apply keeps_discard|]. intros _. apply q_throw.
    + destruct (negb (Z.eqb status 200)).
      * apply q_bind; [now apply keeps_discard|]. intros _. apply q_throw.
      * now apply keeps_pipe.
  - apply q_bind; [|intros _; apply q_crash].
    apply q_try_catch; [|intros _; apply q_ret].
    apply q_bind; [apply keeps_request|]. intros _. apply q_ret.
Qed.

Lemma keeps_placeItem root item :
  (usable item = true ->
   forall dest, destPath root item = Ok dest -> K (Fs.key (disk h) dest)) ->
  keeps (quiet K) (placeItem h root item).
Proof.
  intros HK. unfold placeItem.
  destruct (usable item); [|apply q_ret].
  destruct (destPath root item) as [dest|e] eqn:Hd; intros s; unfold bind; simpl.
  - apply keeps_downloadFile. now apply HK.
  - apply quiet_refl.
Qed.

Lemma keeps_resolveRoot gameDir instanceId :
  keeps (quiet K) (resolveRoot h gameDir instanceId).
Proof. intros s. rewrite resolveRoot_reads. apply quiet_refl. Qed.

(** Outside full mode [prepare] only makes directories. *)
Lemma keeps_prepare mode gameDir instanceId :
  JS.is_str mode "full" = false ->
  keeps (quiet K) (prepare h mode gameDir instanceId).
Proof.
  intros Hmode. unfold prepare.
  apply q_bind; [apply keeps_resolveRoot|]. intros v.
  destruct v; try apply q_throw.
  apply q_bind; [apply keeps_ensureDir|]. intros _.
  apply q_bind; [|intros _; apply q_ret].
  unfold reset. rewrite Hmode. apply q_ret.
Qed.

End Quiet.

(** C3, as the code has it.  In a request whose mode is not [full]
    ([patch] among them), whatever the items: every directory that was
    there is still there when the handler is done; and every file that was
    there is still there with its content, unless it is the destination of
    one of the usable items.  (A destination is opened, hence created or
    emptied, then filled, or unlinked again when its fetch fails.) *)
Theorem patch_removes_no_directory (h : host) (body : value) (s : state) :
  let req := bodyOf body in
  let after := install_files h body s in
  JS.is_str (JS.get req "mode") "full" = false ->
  (forall k, Fs.stat (files s) k = Some Dir -> Fs.stat (files after.2) k = Some Dir) /\
  (forall k data,
     files s !! k = Some (File data) ->
     (forall root s1 item dest,
        prepare h (JS.get req "mode") (JS.get req "gameDir") (JS.get req "instanceId") s
          = (Ret root, s1) ->
        In item (elements (JS.get req "items")) ->
        usable item = true ->
        destPath root item = Ok dest ->
        Fs.key (disk h) dest <> k) ->
     files after.2 !! k = Some (File data)).
Proof.
  intros req after Hmode. subst after. unfold install_files. fold req.
  destruct (noItems (JS.get req "items")); [now split|].
  set (mode := JS.get req "mode") in *.
  set (gameDir := JS.get req "gameDir").
  set (instanceId := JS.get req "instanceId").
  set (items := elements (JS.get req "items")).
  unfold try_catch, bind.
  pose proof (keeps_prepare h (λ _, False) mode gameDir instanceId Hmode s) as Hprep.
  destruct (prepare h mode gameDir instanceId s) as [[root|e|e] s1] eqn:Hrun;
    simpl in Hprep.
  - set (K := λ k, exists item dest,
                 In item items /\ usable item = true /\
                 destPath root item = Ok dest /\ Fs.key (disk h) dest = k).
    assert (Hplace : quiet K s1 (forEach (placeItem h root) items s1).2).
    { apply keeps_forEach; [apply quiet_refl|apply quiet_trans|].
      apply Forall_forall. intros item Hin. apply keeps_placeItem.
      intros Hu dest Hd. exists item, dest. rewrite list_elem_of_In in Hin. auto. }
    assert (Hall : quiet K s (forEach (placeItem h root) items s1).2).
    { eapply quiet_trans; [|exact Hplace].
      eapply quiet_weaken; [|exact Hprep]. contradiction. }
    destruct (forEach (placeItem h root) items s1) as [[[]|e|e] s2]; simpl in *;
      (destruct Hall as [Hdirs Hfiles]; split; [exact Hdirs|];
       intros k data Hk Hnot; apply Hfiles; [|exact Hk];
       intros (item & dest & Hin & Hu & Hd & Hkey);
       exact (Hnot root s1 item dest eq_refl Hin Hu Hd Hkey)).
  - destruct Hprep as [Hdirs Hfiles]. split; [exact Hdirs|].
    intros k data Hk _. apply Hfiles; auto.
  - destruct Hprep as [Hdirs Hfiles]. split; [exact Hdirs|].
    intros k data Hk _. apply Hfiles; auto.
Qed.

Lemma patch_removes_no_directory_witness :
  let body := Scenario.request "patch"
                [Scenario.item "mod" "http://x/missing.jar" "a.jar"] in
  let after := install_files Scenario.linux body (Scenario.fresh Scenario.installed) in
  Fs.stat (files after.2) (Scenario.mc ++ ["versions"; "My Pack (v2)"]) = Some Dir /\
  files after.2 !! (Scenario.mc ++ ["mods"; "old.jar"]) = Some (File (Text "OLD")).
Proof.
  cbv zeta.
  destruct (patch_removes_no_directory Scenario.linux
              (Scenario.request "patch"
                 [Scenario.item "mod" "http://x/missing.jar" "a.jar"])
              (Scenario.fresh Scenario.installed)) as [Hdirs Hfiles];
    [reflexivity|].
  split.
  - apply Hdirs. vm_compute. reflexivity.
  - apply Hfiles; [vm_compute; reflexivity|].
    intros root s1 item dest Hprep [<-|[]] _ Hdest.
    vm_compute in Hprep. injection Hprep as <- _.
    vm_compute in Hdest. injection Hdest as <-.
    vm_compute. intros H. discriminate H.
Defined.

(** C3 as claimed fails where it says that only files are created: a
    patch request whose fetch fails unlinks its destination, and a file
    that was there under that name before is gone. *)
Lemma patch_can_remove_a_file :
  let body := Scenario.request "patch"
                [Scenario.item "mod" "http://x/missing.jar" "old.jar"] in
  let after := install_files Scenario.linux body (Scenario.fresh Scenario.installed) in
  Scenario.installed !! (Scenario.mc ++ ["mods"; "old.jar"]) = Some (File (Text "OLD")) /\
  after.1 = Ret (ServerError (DownloadFailed 404)) /\
  files after.2 !! (Scenario.mc ++ ["mods"; "old.jar"]) = None.
Proof. vm_compute. repeat split; reflexivity. Qed.

(* ------------------------------------------------------------------ *)
(** * Further properties *)

(** A run is its outcome and the state it ends in. *)
Lemma run_eta {A} (r : outcome A * state) (o : outcome A) : r.1 = o -> r = (o, r.2).
Proof. destruct r. simpl. now intros ->. Qed.

(** ** Instance identifiers *)

Lemma replace_runs_class b s : word_only (replace_runs b s) = true.
Proof.
  revert b. induction s as [|c r IH]; intros b; [reflexivity|].
  simpl. destruct (word_or_dash c) eqn:Hc.
  - unfold word_only. simpl. rewrite Hc. apply IH.
  - destruct b; [apply IH|]. apply (IH true).
Qed.

Lemma replace_runs_length b s :
  String.length (replace_runs b s) <= String.length s.
Proof.
  revert b. induction s as [|c r IH]; intros b; simpl; [lia|].
  destruct (word_or_dash c); [|destruct b]; simpl;
    try (specialize (IH false); lia); specialize (IH true); lia.
Qed.

Lemma sanitize_word w : word_only w = true -> sanitize w = w.
Proof.
  intros H. unfold sanitize.
  rewrite <- (append_empty_r w) at 1.
  rewrite replace_runs_word_false by assumption. apply append_empty_r.
Qed.

(** X1.  The identifier of a version folder is made of letters, digits,
    [_] and [-] only, whatever the folder is called; replacing again
    changes nothing; and the identifier is at most four characters longer
    than the folder name. *)
Theorem safeId_is_safe (folderName : string) :
  word_only (safeId folderName) = true /\
  sanitize (sanitize folderName) = sanitize folderName /\
  String.length (safeId folderName) <= 4 + String.length folderName.
Proof.
  split; [|split].
  - apply (replace_runs_class false).
  - apply sanitize_word, replace_runs_class.
  - pose proof (replace_runs_length false folderName). unfold safeId, sanitize.
    change ("ver_" +:+ ?x) with (String "v" (String "e" (String "r" (String "_" x)))).
    simpl. lia.
Qed.

(** ** The list of instances *)

Lemma child_name_spec k q name :
  Fs.child_name k q = Some name <-> q = k ++ [name].
Proof.
  revert q. induction k as [|x k IH]; intros q.
  - destruct q as [|y [|z q]]; simpl; split; intros H; try discriminate; congruence.
  - destruct q as [|y q]; simpl; [split; discriminate|].
    destruct (Str.eqb x y) eqn:Hxy.
    + apply PathFacts.eqb_eq in Hxy as ->. rewrite IH. split; congruence.
    + split; [discriminate|]. intros [= -> _].
      unfold Str.eqb in Hxy. rewrite String.eqb_refl in Hxy. discriminate.
Qed.

(** What [readdirSync] lists: each entry directly inside the directory,
    once, with its kind. *)
Lemma readdirSync_entries (m : mount) (t : Fs.tree) p entries :
  Fs.readdirSync m t p = Ok entries ->
  NoDup entries.*1 /\
  forall name b, (name, b) ∈ entries <->
    exists n, t !! (Fs.key m p ++ [name]) = Some n /\ b = Fs.is_dir (Some n).
Proof.
  unfold Fs.readdirSync. destruct (Fs.stat t (Fs.key m p)) as [[|d]|]; try discriminate.
  intros [= <-]. split.
  - pose proof (NoDup_fst_map_to_list t) as Hnd.
    induction (map_to_list t) as [|[q n] l IH]; [constructor|].
    simpl in Hnd. apply NoDup_cons in Hnd as [Hq Hnd]. simpl.
    destruct (Fs.child_name (Fs.key m p) q) as [name|] eqn:Hc; simpl; [|auto].
    constructor; [|auto].
    intros Hin. apply list_elem_of_fmap in Hin as [[name' b] [Heq Hin]].
    simpl in Heq. subst name'.
    apply list_elem_of_omap in Hin as [[q' n'] [Hin Hsome]]. simpl in Hsome.
    destruct (Fs.child_name (Fs.key m p) q') as [name'|] eqn:Hc'; [|discriminate].
    injection Hsome as -> Hb.
    apply child_name_spec in Hc, Hc'. subst q q'.
    apply Hq. apply list_elem_of_fmap. exists (Fs.key m p ++ [name], n'). auto.
  - intros name b. rewrite list_elem_of_omap. split.
    + intros [[q n] [Hin Hsome]]. simpl in Hsome.
      destruct (Fs.child_name (Fs.key m p) q) as [name'|] eqn:Hc; [|discriminate].
      injection Hsome as -> <-. apply child_name_spec in Hc as ->.
      apply elem_of_map_to_list in Hin. eauto.
    + intros [n [Hn ->]]. exists (Fs.key m p ++ [name], n). split.
      * now apply elem_of_map_to_list.
      * simpl. now rewrite (proj2 (child_name_spec _ _ name) eq_refl).
Qed.

Lemma versionInstance_inj dir a b :
  versionInstance dir a = versionInstance dir b -> a = b.
Proof. intros H. apply (f_equal versionFolder) in H. simpl in H. congruence. Qed.

Lemma getMinecraftPath_error h e : getMinecraftPath h = Err e -> e = UnsupportedOS.
Proof.
  unfold getMinecraftPath.
  repeat (destruct (Str.eqb _ _); [discriminate|]). congruence.
Qed.

Lemma key_versions_not_root (m : mount) mcPath : Fs.key m (versionsOf mcPath) <> [].
Proof. apply key_join_plain_not_root. now split. Qed.

(** The shape of what [detectInstances] returns on a platform it knows. *)
Lemma detectInstances_run h s mcPath :
  getMinecraftPath h = Ok mcPath ->
  detectInstances h s =
  match files s !! Fs.key (disk h) (versionsOf mcPath) with
  | None => (Ret [defaultInstance mcPath], s)
  | Some (File _) => (Throw (SystemError "ENOTDIR"), s)
  | Some Dir =>
      match Fs.readdirSync (disk h) (files s) (versionsOf mcPath) with
      | Ok entries =>
          (Ret (defaultInstance mcPath ::
                List.map (λ d, versionInstance (versionsOf mcPath) d.1)
                         (List.filter (λ d, d.2) entries)), s)
      | Err e => (Throw e, s)
      end
  end.
Proof.
  intros Hmc. unfold detectInstances. rewrite Hmc. unfold versionsOf, bind.
  rewrite existsSync_run. unfold Fs.existsSync.
  pose proof (key_versions_not_root (disk h) mcPath) as Hne. unfold versionsOf in Hne.
  pose proof (FsFacts.stat_lookup (files s) _ Hne) as Hst. rewrite Hst.
  destruct (files s !! Fs.key (disk h) (Path.join mcPath "versions")) as [[|d]|];
    [| |reflexivity]; unfold readdirSync, tries; cbv beta.
  - now destruct (Fs.readdirSync _ _ _).
  - unfold Fs.readdirSync. now rewrite Hst.
Qed.

(** The default instance comes first; what follows it are version
    folders. *)
Lemma detectInstances_members (h : host) (s s' : state)
    (mcPath : string) (found : list Instance) :
  getMinecraftPath h = Ok mcPath ->
  detectInstances h s = (Ret found, s') ->
  s' = s /\
  exists versions,
    found = defaultInstance mcPath :: versions /\
    forall i, In i versions ->
      exists folderName,
        i = versionInstance (versionsOf mcPath) folderName /\
        files s !! (Fs.key (disk h) (versionsOf mcPath) ++ [folderName]) = Some Dir.
Proof.
  intros Hmc Hrun. rewrite (detectInstances_run h s mcPath Hmc) in Hrun.
  destruct (files s !! Fs.key (disk h) (versionsOf mcPath)) as [[|d]|] eqn:Hv.
  - destruct (Fs.readdirSync _ _ _) as [entries|e] eqn:Hread; [|discriminate].
    injection Hrun as <- <-. split; [reflexivity|].
    apply readdirSync_entries in Hread as [_ Hin].
    eexists. split; [reflexivity|].
    intros i Hi. apply in_map_iff in Hi as [[name b] [<- Hi]].
    apply filter_In in Hi as [Hi Hb]. simpl in Hb. subst b.
    apply list_elem_of_In, Hin in Hi as [n [Hn Hb]].
    exists name. split; [reflexivity|]. destruct n; [exact Hn|discriminate].
  - discriminate.
  - injection Hrun as <- <-. split; [reflexivity|].
    exists []. split; [reflexivity|]. intros i [].
Qed.

(** X2.  On a platform the bridge knows, the list of instances is the
    default instance, whose path is the game directory, followed by one
    instance for each directory that lies directly in [versions], each
    once and none for anything else; listing changes nothing. *)
Theorem detectInstances_lists_version_folders (h : host) (s s' : state)
    (mcPath : string) (found : list Instance) :
  getMinecraftPath h = Ok mcPath ->
  detectInstances h s = (Ret found, s') ->
  s' = s /\
  exists versions,
    found = defaultInstance mcPath :: versions /\
    NoDup versions /\
    forall i, In i versions <->
      exists folderName,
        i = versionInstance (versionsOf mcPath) folderName /\
        files s !! Fs.key (disk h) (versionsOf mcPath) = Some Dir /\
        files s !! (Fs.key (disk h) (versionsOf mcPath) ++ [folderName]) = Some Dir.
Proof.
  intros Hmc Hrun. rewrite (detectInstances_run h s mcPath Hmc) in Hrun.
  destruct (files s !! Fs.key (disk h) (versionsOf mcPath)) as [[|d]|] eqn:Hv.
  - destruct (Fs.readdirSync _ _ _) as [entries|e] eqn:Hread; [|discriminate].
    injection Hrun as <- <-. split; [reflexivity|].
    apply readdirSync_entries in Hread as [Hnd Hin].
    eexists. split; [reflexivity|]. split.
    + clear Hin. induction entries as [|[name b] l IH]; [constructor|].
      simpl in Hnd. apply NoDup_cons in Hnd as [Hname Hnd].
      simpl. destruct b; simpl; [|auto]. constructor; [|auto].
      intros Hi. apply list_elem_of_In, in_map_iff in Hi as [[name' b'] [Heq Hi]].
      apply versionInstance_inj in Heq. simpl in Heq. subst name'.
      apply filter_In in Hi as [Hi _]. apply Hname.
      apply list_elem_of_fmap. exists (name, b'). split; [reflexivity|].
      now apply list_elem_of_In.
    + intros i. rewrite in_map_iff. split.
      * intros [[name b] [<- Hi]]. apply filter_In in Hi as [Hi Hb].
        simpl in Hb. subst b. apply list_elem_of_In, Hin in Hi as [n [Hn Hb]].
        exists name. split; [reflexivity|]. split; [reflexivity|].
        destruct n; [exact Hn|discriminate].
      * intros [name [-> [_ Hn]]]. exists (name, true). split; [reflexivity|].
        apply filter_In. split; [|reflexivity].
        apply list_elem_of_In, Hin. exists Dir. auto.
  - discriminate.
  - injection Hrun as <- <-. split; [reflexivity|].
    exists []. split; [reflexivity|]. split; [constructor|].
    intros i. split; [intros []|]. intros [name [_ [Hn _]]]. discriminate.
Qed.

Lemma detectInstances_lists_version_folders_witness :
  exists versions,
    [defaultInstance "/home/u/.minecraft";
     versionInstance (versionsOf "/home/u/.minecraft") "My Pack (v2)"]
    = defaultInstance "/home/u/.minecraft" :: versions /\
    NoDup versions /\
    forall i, In i versions <->
      exists folderName,
        i = versionInstance (versionsOf "/home/u/.minecraft") folderName /\
        Scenario.installed
          !! Fs.key (disk Scenario.linux) (versionsOf "/home/u/.minecraft") = Some Dir /\
        Scenario.installed
          !! (Fs.key (disk Scenario.linux) (versionsOf "/home/u/.minecraft")
              ++ [folderName]) = Some Dir.
Proof.
  apply (detectInstances_lists_version_folders Scenario.linux
           (Scenario.fresh Scenario.installed)
           (detectInstances Scenario.linux (Scenario.fresh Scenario.installed)).2
           "/home/u/.minecraft"); [reflexivity|].
  apply run_eta. vm_compute. reflexivity.
Defined.

(** X3.  When [versions] in the game directory is a file, listing the
    instances throws: [GET /status] throws with it, having no [try]
    around the call, and [POST /install-files] without a [gameDir] is
    answered with status 500; nothing is changed. *)
Theorem versions_file_breaks_listing (h : host) (s : state) (mcPath : string)
    (d : content) (tok body : value) :
  getMinecraftPath h = Ok mcPath ->
  files s !! Fs.key (disk h) (versionsOf mcPath) = Some (File d) ->
  detectInstances h s = (Throw (SystemError "ENOTDIR"), s) /\
  Endpoints.status_handler h tok s = (Throw (SystemError "ENOTDIR"), s) /\
  (noItems (JS.get (bodyOf body) "items") = false ->
   JS.truthy (JS.get (bodyOf body) "gameDir") = false ->
   install_files h body s = (Ret (ServerError (SystemError "ENOTDIR")), s)).
Proof.
  intros Hmc Hfile.
  assert (Hdet : detectInstances h s = (Throw (SystemError "ENOTDIR"), s)).
  { rewrite (detectInstances_run h s mcPath Hmc). now rewrite Hfile. }
  split; [exact Hdet|]. split.
  - unfold Endpoints.status_handler, bind. now rewrite Hdet.
  - intros Hitems Hgame. unfold install_files. rewrite Hitems.
    unfold try_catch, bind, prepare, bind, resolveRoot. rewrite Hgame.
    unfold bind. now rewrite Hdet.
Qed.

Lemma versions_file_breaks_listing_witness :
  Endpoints.status_handler Scenario.linux (VStr "t") (Scenario.fresh Trials.versions_is_file)
  = (Throw (SystemError "ENOTDIR"), Scenario.fresh Trials.versions_is_file) /\
  install_files Scenario.linux
    (Scenario.request "patch" [Scenario.item "mod" "http://x/a.jar" "a.jar"])
    (Scenario.fresh Trials.versions_is_file)
  = (Ret (ServerError (SystemError "ENOTDIR")), Scenario.fresh Trials.versions_is_file).
Proof.
  destruct (versions_file_breaks_listing Scenario.linux
              (Scenario.fresh Trials.versions_is_file) "/home/u/.minecraft"
              (Text "x") (VStr "t")
              (Scenario.request "patch" [Scenario.item "mod" "http://x/a.jar" "a.jar"]))
    as (_ & Hstatus & Hinstall); [reflexivity|vm_compute; reflexivity|].
  split; [exact Hstatus|]. apply Hinstall; reflexivity.
Defined.

(** X4.  [GET /status] changes nothing and answers with what
    [detectInstances] lists: on a platform the bridge knows [mcPath] is
    the game directory and the first instance is the default one at that
    path; on any other platform [mcPath] is empty and so is the list. *)
Theorem status_reports_the_listing (h : host) (tok : value) (s : state) :
  (Endpoints.status_handler h tok s).2 = s /\
  forall body, (Endpoints.status_handler h tok s).1 = Ret body ->
    Endpoints.status body = "ready" /\
    Endpoints.token body = tok /\
    Endpoints.os body = platform h /\
    (detectInstances h s).1 = Ret (Endpoints.instances body) /\
    match getMinecraftPath h with
    | Ok p =>
        Endpoints.mcPath body = p /\
        head (Endpoints.instances body) = Some (defaultInstance p)
    | Err _ =>
        Endpoints.mcPath body = "" /\ Endpoints.instances body = []
    end.
Proof.
  unfold Endpoints.status_handler, bind.
  pose proof (detectInstances_reads h s) as Hsame.
  destruct (detectInstances h s) as [[found|e|e] s1] eqn:Hdet; simpl in Hsame; subst s1;
    (split; [reflexivity|]); intros body Hbody; try discriminate.
  injection Hbody as <-. simpl. repeat split.
  destruct (getMinecraftPath h) as [p|e] eqn:Hmc.
  - split; [reflexivity|].
    destruct (detectInstances_members h s s p found Hmc Hdet) as (_ & versions & -> & _).
    reflexivity.
  - split; [reflexivity|]. unfold detectInstances in Hdet. rewrite Hmc in Hdet.
    now injection Hdet as <-.
Qed.

Lemma status_reports_the_listing_witness :
  let body := {| Endpoints.status := "ready"; Endpoints.version := "1.1.0";
                 Endpoints.token := VStr "t"; Endpoints.os := "freebsd";
                 Endpoints.mcPath := ""; Endpoints.instances := [] |} in
  Endpoints.status body = "ready" /\
  Endpoints.token body = VStr "t" /\
  Endpoints.os body = platform Scenario.freebsd /\
  (detectInstances Scenario.freebsd (Scenario.fresh Scenario.home_only)).1
  = Ret (Endpoints.instances body) /\
  Endpoints.mcPath body = "" /\ Endpoints.instances body = [].
Proof.
  cbv zeta.
  apply (proj2 (status_reports_the_listing Scenario.freebsd (VStr "t")
                  (Scenario.fresh Scenario.home_only))).
  reflexivity.
Defined.

(** X5.  Without a [gameDir], on a platform the bridge knows, the root of
    an install is the game directory, or the version folder whose
    identifier was asked for, which then is a directory in [versions];
    an [instanceId] that is [default], or the identifier of no version
    folder, gives the game directory. *)
Theorem root_is_game_dir_or_version_folder (h : host) (gameDir instanceId : value)
    (s s' : state) (mcPath root : string) :
  JS.truthy gameDir = false ->
  getMinecraftPath h = Ok mcPath ->
  resolveRoot h gameDir instanceId s = (Ret (VStr root), s') ->
  (root = mcPath \/
   exists folderName,
     instanceId = VStr (safeId folderName) /\
     root = Path.join (versionsOf mcPath) folderName /\
     files s !! (Fs.key (disk h) (versionsOf mcPath) ++ [folderName]) = Some Dir) /\
  (instanceId = VStr "default" -> root = mcPath) /\
  ((forall folderName, instanceId <> VStr (safeId folderName)) -> root = mcPath).
Proof.
  intros Hgame Hmc Hrun. unfold resolveRoot in Hrun. rewrite Hgame in Hrun.
  unfold bind in Hrun.
  destruct (detectInstances h s) as [[found|e|e] s1] eqn:Hdet; try discriminate.
  destruct (detectInstances_members h s s1 mcPath found Hmc Hdet)
    as (-> & versions & -> & Hin).
  unfold rootFrom, pickTarget in Hrun.
  destruct (List.find _ (defaultInstance mcPath :: versions)) as [i|] eqn:Hfind.
  - injection Hrun as <- <-.
    apply find_some in Hfind as [Hi Hid]. apply is_str_spec in Hid.
    destruct Hi as [<-|Hi].
    + repeat split; auto.
    + apply Hin in Hi as (folderName & -> & Hdir). simpl in Hid. repeat split.
      * right. exists folderName. auto.
      * intros Heq. rewrite Heq in Hid. discriminate.
      * intros Hnone. now destruct (Hnone folderName).
  - simpl in Hrun. injection Hrun as <- <-. repeat split; auto.
Qed.

Lemma root_is_game_dir_or_version_folder_witness :
  ("/home/u/.minecraft/versions/My Pack (v2)" = "/home/u/.minecraft" \/
   exists folderName,
     VStr "ver_My_Pack_v2_" = VStr (safeId folderName) /\
     "/home/u/.minecraft/versions/My Pack (v2)"
     = Path.join (versionsOf "/home/u/.minecraft") folderName /\
     Scenario.installed
       !! (Fs.key (disk Scenario.linux) (versionsOf "/home/u/.minecraft")
           ++ [folderName]) = Some Dir).
Proof.
  apply (root_is_game_dir_or_version_folder Scenario.linux VUndef
           (VStr "ver_My_Pack_v2_") (Scenario.fresh Scenario.installed)
           (resolveRoot Scenario.linux VUndef (VStr "ver_My_Pack_v2_")
              (Scenario.fresh Scenario.installed)).2
           "/home/u/.minecraft"); [reflexivity|reflexivity|].
  apply run_eta. vm_compute. reflexivity.
Defined.

(** ** Making directories *)

Lemma mkdirs_new todo : forall above t t' k n,
  Fs.mkdirs above todo t = Ok t' -> t' !! k = Some n ->
  t !! k = Some n \/ (n = Dir /\ t !! k = None /\ k `prefix_of` above ++ todo).
Proof.
  induction todo as [|name todo IH]; intros above t t' k n Hm Hk; simpl in Hm.
  - injection Hm as <-. auto.
  - assert (Happ : (above ++ [name]) ++ todo = above ++ name :: todo)
      by now rewrite <- app_assoc.
    destruct (t !! (above ++ [name])) as [[|d]|] eqn:Hhere; [|discriminate|].
    + destruct (IH _ _ _ k n Hm Hk) as [H|(Hn & Hnone & Hpre)]; [auto|].
      right. now rewrite <- Happ.
    + destruct (IH _ _ _ k n Hm Hk) as [H|(Hn & Hnone & Hpre)].
      * destruct (decide (above ++ [name] = k)) as [<-|Hne].
        -- rewrite lookup_insert_eq in H. injection H as <-. right.
           repeat split; [assumption|]. apply prefix_app. now exists todo.
        -- rewrite lookup_insert_ne in H by assumption. auto.
      * right. rewrite <- Happ. repeat split; [assumption| |assumption].
        destruct (decide (above ++ [name] = k)) as [<-|Hne].
        -- now rewrite lookup_insert_eq in Hnone.
        -- now rewrite lookup_insert_ne in Hnone.
Qed.

Lemma mkdirs_blocked todo : forall above t below d,
  below <> [] -> below `prefix_of` todo ->
  t !! (above ++ below) = Some (File d) ->
  Fs.mkdirs above todo t = Err (SystemError "ENOTDIR").
Proof.
  induction todo as [|name todo IH]; intros above t below d Hne Hpre Hfile.
  - apply prefix_nil_inv in Hpre. contradiction.
  - destruct below as [|x below]; [contradiction|].
    pose proof (prefix_cons_inv_1 _ _ _ _ Hpre) as ->.
    apply prefix_cons_inv_2 in Hpre. simpl.
    assert (Happ : (above ++ [name]) ++ below = above ++ name :: below)
      by now rewrite <- app_assoc.
    destruct below as [|y below].
    + now rewrite Hfile.
    + destruct (t !! (above ++ [name])) as [[|d']|] eqn:Hhere; [|reflexivity|].
      * apply (IH _ _ (y :: below) d); [discriminate|assumption|now rewrite Happ].
      * apply (IH _ _ (y :: below) d); [discriminate|assumption|].
        rewrite Happ, lookup_insert_ne; [assumption|].
        intros Heq. apply (f_equal length) in Heq.
        rewrite !length_app in Heq. simpl in Heq. lia.
Qed.

Lemma ensureDir_run h p s :
  ensureDir h p s =
  if Fs.existsSync (disk h) (files s) p then (Ret tt, s)
  else match Fs.mkdirSync (disk h) (files s) p with
       | Ok t => (Ret tt, {| files := t; requests := requests s |})
       | Err e => (Throw e, s)
       end.
Proof.
  unfold ensureDir, bind. rewrite existsSync_run.
  now destruct (Fs.existsSync (disk h) (files s) p).
Qed.

(** What [ensureDir] has added when it returns. *)
Lemma ensureDir_new h p s s1 :
  ensureDir h p s = (Ret tt, s1) ->
  forall k n, files s1 !! k = Some n ->
    files s !! k = Some n \/
    (n = Dir /\ files s !! k = None /\ k `prefix_of` Fs.key (disk h) p).
Proof.
  intros Hrun k n Hk. rewrite ensureDir_run in Hrun.
  destruct (Fs.existsSync (disk h) (files s) p).
  - injection Hrun as <-. auto.
  - destruct (Fs.mkdirSync (disk h) (files s) p) as [t|e] eqn:Hm; [|discriminate].
    injection Hrun as <-. simpl in Hk.
    exact (mkdirs_new _ _ _ _ _ _ Hm Hk).
Qed.

(** The key of a canonical path is made of its own segments: nothing
    is cancelled or dropped on the way. *)
Lemma key_canonical (m : mount) p :
  canonical p = true ->
  Fs.key m p = (if Path.isAbsolute p then [] else Fs.key m ".")
               ++ List.filter is_proper (Path.split p).
Proof.
  intros Hc.
  assert (Hseg : Forall (λ x, x <> "..") (Path.split p)).
  { unfold canonical in Hc. apply Forall_forall. intros x Hx ->.
    destruct (Path.split p) as [|first rest]; [inversion Hx|].
    assert (Hall : forallb is_proper (first :: rest) = true \/
                   (first = "" /\ forallb is_proper rest = true)).
    { destruct first; [|now left]. destruct rest; [now left|now right]. }
    destruct Hall as [Hall|[-> Hall]].
    - rewrite forallb_forall in Hall. apply list_elem_of_In in Hx.
      now specialize (Hall _ Hx).
    - rewrite forallb_forall in Hall. apply list_elem_of_In in Hx.
      destruct Hx as [Hx|Hx]; [discriminate|]. now specialize (Hall _ Hx). }
  unfold Fs.key. rewrite PathFacts.resolve_from.
  rewrite PathFacts.normalizeStack_push by assumption.
  rewrite rev_app_distr, rev_involutive. f_equal.
  unfold from. destruct (Path.isAbsolute p); [reflexivity|].
  unfold Path.resolve. simpl Path.isAbsolute. cbv iota.
  now rewrite PathFacts.normalizeStack_app.
Qed.

(** X6.  For a canonical path [p] (not empty, every segment a name: no
    [.] or [..], no doubled or trailing separator), which the file system
    reads as the lexical resolution does, segment by segment from the
    root or the working directory: [ensureDir(p)], when it returns, has
    made directories and nothing else: what was there is there unchanged,
    each new entry is a directory on the way to [p], and [p] exists, so
    that a second call does nothing.  When [p] exists already, be it as a
    file, nothing happens.  When [p] does not exist and a file lies on
    the way to it, the call throws [ENOTDIR] and nothing has been made. *)
Theorem ensureDir_makes_directories_only (h : host) (p : string) (s : state) :
  canonical p = true ->
  Fs.key (disk h) p
  = (if Path.isAbsolute p then [] else Fs.key (disk h) ".")
    ++ List.filter is_proper (Path.split p) /\
  (forall s1, ensureDir h p s = (Ret tt, s1) ->
     requests s1 = requests s /\
     extends (files s) (files s1) /\
     (forall k n, files s1 !! k = Some n ->
        files s !! k = Some n \/
        (n = Dir /\ files s !! k = None /\ k `prefix_of` Fs.key (disk h) p)) /\
     Fs.existsSync (disk h) (files s1) p = true /\
     ensureDir h p s1 = (Ret tt, s1)) /\
  (Fs.existsSync (disk h) (files s) p = true -> ensureDir h p s = (Ret tt, s)) /\
  (forall k d,
     Fs.existsSync (disk h) (files s) p = false ->
     k `prefix_of` Fs.key (disk h) p -> Fs.stat (files s) k = Some (File d) ->
     ensureDir h p s = (Throw (SystemError "ENOTDIR"), s)).
Proof.
  intros Hcanonical. split; [now apply key_canonical|]. split; [|split].
  - intros s1 Hrun.
    destruct (ensureDir_ok h p s s1 Hrun) as (Hreq & Hext & Hex).
    repeat split; try assumption.
    + exact (ensureDir_new h p s s1 Hrun).
    + rewrite ensureDir_run. now rewrite Hex.
  - intros Hex. rewrite ensureDir_run. now rewrite Hex.
  - intros k d Hex Hpre Hfile. rewrite ensureDir_run, Hex.
    destruct k as [|x k]; [discriminate|]. simpl in Hfile.
    unfold Fs.mkdirSync.
    now rewrite (mkdirs_blocked _ [] (files s) (x :: k) d).
Qed.

Lemma ensureDir_makes_directories_only_witness :
  let s1 := (ensureDir Scenario.linux "/home/u/.minecraft/config/sub"
               (Scenario.fresh Scenario.installed)).2 in
  files s1 !! (Scenario.mc ++ ["config"; "sub"]) = Some Dir /\
  extends Scenario.installed (files s1) /\
  ensureDir Scenario.linux "/home/u/.minecraft/config/sub" s1 = (Ret tt, s1) /\
  ensureDir Scenario.linux "/home/u/.minecraft/mods/old.jar/sub"
    (Scenario.fresh Scenario.installed)
  = (Throw (SystemError "ENOTDIR"), Scenario.fresh Scenario.installed).
Proof.
  cbv zeta.
  destruct (ensureDir_makes_directories_only Scenario.linux
              "/home/u/.minecraft/config/sub" (Scenario.fresh Scenario.installed)
              eq_refl)
    as (_ & Hret & _).
  assert (Hrun : (ensureDir Scenario.linux "/home/u/.minecraft/config/sub"
                    (Scenario.fresh Scenario.installed)).1 = Ret tt)
    by (vm_compute; reflexivity).
  destruct (Hret _ (run_eta _ _ Hrun)) as (_ & Hext & _ & _ & Hagain).
  destruct (ensureDir_makes_directories_only Scenario.linux
              "/home/u/.minecraft/mods/old.jar/sub" (Scenario.fresh Scenario.installed)
              eq_refl)
    as (_ & _ & _ & Hthrow).
  split; [|split; [|split]].
  - vm_compute. reflexivity.
  - exact Hext.
  - exact Hagain.
  - apply (Hthrow (Scenario.mc ++ ["mods"; "old.jar"]) (Text "OLD")).
    + vm_compute. reflexivity.
    + exists ["sub"]. vm_compute. reflexivity.
    + vm_compute. reflexivity.
Defined.

(** ** What a run reaches *)

Lemma confined_refl K s : confined K s s.
Proof. split; auto. Qed.

Lemma confined_trans K a b c : confined K a b -> confined K b c -> confined K a c.
Proof.
  intros [G1 F1] [G2 F2]. split; [eauto|].
  intros k d H. destruct (F2 k d H) as [H'|]; [|auto]. destruct (F1 k d H'); auto.
Qed.

Lemma confined_weaken (K K' : list string -> Prop) s s' :
  (forall k, K k -> K' k) -> confined K s s' -> confined K' s s'.
Proof.
  intros HK [G F]. split; [intros k n Hk; apply G; auto|].
  intros k d H. destruct (F k d H); auto.
Qed.

Lemma confined_same_files K s s' : files s' = files s -> confined K s s'.
Proof. intros H. unfold confined. rewrite H. auto. Qed.

Section Confined.
Variable h : host.
Variable K : list string -> Prop.

Lemma c_ret {A} (a : A) : keeps (confined K) (ret a).
Proof. apply keeps_ret, confined_refl. Qed.

Lemma c_throw {A} e : keeps (confined K) (@throw A e).
Proof. apply keeps_throw, confined_refl. Qed.

Lemma c_crash {A} e : keeps (confined K) (@crash A e).
Proof. apply keeps_crash, confined_refl. Qed.

Lemma c_bind {A B} (c : M A) (k : A -> M B) :
  keeps (confined K) c -> (forall a, keeps (confined K) (k a)) ->
  keeps (confined K) (bind c k).
Proof. apply keeps_bind, confined_trans. Qed.

Lemma c_try_catch {A} (c : M A) (handler : exn -> M A) :
  keeps (confined K) c -> (forall e, keeps (confined K) (handler e)) ->
  keeps (confined K) (try_catch c handler).
Proof. apply keeps_try_catch, confined_trans. Qed.

Lemma confined_existsSync p : keeps (confined K) (existsSync h p).
Proof. apply keeps_reads, confined_refl. Qed.

Lemma confined_mkdirSync p : keeps (confined K) (mkdirSync h p).
Proof.
  intros s. unfold mkdirSync. rewrite writes_run.
  destruct (Fs.mkdirSync (disk h) (files s) p) as [t|e] eqn:Hm;
    [|apply confined_refl].
  split; simpl.
  - intros k n _. eapply FsFacts.mkdirSync_extends, Hm.
  - intros k d Hk. left.
    destruct (mkdirs_new _ _ _ _ _ _ Hm Hk) as [H|(H & _)]; [assumption|discriminate].
Qed.

Lemma confined_ensureDir p : keeps (confined K) (ensureDir h p).
Proof.
  apply c_bind; [apply confined_existsSync|].
  intros []; [apply c_ret|apply confined_mkdirSync].
Qed.

Lemma confined_request url : keeps (confined K) (request h url).
Proof.
  intros s. unfold request. destruct url; try apply confined_refl.
  destruct (get h _ _); apply confined_same_files; reflexivity.
Qed.

Lemma confined_createWriteStream dest :
  K (Fs.key (disk h) dest) -> keeps (confined K) (createWriteStream h dest).
Proof.
  intros HK s. rewrite createWriteStream_run.
  destruct (Fs.writeFileSync _ _ _ _) as [t|e] eqn:Hw; [|apply confined_refl].
  apply FsFacts.writeFileSync_ok in Hw as [-> _]. split; simpl.
  - intros k n Hk. rewrite lookup_insert_ne; congruence.
  - intros k d Hf. destruct (decide (Fs.key (disk h) dest = k)) as [<-|Hne]; [auto|].
    left. now rewrite lookup_insert_ne in Hf.
Qed.

Lemma confined_discard dest :
  K (Fs.key (disk h) dest) -> keeps (confined K) (discard h dest).
Proof.
  intros HK s. rewrite discard_run.
  destruct (Fs.unlink _ _ _) as [t|e] eqn:Hu; [|apply confined_refl].
  apply FsFacts.unlink_ok in Hu as [-> _]. split; simpl.
  - intros k n Hk. rewrite lookup_delete_ne; congruence.
  - intros k d Hf. left. now apply lookup_delete_Some in Hf.
Qed.

Lemma confined_pipe dest body :
  K (Fs.key (disk h) dest) -> keeps (confined K) (pipe h dest body).
Proof.
  intros HK s. unfold pipe. rewrite writes_run. unfold Fs.fill. split; simpl.
  - intros k n Hk. rewrite lookup_alter_ne; congruence.
  - intros k d Hf. destruct (decide (Fs.key (disk h) dest = k)) as [<-|Hne]; [auto|].
    left. now rewrite lookup_alter_ne in Hf.
Qed.

Lemma confined_downloadFile url dest :
  K (Fs.key (disk h) dest) -> keeps (confined K) (downloadFile h url dest).
Proof.
  intros HK. unfold downloadFile.
  apply c_bind; [apply confined_ensureDir|]. intros _.
  apply c_bind; [now apply confined_createWriteStream|]. intros [[]|e].
  - apply c_bind; [apply confined_request|]. intros [|reason|status body].
    + apply c_throw.
    + apply c_bind; [now apply confined_discard|]. intros _. apply c_throw.
    + destruct (negb (Z.eqb status 200)).
      * apply c_bind; [now apply confined_discard|]. intros _. apply c_throw.
      * now apply confined_pipe.
  - apply c_bind; [|intros _; apply c_crash].
    apply c_try_catch; [|intros _; apply c_ret].
    apply c_bind; [apply confined_request|]. intros _. apply c_ret.
Qed.

Lemma confined_placeItem root item :
  (usable item = true ->
   forall dest, destPath root item = Ok dest -> K (Fs.key (disk h) dest)) ->
  keeps (confined K) (placeItem h root item).
Proof.
  intros HK. unfold placeItem.
  destruct (usable item); [|apply c_ret].
  destruct (destPath root item) as [dest|e] eqn:Hd; intros s; unfold bind; simpl.
  - apply confined_downloadFile. now apply HK.
  - apply confined_refl.
Qed.

Lemma confined_rmSync target :
  (forall k, Fs.key (disk h) target `prefix_of` k -> K k) ->
  keeps (confined K) (rmSync h target).
Proof.
  intros HK s. unfold rmSync. rewrite writes_run.
  destruct (Fs.rmSync (disk h) (files s) target) as [t|e] eqn:Hrm;
    [|apply confined_refl].
  split; simpl.
  - intros k n Hk. rewrite (FsFacts.rmSync_lookup _ _ _ _ k Hrm).
    destruct (decide _) as [Hpre|]; [|auto]. now destruct Hk; apply HK.
  - intros k d. rewrite (FsFacts.rmSync_lookup _ _ _ _ k Hrm).
    destruct (decide _); [discriminate|auto].
Qed.

Lemma confined_resetFolder root folder :
  (forall k, Fs.key (disk h) (Path.join root folder) `prefix_of` k -> K k) ->
  keeps (confined K) (resetFolder h root folder).
Proof.
  intros HK. unfold resetFolder.
  apply c_bind; [apply confined_existsSync|]. intros []; [|apply c_ret].
  apply c_try_catch; [now apply confined_rmSync|]. intros _. apply c_ret.
Qed.

Lemma confined_reset mode root :
  (JS.is_str mode "full" = true -> forall k, in_wellKnown (disk h) root k -> K k) ->
  keeps (confined K) (reset h mode root).
Proof.
  intros HK. unfold reset. destruct (JS.is_str mode "full"); [|apply c_ret].
  apply keeps_forEach; [apply confined_refl|apply confined_trans|].
  apply Forall_forall. intros folder Hin. apply confined_resetFolder.
  intros k Hk. apply HK; [reflexivity|]. exists folder.
  split; [now apply list_elem_of_In|assumption].
Qed.

End Confined.

(** What [downloadFile] comes to once the directory is there and the
    destination is open. *)
Lemma downloadFile_opened h url dest s s1 t2 :
  ensureDir h (Path.dirname dest) s = (Ret tt, s1) ->
  Fs.writeFileSync (disk h) (files s1) dest (Text "") = Ok t2 ->
  downloadFile h url dest s =
  match url with
  | VStr u =>
      let asked := {| files := t2; requests := requests s1 ++ [u] |} in
      match get h (Str.startsWith "https:" u) u with
      | Refused => (Throw InvalidUrl, {| files := t2; requests := requests s1 |})
      | Failed reason => (Throw (RequestError reason), (discard h dest asked).2)
      | Response status body =>
          if Z.eqb status 200
          then (Ret tt, {| files := <[Fs.key (disk h) dest := File (Text body)]> (files s1);
                           requests := requests s1 ++ [u] |})
          else (Throw (DownloadFailed status), (discard h dest asked).2)
      end
  | _ => (Throw TypeError, {| files := t2; requests := requests s1 |})
  end.
Proof.
  intros Hdir Hopen. unfold downloadFile, bind. rewrite Hdir, createWriteStream_run, Hopen.
  apply FsFacts.writeFileSync_ok in Hopen as [-> _].
  destruct url as [| | | |u| |]; try reflexivity.
  unfold request. destruct (get h (Str.startsWith "https:" u) u) as [|reason|status body];
    [reflexivity| |]; unfold bind, note_request; simpl.
  - rewrite discard_run. simpl. now destruct (Fs.unlink _ _ _).
  - destruct (Z.eqb status 200); simpl.
    + unfold pipe. rewrite writes_run. simpl. unfold Fs.fill.
      now rewrite alter_insert_eq.
    + rewrite discard_run. simpl. now destruct (Fs.unlink _ _ _).
Qed.

(** X7.  Whatever the url and the reply, [downloadFile] removes or changes
    no entry other than its destination and makes no file anywhere else.
    (It may make directories: those [ensureDir] makes.) *)
Theorem downloadFile_touches_only_dest (h : host) (url : value) (dest : string)
    (s : state) (k : list string) :
  k <> Fs.key (disk h) dest ->
  let s' := (downloadFile h url dest s).2 in
  (forall n, files s !! k = Some n -> files s' !! k = Some n) /\
  (forall d, files s' !! k = Some (File d) -> files s !! k = Some (File d)).
Proof.
  intros Hk s'.
  destruct (confined_downloadFile h (λ k, k = Fs.key (disk h) dest) url dest eq_refl s)
    as [Hkept Hnew].
  split; [intros n; now apply Hkept|].
  intros d Hd. now destruct (Hnew k d Hd).
Qed.

Lemma downloadFile_touches_only_dest_witness :
  let s' := (downloadFile Scenario.linux (VStr "http://x/missing.jar")
               "/home/u/.minecraft/mods/new.jar" (Scenario.fresh Scenario.installed)).2 in
  (forall n, Scenario.installed !! (Scenario.mc ++ ["mods"; "old.jar"]) = Some n ->
             files s' !! (Scenario.mc ++ ["mods"; "old.jar"]) = Some n) /\
  (forall d, files s' !! (Scenario.mc ++ ["mods"; "old.jar"]) = Some (File d) ->
             Scenario.installed !! (Scenario.mc ++ ["mods"; "old.jar"]) = Some (File d)).
Proof.
  apply (downloadFile_touches_only_dest Scenario.linux (VStr "http://x/missing.jar")
           "/home/u/.minecraft/mods/new.jar" (Scenario.fresh Scenario.installed)).
  vm_compute. discriminate.
Defined.

Lemma silent_refl s : silent s s.
Proof. reflexivity. Qed.

Lemma silent_trans a b c : silent a b -> silent b c -> silent a c.
Proof. unfold silent. congruence. Qed.

Lemma silent_ensureDir h p : keeps silent (ensureDir h p).
Proof.
  intros s. rewrite ensureDir_run. destruct (Fs.existsSync _ _ _); [reflexivity|].
  now destruct (Fs.mkdirSync _ _ _).
Qed.

Lemma downloadFile_resolved h url dest s s' :
  downloadFile h url dest s = (Ret tt, s') ->
  exists u body s1 t2,
    url = VStr u /\
    get h (Str.startsWith "https:" u) u = Response 200 body /\
    ensureDir h (Path.dirname dest) s = (Ret tt, s1) /\
    Fs.writeFileSync (disk h) (files s1) dest (Text "") = Ok t2 /\
    s' = {| files := <[Fs.key (disk h) dest := File (Text body)]> (files s1);
            requests := requests s1 ++ [u] |}.
Proof.
  intros Hrun.
  destruct (ensureDir h (Path.dirname dest) s) as [[[]|e|e] s1] eqn:Hdir;
    try (unfold downloadFile, bind in Hrun; rewrite Hdir in Hrun; discriminate).
  destruct (Fs.writeFileSync (disk h) (files s1) dest (Text "")) as [t2|e] eqn:Hopen.
  - rewrite (downloadFile_opened h url dest s s1 t2 Hdir Hopen) in Hrun.
    destruct url as [| | | |u| |]; try discriminate. cbv zeta in Hrun.
    destruct (get h (Str.startsWith "https:" u) u) as [|reason|status body] eqn:Hget;
      try discriminate.
    destruct (Z.eqb status 200) eqn:Hstatus; [|discriminate].
    apply Z.eqb_eq in Hstatus as ->. injection Hrun as <-.
    exists u, body, s1, t2. auto.
  - unfold downloadFile, bind in Hrun.
    rewrite Hdir, createWriteStream_run, Hopen in Hrun.
    unfold try_catch, bind in Hrun.
    destruct (request h url s1) as [[?|?|?] ?]; discriminate.
Qed.

(** X8.  For a canonical destination: [downloadFile] resolves only when
    the url is a string and the reply to it had status 200 (and the
    directory of the destination could be ensured and the destination
    opened); the destination then holds the body of the reply, whatever it
    held before, the rest of the tree is as [ensureDir] left it, and the
    url has been added to the requests made. *)
Theorem downloadFile_resolves_only_with_the_body (h : host) (url : value)
    (dest : string) (s s' : state) :
  canonical dest = true ->
  downloadFile h url dest s = (Ret tt, s') ->
  exists u body s1,
    url = VStr u /\
    get h (Str.startsWith "https:" u) u = Response 200 body /\
    ensureDir h (Path.dirname dest) s = (Ret tt, s1) /\
    files s' !! Fs.key (disk h) dest = Some (File (Text body)) /\
    (forall k, k <> Fs.key (disk h) dest -> files s' !! k = files s1 !! k) /\
    requests s' = requests s ++ [u].
Proof.
  intros _ Hrun.
  apply downloadFile_resolved in Hrun as (u & body & s1 & t2 & -> & Hget & Hdir & _ & ->).
  exists u, body, s1. simpl. repeat split; try assumption.
  - apply lookup_insert_eq.
  - intros k Hk. now apply lookup_insert_ne.
  - pose proof (silent_ensureDir h (Path.dirname dest) s) as Hs.
    rewrite Hdir in Hs. unfold silent in Hs. simpl in Hs. now rewrite Hs.
Qed.

Lemma downloadFile_resolves_only_with_the_body_witness :
  let after := downloadFile Scenario.linux (VStr "http://x/a.jar")
                 "/home/u/.minecraft/mods/old.jar" (Scenario.fresh Scenario.installed) in
  exists u body s1,
    VStr "http://x/a.jar" = VStr u /\
    get Scenario.linux (Str.startsWith "https:" u) u = Response 200 body /\
    ensureDir Scenario.linux (Path.dirname "/home/u/.minecraft/mods/old.jar")
      (Scenario.fresh Scenario.installed) = (Ret tt, s1) /\
    files after.2 !! Fs.key (disk Scenario.linux) "/home/u/.minecraft/mods/old.jar"
    = Some (File (Text body)) /\
    (forall k, k <> Fs.key (disk Scenario.linux) "/home/u/.minecraft/mods/old.jar" ->
               files after.2 !! k = files s1 !! k) /\
    requests after.2 = [] ++ [u].
Proof.
  apply (downloadFile_resolves_only_with_the_body Scenario.linux (VStr "http://x/a.jar")
           "/home/u/.minecraft/mods/old.jar" (Scenario.fresh Scenario.installed));
    [reflexivity|].
  apply run_eta. vm_compute. reflexivity.
Defined.

Lemma request_run h url s :
  request h url s =
  match url with
  | VStr u =>
      match get h (Str.startsWith "https:" u) u with
      | Refused => (Throw InvalidUrl, s)
      | r => (Ret r, {| files := files s; requests := requests s ++ [u] |})
      end
  | _ => (Throw TypeError, s)
  end.
Proof.
  unfold request. destruct url as [| | | |u| |]; try reflexivity.
  now destruct (get h (Str.startsWith "https:" u) u).
Qed.

(** What [downloadFile] comes to when the destination cannot be opened. *)
Lemma downloadFile_not_opened h url dest s s1 e :
  ensureDir h (Path.dirname dest) s = (Ret tt, s1) ->
  Fs.writeFileSync (disk h) (files s1) dest (Text "") = Err e ->
  downloadFile h url dest s = (Crash e, (request h url s1).2).
Proof.
  intros Hdir Hopen. unfold downloadFile, bind.
  rewrite Hdir, createWriteStream_run, Hopen. unfold try_catch, bind.
  rewrite request_run. destruct url as [| | | |u| |]; try reflexivity.
  now destruct (get h (Str.startsWith "https:" u) u).
Qed.

(** X9.  For a canonical destination and a url that a server answers
    with a status: when the directory could be ensured and the destination
    then cannot be opened for writing (it is a directory, say),
    [downloadFile] neither resolves nor rejects.  The write stream's
    ['error'] has no listener and brings the process down, with the error
    of the open, before the reply can come; the tree is as [ensureDir]
    left it and the request has been sent all the same. *)
Theorem downloadFile_crashes_when_dest_cannot_open (h : host) (u dest : string)
    (s s1 : state) (e : exn) (status : Z) (body : string) :
  canonical dest = true ->
  get h (Str.startsWith "https:" u) u = Response status body ->
  ensureDir h (Path.dirname dest) s = (Ret tt, s1) ->
  Fs.writeFileSync (disk h) (files s1) dest (Text "") = Err e ->
  downloadFile h (VStr u) dest s
  = (Crash e, {| files := files s1; requests := requests s ++ [u] |}).
Proof.
  intros _ Hget Hdir Hopen.
  rewrite (downloadFile_not_opened h (VStr u) dest s s1 e Hdir Hopen), request_run, Hget.
  pose proof (silent_ensureDir h (Path.dirname dest) s) as Hs.
  rewrite Hdir in Hs. unfold silent in Hs. simpl in Hs. now rewrite Hs.
Qed.

Lemma downloadFile_crashes_when_dest_cannot_open_witness :
  let after := downloadFile Scenario.linux (VStr "http://x/a.jar")
                 "/home/u/.minecraft/mods" (Scenario.fresh Scenario.installed) in
  after.1 = Crash (SystemError "EISDIR") /\
  requests after.2 = [] ++ ["http://x/a.jar"].
Proof.
  cbv zeta.
  rewrite (downloadFile_crashes_when_dest_cannot_open Scenario.linux
             "http://x/a.jar" "/home/u/.minecraft/mods"
             (Scenario.fresh Scenario.installed)
             (ensureDir Scenario.linux (Path.dirname "/home/u/.minecraft/mods")
                (Scenario.fresh Scenario.installed)).2
             (SystemError "EISDIR") 200 "JAR").
  - split; reflexivity.
  - reflexivity.
  - reflexivity.
  - apply run_eta. vm_compute. reflexivity.
  - vm_compute. reflexivity.
Defined.

(** ** The answers of [POST /install-files] *)

(** X10.  [POST /install-files] lets no exception out: whatever is thrown
    is answered with status 500.  The answer is 400 exactly when [items]
    is not a list or is empty, and a success carries the truthiness of
    [autoTerminate], which decides whether the exit is scheduled. *)
Theorem install_files_always_answers (h : host) (body : value) (s : state) :
  let req := bodyOf body in
  let answer := (install_files h body s).1 in
  (forall e, answer <> Throw e) /\
  (answer = Ret BadRequest <-> noItems (JS.get req "items") = true) /\
  (forall b, answer = Ret (Success b) ->
     b = JS.truthy (JS.get req "autoTerminate") /\
     noItems (JS.get req "items") = false).
Proof.
  cbv zeta. unfold install_files.
  destruct (noItems (JS.get (bodyOf body) "items")).
  - simpl. repeat split; try discriminate; auto.
  - unfold try_catch, bind.
    destruct (prepare h _ _ _ s) as [[root|e|e] s1]; simpl;
      [destruct (forEach (placeItem h root) _ s1) as [[[]|e|e] s2]; simpl| |];
      repeat split; try discriminate; try congruence.
Qed.

Lemma install_files_always_answers_witness :
  true = JS.truthy (JS.get (bodyOf (VObj [("mode", VStr "full"); ("autoTerminate", VBool true);
                    ("items", VArr [VNull])])) "autoTerminate").
Proof.
  apply (install_files_always_answers Scenario.linux
           (VObj [("mode", VStr "full"); ("autoTerminate", VBool true);
                  ("items", VArr [VNull])])
           (Scenario.fresh Scenario.installed)).
  vm_compute. reflexivity.
Defined.

(** ** The requests a batch makes *)

Lemma silent_discard h dest : keeps silent (discard h dest).
Proof. intros s. rewrite discard_run. now destruct (Fs.unlink _ _ _). Qed.

Lemma silent_resetFolder h root folder : keeps silent (resetFolder h root folder).
Proof.
  intros s. unfold resetFolder, bind. rewrite existsSync_run.
  destruct (Fs.existsSync _ _ _); [|reflexivity].
  unfold try_catch, rmSync. rewrite writes_run. now destruct (Fs.rmSync _ _ _).
Qed.

Lemma silent_reset h mode root : keeps silent (reset h mode root).
Proof.
  unfold reset. destruct (JS.is_str mode "full"); [|apply keeps_ret, silent_refl].
  apply keeps_forEach; [apply silent_refl|apply silent_trans|].
  apply Forall_forall. intros folder _. apply silent_resetFolder.
Qed.

Lemma silent_prepare h mode gameDir instanceId :
  keeps silent (prepare h mode gameDir instanceId).
Proof.
  unfold prepare. apply keeps_bind; [apply silent_trans| |].
  - intros s. now rewrite resolveRoot_reads.
  - intros v. destruct v; try (apply keeps_throw, silent_refl).
    apply keeps_bind; [apply silent_trans|apply silent_ensureDir|]. intros _.
    apply keeps_bind; [apply silent_trans|apply silent_reset|]. intros _.
    apply keeps_ret, silent_refl.
Qed.

Lemma downloadFile_requests h url dest s :
  (requests (downloadFile h url dest s).2 = requests s \/
   exists u, url = VStr u /\ requests (downloadFile h url dest s).2 = requests s ++ [u]) /\
  ((downloadFile h url dest s).1 = Ret tt ->
   exists u, url = VStr u /\ requests (downloadFile h url dest s).2 = requests s ++ [u]).
Proof.
  pose proof (silent_ensureDir h (Path.dirname dest) s) as Hs. unfold silent in Hs.
  destruct (ensureDir h (Path.dirname dest) s) as [[[]|e|e] s1] eqn:Hdir; simpl in Hs.
  - destruct (Fs.writeFileSync (disk h) (files s1) dest (Text "")) as [t2|e] eqn:Hopen.
    + rewrite (downloadFile_opened h url dest s s1 t2 Hdir Hopen).
      destruct url as [| | | |u| |]; try (split; [left; exact Hs|discriminate]).
      cbv zeta. rewrite Hs.
      destruct (get h (Str.startsWith "https:" u) u) as [|reason|status body].
      * split; [left; reflexivity|discriminate].
      * split; [|discriminate]. right. exists u. split; [reflexivity|].
        simpl. apply (silent_discard h dest).
      * destruct (Z.eqb status 200); simpl.
        -- split; [right|intros _]; exists u; auto.
        -- split; [|discriminate]. right. exists u. split; [reflexivity|].
           apply (silent_discard h dest).
    + rewrite (downloadFile_not_opened h url dest s s1 e Hdir Hopen), request_run.
      destruct url as [| | | |u| |]; try (split; [left; exact Hs|discriminate]).
      split; [|discriminate].
      destruct (get h (Str.startsWith "https:" u) u); simpl; rewrite Hs; eauto.
  - unfold downloadFile, bind. rewrite Hdir. split; [left; exact Hs|discriminate].
  - unfold downloadFile, bind. rewrite Hdir. split; [left; exact Hs|discriminate].
Qed.

Lemma wanted_one item :
  wanted [item] = match urlOf item with Some u => [u] | None => [] end.
Proof. reflexivity. Qed.

Lemma wanted_cons item items : wanted (item :: items) = wanted [item] ++ wanted items.
Proof. unfold wanted. simpl. now destruct (urlOf item). Qed.

Lemma placeItem_requests h root item s :
  (requests (placeItem h root item s).2 = requests s \/
   requests (placeItem h root item s).2 = requests s ++ wanted [item]) /\
  ((placeItem h root item s).1 = Ret tt ->
   requests (placeItem h root item s).2 = requests s ++ wanted [item]).
Proof.
  rewrite wanted_one. unfold placeItem, urlOf.
  destruct (usable item) eqn:Hu.
  - destruct (destPath root item) as [dest|e]; unfold bind; simpl.
    + destruct (downloadFile_requests h (JS.get item "url") dest s) as [Hany Hret].
      split.
      * destruct Hany as [H|(u & Hurl & H)]; [now left|]. right.
        rewrite Hurl in H |- *. exact H.
      * intros Hr. destruct (Hret Hr) as (u & Hurl & H).
        rewrite Hurl in H |- *. exact H.
    + split; [now left|discriminate].
  - simpl. split; [now left|]. intros _. now rewrite app_nil_r.
Qed.

Lemma forEach_cons {A} (f : A -> M unit) x l s :
  forEach f (x :: l) s =
  match f x s with
  | (Ret _, s1) => forEach f l s1
  | (Throw e, s1) => (Throw e, s1)
  | (Crash e, s1) => (Crash e, s1)
  end.
Proof. reflexivity. Qed.

Lemma forEach_requests h root items : forall s,
  (exists l, requests (forEach (placeItem h root) items s).2 = requests s ++ l /\
             l `prefix_of` wanted items) /\
  ((forEach (placeItem h root) items s).1 = Ret tt ->
   requests (forEach (placeItem h root) items s).2 = requests s ++ wanted items).
Proof.
  induction items as [|item items IH]; intros s.
  - simpl. rewrite app_nil_r. split; [|reflexivity].
    exists []. now rewrite app_nil_r.
  - rewrite wanted_cons, forEach_cons.
    destruct (placeItem_requests h root item s) as [Hany Hret].
    destruct (placeItem h root item s) as [[[]|e|e] s1] eqn:Hp; simpl in Hany, Hret.
    + specialize (Hret eq_refl). destruct (IH s1) as [(l & Hl & Hpre) Hall]. split.
      * exists (wanted [item] ++ l). rewrite Hl, Hret, app_assoc.
        split; [reflexivity|now apply prefix_app].
      * intros Hr. rewrite (Hall Hr), Hret. now rewrite app_assoc.
    + split; [|discriminate]. simpl.
      destruct Hany as [H|H]; [exists []|exists (wanted [item])]; rewrite H.
      * rewrite app_nil_r. split; [reflexivity|apply prefix_nil].
      * split; [reflexivity|]. now apply prefix_app_r.
    + split; [|discriminate]. simpl.
      destruct Hany as [H|H]; [exists []|exists (wanted [item])]; rewrite H.
      * rewrite app_nil_r. split; [reflexivity|apply prefix_nil].
      * split; [reflexivity|]. now apply prefix_app_r.
Qed.

(** X11.  The requests [POST /install-files] makes are those for the urls
    of the items it does not skip, in the order of the list, up to the one
    at which the batch ends; nothing else is requested, and a batch that
    succeeds has requested each of them once per item. *)
Theorem install_files_requests (h : host) (body : value) (s : state) :
  let items := elements (JS.get (bodyOf body) "items") in
  let after := install_files h body s in
  (exists made, requests after.2 = requests s ++ made /\ made `prefix_of` wanted items) /\
  (forall b, after.1 = Ret (Success b) -> requests after.2 = requests s ++ wanted items).
Proof.
  cbv zeta. unfold install_files.
  assert (Hnone : exists made, requests s = requests s ++ made /\
                    made `prefix_of` wanted (elements (JS.get (bodyOf body) "items"))).
  { exists []. rewrite app_nil_r. split; [reflexivity|apply prefix_nil]. }
  destruct (noItems (JS.get (bodyOf body) "items")).
  - simpl. split; [exact Hnone|discriminate].
  - unfold try_catch, bind.
    pose proof (silent_prepare h (JS.get (bodyOf body) "mode")
                  (JS.get (bodyOf body) "gameDir")
                  (JS.get (bodyOf body) "instanceId") s) as Hs.
    unfold silent in Hs.
    destruct (prepare h _ _ _ s) as [[root|e|e] s1]; simpl in Hs.
    + destruct (forEach_requests h root (elements (JS.get (bodyOf body) "items")) s1)
        as [Hpre Hall].
      destruct (forEach (placeItem h root) _ s1) as [[[]|e|e] s2]; simpl in *;
        rewrite <- Hs; (split; [exact Hpre|]); try discriminate.
      intros b _. now apply Hall.
    + simpl. rewrite Hs. split; [exact Hnone|discriminate].
    + simpl. rewrite Hs. split; [exact Hnone|discriminate].
Qed.

Lemma install_files_requests_witness :
  let body := Scenario.request "full"
                [Scenario.item "mod" "http://x/a.jar" "a.jar"; VNull;
                 Scenario.item "resourcepack" "http://x/b.zip" "b.zip"] in
  requests (install_files Scenario.linux body (Scenario.fresh Scenario.installed)).2
  = [] ++ ["http://x/a.jar"; "http://x/b.zip"].
Proof.
  cbv zeta.
  apply (proj2 (install_files_requests Scenario.linux
                  (Scenario.request "full"
                     [Scenario.item "mod" "http://x/a.jar" "a.jar"; VNull;
                      Scenario.item "resourcepack" "http://x/b.zip" "b.zip"])
                  (Scenario.fresh Scenario.installed)) false).
  vm_compute. reflexivity.
Defined.

(** ** What a batch leaves *)

Lemma forEach_app {A} (f : A -> M unit) l1 l2 s :
  forEach f (l1 ++ l2) s =
  match forEach f l1 s with
  | (Ret _, s1) => forEach f l2 s1
  | (Throw e, s1) => (Throw e, s1)
  | (Crash e, s1) => (Crash e, s1)
  end.
Proof.
  revert s. induction l1 as [|x l1 IH]; intros s; [reflexivity|].
  simpl app. rewrite !forEach_cons.
  destruct (f x s) as [[[]|e|e] s1]; auto.
Qed.

Lemma placeItem_placed h root item s s' :
  usable item = true ->
  placeItem h root item s = (Ret tt, s') ->
  exists u dest body,
    JS.get item "url" = VStr u /\
    destPath root item = Ok dest /\
    get h (Str.startsWith "https:" u) u = Response 200 body /\
    files s' !! Fs.key (disk h) dest = Some (File (Text body)).
Proof.
  intros Hu. unfold placeItem. rewrite Hu.
  destruct (destPath root item) as [dest|e]; unfold bind; simpl; [|discriminate].
  intros Hrun.
  apply downloadFile_resolved in Hrun as (u & body & s1 & t2 & Hurl & Hget & _ & _ & ->).
  exists u, dest, body. simpl. now rewrite lookup_insert_eq.
Qed.

Lemma quiet_forEach_placeItem h root items s :
  quiet (destination (disk h) root items) s (forEach (placeItem h root) items s).2.
Proof.
  apply keeps_forEach; [apply quiet_refl|apply quiet_trans|].
  apply Forall_forall. intros item Hin. apply keeps_placeItem.
  intros Hu dest Hd. exists item, dest. rewrite list_elem_of_In in Hin. auto.
Qed.

Lemma confined_forEach_placeItem h root items s :
  confined (destination (disk h) root items) s (forEach (placeItem h root) items s).2.
Proof.
  apply keeps_forEach; [apply confined_refl|apply confined_trans|].
  apply Forall_forall. intros item Hin. apply confined_placeItem.
  intros Hu dest Hd. exists item, dest. rewrite list_elem_of_In in Hin. auto.
Qed.

(** X12.  When [POST /install-files] answers with success, every item
    that was not skipped had a string for url, was fetched with status
    200, and its destination holds the body of the reply, unless an item
    further down the list has the same destination. *)
Theorem success_places_every_item (h : host) (body : value) (s s' : state)
    (b : bool) (root : string) (s1 : state) (before : list value) (item : value)
    (after : list value) :
  let req := bodyOf body in
  install_files h body s = (Ret (Success b), s') ->
  prepare h (JS.get req "mode") (JS.get req "gameDir") (JS.get req "instanceId") s
    = (Ret root, s1) ->
  elements (JS.get req "items") = before ++ item :: after ->
  usable item = true ->
  exists u dest content,
    JS.get item "url" = VStr u /\
    destPath root item = Ok dest /\
    get h (Str.startsWith "https:" u) u = Response 200 content /\
    (~ destination (disk h) root after (Fs.key (disk h) dest) ->
     files s' !! Fs.key (disk h) dest = Some (File (Text content))).
Proof.
  intros req Hrun Hprep Hitems Hu. unfold install_files in Hrun. fold req in Hrun.
  destruct (noItems (JS.get req "items")); [discriminate|].
  unfold try_catch, bind in Hrun. rewrite Hprep, Hitems, forEach_app in Hrun.
  destruct (forEach (placeItem h root) before s1) as [[[]|e|e] s2]; try discriminate.
  rewrite forEach_cons in Hrun.
  destruct (placeItem h root item s2) as [[[]|e|e] s3] eqn:Hplace; try discriminate.
  destruct (placeItem_placed h root item s2 s3 Hu Hplace)
    as (u & dest & content & Hurl & Hdest & Hget & Hfile).
  exists u, dest, content. repeat split; try assumption.
  intros Hlater.
  pose proof (quiet_forEach_placeItem h root after s3) as [_ Hkept].
  destruct (forEach (placeItem h root) after s3) as [[[]|e|e] s4]; try discriminate.
  injection Hrun as _ <-. now apply Hkept.
Qed.

Lemma success_places_every_item_witness :
  let body := Scenario.request "full"
                [Scenario.item "mod" "http://x/a.jar" "a.jar";
                 Scenario.item "resourcepack" "http://x/b.zip" "b.zip"] in
  exists u dest content,
    JS.get (Scenario.item "mod" "http://x/a.jar" "a.jar") "url" = VStr u /\
    destPath "/home/u/.minecraft" (Scenario.item "mod" "http://x/a.jar" "a.jar") = Ok dest /\
    get Scenario.linux (Str.startsWith "https:" u) u = Response 200 content /\
    (~ destination (disk Scenario.linux) "/home/u/.minecraft"
         [Scenario.item "resourcepack" "http://x/b.zip" "b.zip"]
         (Fs.key (disk Scenario.linux) dest) ->
     files (install_files Scenario.linux body (Scenario.fresh Scenario.installed)).2
       !! Fs.key (disk Scenario.linux) dest = Some (File (Text content))).
Proof.
  cbv zeta.
  apply (success_places_every_item Scenario.linux
           (Scenario.request "full"
              [Scenario.item "mod" "http://x/a.jar" "a.jar";
               Scenario.item "resourcepack" "http://x/b.zip" "b.zip"])
           (Scenario.fresh Scenario.installed) _ false "/home/u/.minecraft"
           (prepare Scenario.linux (VStr "full") VUndef (VStr "default")
              (Scenario.fresh Scenario.installed)).2
           [] (Scenario.item "mod" "http://x/a.jar" "a.jar")
           [Scenario.item "resourcepack" "http://x/b.zip" "b.zip"]).
  - apply run_eta. vm_compute. reflexivity.
  - apply run_eta. vm_compute. reflexivity.
  - reflexivity.
  - reflexivity.
Defined.

Lemma reset_returns h mode root s : exists s', reset h mode root s = (Ret tt, s').
Proof.
  unfold reset. destruct (JS.is_str mode "full"); [|now exists s].
  destruct (resetFolders_run h root wellKnown s wellKnown_plain) as (s' & Hrun & _).
  eauto.
Qed.

Lemma confined_prepare h mode gameDir instanceId s :
  confined (λ k, exists root,
              (prepare h mode gameDir instanceId s).1 = Ret root /\
              JS.is_str mode "full" = true /\ in_wellKnown (disk h) root k)
           s (prepare h mode gameDir instanceId s).2.
Proof.
  unfold prepare, bind. pose proof (resolveRoot_reads h gameDir instanceId s) as Hsame.
  destruct (resolveRoot h gameDir instanceId s) as [[v|e|e] s0]; simpl in Hsame; subst s0;
    try apply confined_refl.
  destruct v as [| | | |root| |]; try apply confined_refl.
  pose proof (confined_ensureDir h (λ _, False) root s) as Hdir.
  destruct (ensureDir h root s) as [[[]|e|e] s1]; simpl in Hdir;
    try (eapply confined_weaken; [|exact Hdir]; contradiction).
  destruct (reset_returns h mode root s1) as (s2 & Hreset).
  pose proof (confined_reset h
                (λ k, JS.is_str mode "full" = true /\ in_wellKnown (disk h) root k)
                mode root (λ Hm k Hk, conj Hm Hk) s1) as Hr.
  rewrite Hreset in Hr |- *. simpl in Hr |- *.
  eapply confined_trans.
  - eapply confined_weaken; [|exact Hdir]. contradiction.
  - eapply confined_weaken; [|exact Hr]. intros k [Hm Hk]. exists root. auto.
Qed.

(** X13.  Whatever the mode and the outcome, [POST /install-files] removes
    or changes no entry, and makes no file, anywhere but at the
    destinations of the items it does not skip and, in mode [full], in the
    three folders [mods], [config] and [resourcepacks] of the root. *)
Theorem install_files_reaches (h : host) (body : value) (s : state)
    (k : list string) :
  let req := bodyOf body in
  let after := install_files h body s in
  (forall root s1,
     prepare h (JS.get req "mode") (JS.get req "gameDir") (JS.get req "instanceId") s
       = (Ret root, s1) ->
     ~ destination (disk h) root (elements (JS.get req "items")) k /\
     (JS.is_str (JS.get req "mode") "full" = true -> ~ in_wellKnown (disk h) root k)) ->
  (forall n, files s !! k = Some n -> files after.2 !! k = Some n) /\
  (forall d, files after.2 !! k = Some (File d) -> files s !! k = Some (File d)).
Proof.
  intros req after Hout. subst after. unfold install_files. fold req.
  destruct (noItems (JS.get req "items")); [now split|].
  set (mode := JS.get req "mode") in *.
  set (gameDir := JS.get req "gameDir") in *.
  set (instanceId := JS.get req "instanceId") in *.
  set (items := elements (JS.get req "items")) in *.
  unfold try_catch, bind.
  pose proof (confined_prepare h mode gameDir instanceId s) as Hprep.
  destruct (prepare h mode gameDir instanceId s) as [[root|e|e] s1] eqn:Hrun;
    simpl in Hprep.
  - destruct (Hout root s1 eq_refl) as [Hdest Hfolders].
    assert (Hall : confined
                     (λ k, (JS.is_str mode "full" = true /\ in_wellKnown (disk h) root k)
                           \/ destination (disk h) root items k)
                     s (forEach (placeItem h root) items s1).2).
    { eapply confined_trans.
      - eapply confined_weaken; [|exact Hprep].
        intros q (root' & [= <-] & Hm & Hq). auto.
      - eapply confined_weaken; [|apply confined_forEach_placeItem]. auto. }
    assert (Hk : ~ ((JS.is_str mode "full" = true /\ in_wellKnown (disk h) root k)
                    \/ destination (disk h) root items k)).
    { intros [[Hm Hq]|Hq]; [now apply Hfolders|now apply Hdest]. }
    destruct Hall as [Hkept Hnew].
    destruct (forEach (placeItem h root) items s1) as [[[]|e|e] s2]; simpl in *;
      (split; [intros n; now apply Hkept|];
       intros d Hd; now destruct (Hnew k d Hd)).
  - destruct Hprep as [Hkept Hnew]. simpl. split.
    + intros n. apply Hkept. intros (root & [=] & _).
    + intros d Hd. destruct (Hnew k d Hd) as [|(root & [=] & _)]. assumption.
  - destruct Hprep as [Hkept Hnew]. simpl. split.
    + intros n. apply Hkept. intros (root & [=] & _).
    + intros d Hd. destruct (Hnew k d Hd) as [|(root & [=] & _)]. assumption.
Qed.

Lemma install_files_reaches_witness :
  let body := Scenario.request "full"
                [Scenario.item "mod" "http://x/a.jar" "a.jar"] in
  let after := install_files Scenario.linux body (Scenario.fresh Scenario.installed) in
  let k := Scenario.mc ++ ["versions"; "My Pack (v2)"] in
  (forall n, Scenario.installed !! k = Some n -> files after.2 !! k = Some n) /\
  (forall d, files after.2 !! k = Some (File d) -> Scenario.installed !! k = Some (File d)).
Proof.
  cbv zeta.
  apply (install_files_reaches Scenario.linux
           (Scenario.request "full" [Scenario.item "mod" "http://x/a.jar" "a.jar"])
           (Scenario.fresh Scenario.installed)
           (Scenario.mc ++ ["versions"; "My Pack (v2)"])).
  intros root s1 Hprep. apply (f_equal fst) in Hprep. vm_compute in Hprep.
  injection Hprep as <-. split.
  - intros (item & dest & [<-|[]] & _ & Hdest & Hkey).
    vm_compute in Hdest. injection Hdest as <-. vm_compute in Hkey. discriminate Hkey.
  - intros _ (folder & Hin & tail & Htail).
    destruct Hin as [<-|[<-|[<-|[]]]]; vm_compute in Htail; discriminate Htail.
Defined.

(** ** A full install *)

Lemma closed_covered t k : closed t = true -> k <> [] -> covered t k.
Proof.
  intros Hc Hk q [l ->]. induction l as [|x l IH] using rev_ind; intros Hq.
  - now rewrite app_nil_r in Hq.
  - apply IH. unfold closed in Hc. apply bool_decide_eq_true in Hc.
    destruct Hq as [n Hn]. pose proof (map_Forall_lookup_1 _ _ _ _ Hc Hn) as Hp.
    simpl in Hp. rewrite app_assoc, removelast_last in Hp.
    rewrite FsFacts.stat_lookup in Hp; [exact Hp|].
    destruct k; [contradiction|discriminate].
Qed.

Lemma key_join_prefix_inj (m : mount) root f g :
  plain f -> plain g ->
  Fs.key m (Path.join root f) `prefix_of` Fs.key m (Path.join root g) -> f = g.
Proof.
  intros Hf Hg. rewrite !key_join_plain by assumption. intros Hpre.
  apply prefix_app_inv in Hpre. now apply prefix_cons_inv_1 in Hpre.
Qed.

Lemma resetFolder_clears h root folder s :
  plain folder -> pinned (disk h) = ∅ ->
  covered (files s) (Fs.key (disk h) (Path.join root folder)) ->
  exists s',
    resetFolder h root folder s = (Ret tt, s') /\
    (forall q, Fs.key (disk h) (Path.join root folder) `prefix_of` q ->
               files s' !! q = None) /\
    (forall q, ~ Fs.key (disk h) (Path.join root folder) `prefix_of` q ->
               files s' !! q = files s !! q).
Proof.
  intros Hplain Hpin Hcov. unfold resetFolder, bind. rewrite existsSync_run.
  unfold Fs.existsSync.
  rewrite FsFacts.stat_lookup by (now apply key_join_plain_not_root).
  destruct (files s !! Fs.key (disk h) (Path.join root folder)) as [n|] eqn:Ht.
  - unfold try_catch, rmSync. rewrite writes_run.
    destruct (Fs.rmSync (disk h) (files s) (Path.join root folder)) as [t|e] eqn:Hrm.
    + eexists. split; [reflexivity|].
      split; intros q Hq; simpl; rewrite (FsFacts.rmSync_lookup _ _ _ _ q Hrm);
        destruct (decide _); try reflexivity; contradiction.
    + exfalso. unfold Fs.rmSync in Hrm.
      destruct (Fs.blocked _ _ _) eqn:Hb; [|discriminate].
      apply FsFacts.blocked_true in Hb as (q & Hq & _). rewrite Hpin in Hq.
      now apply elem_of_empty in Hq.
  - exists s. split; [reflexivity|]. split; [|reflexivity]. intros q Hq.
    destruct (files s !! q) as [n|] eqn:Hfq; [|reflexivity].
    destruct (Hcov q Hq) as [n' Hn']; [eauto|]. congruence.
Qed.

Lemma resetFolders_clear h root folders : forall s,
  Forall plain folders -> NoDup folders -> pinned (disk h) = ∅ ->
  Forall (λ f, covered (files s) (Fs.key (disk h) (Path.join root f))) folders ->
  exists s',
    forEach (resetFolder h root) folders s = (Ret tt, s') /\
    (forall f q, In f folders -> Fs.key (disk h) (Path.join root f) `prefix_of` q ->
                 files s' !! q = None) /\
    (forall q, files s !! q = None -> files s' !! q = None).
Proof.
  induction folders as [|f rest IH]; intros s Hplain Hnd Hpin Hcov.
  - exists s. split; [reflexivity|]. split; [intros f q []|auto].
  - apply Forall_cons in Hplain as [Hf Hrest]. apply NoDup_cons in Hnd as [Hnot Hnd].
    apply Forall_cons in Hcov as [Hcf Hcrest].
    destruct (resetFolder_clears h root f s Hf Hpin Hcf) as (s1 & Hrun & Hgone & Hsame).
    assert (Hnone : forall q, files s !! q = None -> files s1 !! q = None).
    { intros q Hq.
      destruct (decide (Fs.key (disk h) (Path.join root f) `prefix_of` q)) as [Hp|Hp].
      - now apply Hgone.
      - now rewrite Hsame. }
    destruct (IH s1 Hrest Hnd Hpin) as (s' & Hrun' & Hgone' & Hnone').
    { apply Forall_forall. intros g Hg q Hq Hthere.
      rewrite Forall_forall in Hcrest, Hrest.
      assert (Hkeep : ~ Fs.key (disk h) (Path.join root f)
                        `prefix_of` Fs.key (disk h) (Path.join root g)).
      { intros Hp. apply key_join_prefix_inj in Hp; [|assumption|now apply Hrest].
        now subst g. }
      rewrite Hsame by assumption. apply (Hcrest g Hg q Hq).
      destruct (files s !! q) as [n|] eqn:Hfq; [eauto|].
      rewrite (Hnone q Hfq) in Hthere. now destruct Hthere. }
    exists s'. split; [rewrite forEach_cons, Hrun; exact Hrun'|]. split.
    + intros g q [<-|Hg] Hq; [apply Hnone'; now apply Hgone|].
      now apply (Hgone' g).
    + auto.
Qed.

Lemma wellKnown_NoDup : NoDup wellKnown.
Proof. repeat constructor; rewrite ?list_elem_of_In; simpl; intuition discriminate. Qed.

(** After a full reset on a disk where everything can be removed, nothing
    is left in the three folders. *)
Lemma prepare_clears h mode gameDir instanceId s root s1 :
  prepare h mode gameDir instanceId s = (Ret root, s1) ->
  JS.is_str mode "full" = true -> pinned (disk h) = ∅ -> closed (files s) = true ->
  forall q, in_wellKnown (disk h) root q -> files s1 !! q = None.
Proof.
  intros Hprep Hfull Hpin Hclosed q (folder & Hin & Hq).
  destruct (prepare_ok h mode gameDir instanceId s root s1 Hprep) as (s0 & _ & Hdir & Hreset).
  unfold reset in Hreset. rewrite Hfull in Hreset.
  destruct (resetFolders_clear h root wellKnown s0 wellKnown_plain wellKnown_NoDup Hpin)
    as (s' & Hrun & Hgone & _).
  - apply Forall_forall. intros f Hf k Hk Hthere.
    pose proof wellKnown_plain as Hplain. rewrite Forall_forall in Hplain.
    specialize (Hplain f Hf).
    destruct (ensureDir_ok h root s s0 Hdir) as (_ & Hext & _).
    assert (Hold : is_Some (files s !! k)).
    { destruct Hthere as [n Hn].
      destruct (ensureDir_new h root s s0 Hdir k n Hn) as [H|(_ & _ & Hpre)]; [eauto|].
      exfalso. rewrite key_join_plain in Hk by assumption.
      apply (prefix_snoc_not (Fs.key (disk h) root) f). now transitivity k. }
    destruct (closed_covered (files s) _ Hclosed
                (key_join_plain_not_root (disk h) root f Hplain) k Hk Hold) as [n Hn].
    exists n. now apply Hext.
  - rewrite Hrun in Hreset. injection Hreset as <-. now apply (Hgone folder).
Qed.

(** X14.  A request in mode [full], on a disk where nothing is protected
    against removal, leaves in [mods], [config] and [resourcepacks] of the
    root no file but those of the request: whatever the outcome, every
    file found there afterwards is at the destination of an item that was
    not skipped. *)
Theorem full_install_leaves_only_the_request (h : host) (body : value) (s : state)
    (root : string) (s1 : state) (q : list string) (d : content) :
  let req := bodyOf body in
  let after := install_files h body s in
  noItems (JS.get req "items") = false ->
  JS.is_str (JS.get req "mode") "full" = true ->
  pinned (disk h) = ∅ ->
  closed (files s) = true ->
  prepare h (JS.get req "mode") (JS.get req "gameDir") (JS.get req "instanceId") s
    = (Ret root, s1) ->
  in_wellKnown (disk h) root q ->
  files after.2 !! q = Some (File d) ->
  destination (disk h) root (elements (JS.get req "items")) q.
Proof.
  intros req after Hitems Hfull Hpin Hclosed Hprep Hq Hfile. subst after.
  pose proof (prepare_clears h _ _ _ s root s1 Hprep Hfull Hpin Hclosed q Hq) as Hnone.
  unfold install_files in Hfile. fold req in Hfile. rewrite Hitems in Hfile.
  unfold try_catch, bind in Hfile. rewrite Hprep in Hfile.
  destruct (confined_forEach_placeItem h root (elements (JS.get req "items")) s1)
    as [_ Hnew].
  destruct (forEach (placeItem h root) _ s1) as [[[]|e|e] s2]; simpl in Hfile, Hnew;
    (destruct (Hnew q d Hfile) as [Hwas|Hdest]; [congruence|exact Hdest]).
Qed.

Lemma full_install_leaves_only_the_request_witness :
  destination (disk Scenario.linux) "/home/u/.minecraft"
    (elements (JS.get (bodyOf (Scenario.request "full"
                                 [Scenario.item "mod" "http://x/a.jar" "a.jar"])) "items"))
    (Scenario.mc ++ ["mods"; "a.jar"]).
Proof.
  apply (full_install_leaves_only_the_request Scenario.linux
           (Scenario.request "full" [Scenario.item "mod" "http://x/a.jar" "a.jar"])
           (Scenario.fresh Scenario.installed) "/home/u/.minecraft"
           (prepare Scenario.linux (VStr "full") VUndef (VStr "default")
              (Scenario.fresh Scenario.installed)).2
           (Scenario.mc ++ ["mods"; "a.jar"]) (Text "JAR")).
  - reflexivity.
  - reflexivity.
  - reflexivity.
  - vm_compute. reflexivity.
  - apply run_eta. vm_compute. reflexivity.
  - exists "mods". split; [simpl; auto|]. exists ["a.jar"]. vm_compute. reflexivity.
  - vm_compute. reflexivity.
Defined.

(** X15.  The first item whose placing throws ends the batch: the answer
    is status 500 with that error, the items after it are not looked at,
    and nothing is undone: the state is the one the failing item left,
    in which every file that the items before it had put anywhere but at
    the failing item's own destination is still in place. *)
Theorem batch_stops_at_first_failure (h : host) (body : value) (s : state)
    (root : string) (s1 s2 s3 : state) (before : list value) (item : value)
    (after : list value) (e : exn) :
  let req := bodyOf body in
  noItems (JS.get req "items") = false ->
  prepare h (JS.get req "mode") (JS.get req "gameDir") (JS.get req "instanceId") s
    = (Ret root, s1) ->
  elements (JS.get req "items") = before ++ item :: after ->
  forEach (placeItem h root) before s1 = (Ret tt, s2) ->
  placeItem h root item s2 = (Throw e, s3) ->
  install_files h body s = (Ret (ServerError e), s3) /\
  (forall k d, ~ destination (disk h) root [item] k ->
     files s2 !! k = Some (File d) -> files s3 !! k = Some (File d)).
Proof.
  intros req Hitems Hprep Hlist Hbefore Hitem. split.
  - unfold install_files. fold req. rewrite Hitems.
    unfold try_catch, bind. rewrite Hprep, Hlist, forEach_app, Hbefore, forEach_cons, Hitem.
    reflexivity.
  - pose proof (quiet_forEach_placeItem h root [item] s2) as [_ Hkept].
    rewrite forEach_cons, Hitem in Hkept. exact Hkept.
Qed.

Lemma batch_stops_at_first_failure_witness :
  let body := Scenario.request "patch"
                [Scenario.item "mod" "http://x/a.jar" "a.jar";
                 Scenario.item "mod" "http://down/a.jar" "b.jar";
                 Scenario.item "mod" "http://x/b.zip" "c.jar"] in
  let after := install_files Scenario.linux body (Scenario.fresh Scenario.installed) in
  after.1 = Ret (ServerError (RequestError "ECONNREFUSED")) /\
  files after.2 !! (Scenario.mc ++ ["mods"; "a.jar"]) = Some (File (Text "JAR")).
Proof.
  cbv zeta.
  pose (s1 := (prepare Scenario.linux (VStr "patch") VUndef (VStr "default")
                 (Scenario.fresh Scenario.installed)).2).
  pose (s2 := (forEach (placeItem Scenario.linux "/home/u/.minecraft")
                 [Scenario.item "mod" "http://x/a.jar" "a.jar"] s1).2).
  pose (s3 := (placeItem Scenario.linux "/home/u/.minecraft"
                 (Scenario.item "mod" "http://down/a.jar" "b.jar") s2).2).
  destruct (batch_stops_at_first_failure Scenario.linux
              (Scenario.request "patch"
                 [Scenario.item "mod" "http://x/a.jar" "a.jar";
                  Scenario.item "mod" "http://down/a.jar" "b.jar";
                  Scenario.item "mod" "http://x/b.zip" "c.jar"])
              (Scenario.fresh Scenario.installed) "/home/u/.minecraft" s1 s2 s3
              [Scenario.item "mod" "http://x/a.jar" "a.jar"]
              (Scenario.item "mod" "http://down/a.jar" "b.jar")
              [Scenario.item "mod" "http://x/b.zip" "c.jar"]
              (RequestError "ECONNREFUSED"))
    as [Hanswer Hkept].
  - reflexivity.
  - apply run_eta. vm_compute. reflexivity.
  - reflexivity.
  - apply run_eta. vm_compute. reflexivity.
  - apply run_eta. vm_compute. reflexivity.
  - rewrite Hanswer. split; [reflexivity|]. apply Hkept; [|vm_compute; reflexivity].
    intros (item & dest & [<-|[]] & _ & Hdest & Hkey).
    vm_compute in Hdest. injection Hdest as <-. vm_compute in Hkey. discriminate Hkey.
Defined.

(** ** [POST /install]: the archive *)

Lemma key_temp (m : mount) mcPath :
  Fs.key m (Endpoints.tempFileOf mcPath) = Fs.key m mcPath ++ ["temp_modpack.zip"].
Proof. apply key_join_plain. now split. Qed.

(** The reset leaves what is not in the three folders. *)
Lemma reset_outside h mode root s s' q :
  reset h mode root s = (Ret tt, s') ->
  ~ in_wellKnown (disk h) root q -> files s' !! q = files s !! q.
Proof.
  unfold reset. destruct (JS.is_str mode "full"); [|now intros [= <-]].
  destruct (resetFolders_run h root wellKnown s wellKnown_plain) as (s1 & Hrun & _ & Hsame & _).
  rewrite Hrun. intros [= <-] Hq. apply Hsame.
  apply Forall_forall. intros f Hf Hpre. apply Hq. exists f.
  split; [now apply list_elem_of_In|assumption].
Qed.

Lemma temp_not_in_wellKnown (m : mount) mcPath :
  ~ in_wellKnown m mcPath (Fs.key m (Endpoints.tempFileOf mcPath)).
Proof.
  intros (f & Hin & Hpre). pose proof wellKnown_plain as Hplain.
  rewrite Forall_forall in Hplain.
  assert (Hf : plain f) by now apply Hplain, list_elem_of_In.
  apply key_join_prefix_inj in Hpre; [|assumption|now split].
  subst f. simpl in Hin. intuition discriminate.
Qed.

(** X16.  [POST /install] fetches the archive before it resets anything:
    when the url is not a string, or its reply is not a status 200, the
    answer is not a success and, also in mode [full], no directory has
    gone and no file other than [temp_modpack.zip] in the game directory
    has gone or changed, whatever the archive library would have done. *)
Theorem zip_install_resets_after_download (h : host)
    (extractAllTo : string -> string -> M unit) (body : value) (s : state) :
  let req := bodyOf body in
  let after := Endpoints.install h extractAllTo body s in
  (forall u content, JS.get req "url" = VStr u ->
     get h (Str.startsWith "https:" u) u <> Response 200 content) ->
  (forall b, after.1 <> Ret (Success b)) /\
  (forall k, Fs.stat (files s) k = Some Dir -> Fs.stat (files after.2) k = Some Dir) /\
  (forall k d,
     (forall mcPath, getMinecraftPath h = Ok mcPath ->
                     k <> Fs.key (disk h) (Endpoints.tempFileOf mcPath)) ->
     files s !! k = Some (File d) -> files after.2 !! k = Some (File d)).
Proof.
  intros req after Hreply. subst after. unfold Endpoints.install. fold req.
  unfold try_catch, bind, lift.
  destruct (getMinecraftPath h) as [mcPath|e0]; [|simpl; repeat split; auto; discriminate].
  simpl.
  set (K := λ k, k = Fs.key (disk h) (Endpoints.tempFileOf mcPath)).
  pose proof (keeps_ensureDir h K mcPath s) as Hq1.
  destruct (ensureDir h mcPath s) as [[[]|e|e] s1]; simpl in Hq1.
  - pose proof (keeps_downloadFile h K (JS.get req "url") (Endpoints.tempFileOf mcPath)
                  eq_refl s1) as Hq2.
    destruct (downloadFile h (JS.get req "url") (Endpoints.tempFileOf mcPath) s1)
      as [[[]|e|e] s2] eqn:Hd; simpl in Hq2.
    + exfalso.
      apply downloadFile_resolved in Hd as (u & content & _ & _ & Hurl & Hget & _).
      exact (Hreply u content Hurl Hget).
    + destruct (quiet_trans _ _ _ _ Hq1 Hq2) as [Hdirs Hfiles]. simpl.
      split; [discriminate|]. split; [exact Hdirs|].
      intros k d Hk. apply Hfiles. now apply Hk.
    + destruct (quiet_trans _ _ _ _ Hq1 Hq2) as [Hdirs Hfiles]. simpl.
      split; [discriminate|]. split; [exact Hdirs|].
      intros k d Hk. apply Hfiles. now apply Hk.
  - destruct Hq1 as [Hdirs Hfiles]. simpl.
    split; [discriminate|]. split; [exact Hdirs|].
    intros k d Hk. apply Hfiles. now apply Hk.
  - destruct Hq1 as [Hdirs Hfiles]. simpl.
    split; [discriminate|]. split; [exact Hdirs|].
    intros k d Hk. apply Hfiles. now apply Hk.
Qed.

Lemma zip_install_resets_after_download_witness :
  let after := Endpoints.install Scenario.linux (Trials.extractAllTo Scenario.linux)
                 (Trials.zip_request "full" "http://x/missing.zip")
                 (Scenario.fresh Scenario.installed) in
  after.1 = Ret (ServerError (DownloadFailed 404)) /\
  files after.2 !! (Scenario.mc ++ ["mods"; "old.jar"]) = Some (File (Text "OLD")).
Proof.
  cbv zeta. split; [vm_compute; reflexivity|].
  apply (zip_install_resets_after_download Scenario.linux
           (Trials.extractAllTo Scenario.linux)
           (Trials.zip_request "full" "http://x/missing.zip")
           (Scenario.fresh Scenario.installed)).
  - intros u content Hurl. vm_compute in Hurl. injection Hurl as <-.
    vm_compute. discriminate.
  - intros mcPath Hmc. vm_compute in Hmc. injection Hmc as <-.
    vm_compute. discriminate.
  - vm_compute. reflexivity.
Defined.

(** X17.  [POST /install] answers with success only when the platform is
    known, the url is a string and its reply had status 200; the
    temporary archive [temp_modpack.zip] is then gone from the game
    directory, whatever the archive library did, and the success carries
    the truthiness of [autoTerminate]. *)
Theorem zip_install_success_removes_the_archive (h : host)
    (extractAllTo : string -> string -> M unit) (body : value) (s s' : state)
    (b : bool) :
  let req := bodyOf body in
  Endpoints.install h extractAllTo body s = (Ret (Success b), s') ->
  exists mcPath u content,
    getMinecraftPath h = Ok mcPath /\
    JS.get req "url" = VStr u /\
    get h (Str.startsWith "https:" u) u = Response 200 content /\
    files s' !! Fs.key (disk h) (Endpoints.tempFileOf mcPath) = None /\
    b = JS.truthy (JS.get req "autoTerminate").
Proof.
  intros req. unfold Endpoints.install. fold req. unfold try_catch, bind, lift.
  destruct (getMinecraftPath h) as [mcPath|e0]; [|discriminate]. simpl.
  destruct (ensureDir h mcPath s) as [[[]|e|e] s1]; try discriminate.
  destruct (downloadFile h (JS.get req "url") (Endpoints.tempFileOf mcPath) s1)
    as [[[]|e|e] s2] eqn:Hd; try discriminate.
  destruct (reset h (JS.get req "mode") mcPath s2) as [[[]|e|e] s3]; try discriminate.
  destruct (extractAllTo (Endpoints.tempFileOf mcPath) mcPath s3) as [[[]|e|e] s4];
    try discriminate.
  unfold Endpoints.unlinkSync, unlink. rewrite writes_run.
  destruct (Fs.unlink (disk h) (files s4) (Endpoints.tempFileOf mcPath)) as [t|e] eqn:Hu;
    [|discriminate].
  intros [= <- <-].
  apply downloadFile_resolved in Hd as (u & content & _ & _ & Hurl & Hget & _).
  apply FsFacts.unlink_ok in Hu as [-> _].
  exists mcPath, u, content. simpl. rewrite lookup_delete_eq. auto.
Qed.

Lemma zip_install_success_removes_the_archive_witness :
  exists mcPath u content,
    getMinecraftPath Scenario.linux = Ok mcPath /\
    JS.get (bodyOf (Trials.zip_request "full" "http://x/b.zip")) "url" = VStr u /\
    get Scenario.linux (Str.startsWith "https:" u) u = Response 200 content /\
    files (Endpoints.install Scenario.linux (Trials.extractAllTo Scenario.linux)
             (Trials.zip_request "full" "http://x/b.zip")
             (Scenario.fresh Scenario.installed)).2
      !! Fs.key (disk Scenario.linux) (Endpoints.tempFileOf mcPath) = None /\
    false = JS.truthy (JS.get (bodyOf (Trials.zip_request "full" "http://x/b.zip"))
                         "autoTerminate").
Proof.
  apply (zip_install_success_removes_the_archive Scenario.linux
           (Trials.extractAllTo Scenario.linux)
           (Trials.zip_request "full" "http://x/b.zip")
           (Scenario.fresh Scenario.installed)).
  apply run_eta. vm_compute. reflexivity.
Defined.

(** X18.  When the archive library throws, [POST /install] answers with
    status 500 and does nothing more: the state is the one the extraction
    left, after the reset; the archive was still in the game directory
    when the extraction began, the reset not reaching it, and the handler
    does not unlink it. *)
Theorem zip_extraction_failure_is_not_cleaned_up (h : host)
    (extractAllTo : string -> string -> M unit) (body : value)
    (s s1 s2 s3 s4 : state) (mcPath : string) (e : exn) :
  let req := bodyOf body in
  let tempFile := Endpoints.tempFileOf mcPath in
  getMinecraftPath h = Ok mcPath ->
  ensureDir h mcPath s = (Ret tt, s1) ->
  downloadFile h (JS.get req "url") tempFile s1 = (Ret tt, s2) ->
  reset h (JS.get req "mode") mcPath s2 = (Ret tt, s3) ->
  extractAllTo tempFile mcPath s3 = (Throw e, s4) ->
  Endpoints.install h extractAllTo body s = (Ret (ServerError e), s4) /\
  exists content, files s3 !! Fs.key (disk h) tempFile = Some (File (Text content)).
Proof.
  intros req tempFile Hmc Hdir Hd Hreset Hex. split.
  - unfold Endpoints.install. fold req. unfold try_catch, bind, lift.
    rewrite Hmc. simpl. fold tempFile. now rewrite Hdir, Hd, Hreset, Hex.
  - apply downloadFile_resolved in Hd as (u & content & s1' & t2 & _ & _ & _ & _ & ->).
    exists content. subst tempFile.
    rewrite (reset_outside h _ mcPath _ s3 _ Hreset (temp_not_in_wellKnown _ mcPath)).
    simpl. now rewrite lookup_insert_eq.
Qed.

Lemma zip_extraction_failure_is_not_cleaned_up_witness :
  let after := Endpoints.install Scenario.linux (Trials.extractAllTo Scenario.linux)
                 (Trials.zip_request "full" "http://x/a.jar")
                 (Scenario.fresh Scenario.installed) in
  after.1 = Ret (ServerError SyntaxError) /\
  files after.2 !! (Scenario.mc ++ ["temp_modpack.zip"]) = Some (File (Text "JAR")).
Proof.
  cbv zeta.
  pose (tempFile := Endpoints.tempFileOf "/home/u/.minecraft").
  pose (s1 := (ensureDir Scenario.linux "/home/u/.minecraft"
                 (Scenario.fresh Scenario.installed)).2).
  pose (s2 := (downloadFile Scenario.linux (VStr "http://x/a.jar") tempFile s1).2).
  pose (s3 := (reset Scenario.linux (VStr "full") "/home/u/.minecraft" s2).2).
  pose (s4 := (Trials.extractAllTo Scenario.linux tempFile "/home/u/.minecraft" s3).2).
  destruct (zip_extraction_failure_is_not_cleaned_up Scenario.linux
              (Trials.extractAllTo Scenario.linux)
              (Trials.zip_request "full" "http://x/a.jar")
              (Scenario.fresh Scenario.installed) s1 s2 s3 s4
              "/home/u/.minecraft" SyntaxError)
    as [Hanswer _].
  - reflexivity.
  - apply run_eta. vm_compute. reflexivity.
  - apply run_eta. vm_compute. reflexivity.
  - apply run_eta. vm_compute. reflexivity.
  - apply run_eta. vm_compute. reflexivity.
  - rewrite Hanswer. split; [reflexivity|]. vm_compute. reflexivity.
Defined.

(** ** The device token *)

Lemma key_token (h : host) :
  Fs.key (disk h) (Path.join (configDir h) "device_token.json")
  = Fs.key (disk h) (configDir h) ++ ["device_token.json"].
Proof. apply key_join_plain. now split. Qed.

Lemma storedToken_none h cp s data :
  Fs.key (disk h) cp <> [] ->
  files s !! Fs.key (disk h) cp = Some (File data) ->
  no_token data = true ->
  storedToken h cp s = (Ret None, s).
Proof.
  intros Hne Hfile Hno. unfold storedToken, try_catch, bind.
  rewrite existsSync_run. unfold Fs.existsSync.
  rewrite FsFacts.stat_lookup, Hfile by assumption.
  unfold readFileSync, tries, Fs.readFileSync.
  rewrite FsFacts.stat_lookup, Hfile by assumption.
  destruct data as [text|v]; [reflexivity|]. simpl in Hno |- *.
  unfold get_prop. destruct (JS.prop v "token") as [tok|]; [|reflexivity].
  simpl. now destruct (JS.truthy tok).
Qed.

(** X19.  A token file from which no token can be read (text that is not
    JSON, [null], an object without [token], a falsy [token]) is
    overwritten: the run returns a fresh UUID and the file then holds the
    record of that token; nothing else changes. *)
Theorem unreadable_token_is_replaced (h : host) (bits : N) (now : string)
    (s : state) (data : content) :
  let configPath := Path.join (configDir h) "device_token.json" in
  Fs.stat (files s) (Fs.key (disk h) (configDir h)) = Some Dir ->
  files s !! Fs.key (disk h) configPath = Some (File data) ->
  no_token data = true ->
  getOrCreateDeviceToken h bits now s =
  (Ret (VStr (randomUUID bits)),
   {| files := <[Fs.key (disk h) configPath := File (tokenRecord (randomUUID bits) now)]>
                 (files s);
      requests := requests s |}).
Proof.
  intros configPath Hdir Hfile Hno.
  assert (Hne : Fs.key (disk h) configPath <> []).
  { unfold configPath. rewrite key_token. now destruct (Fs.key (disk h) (configDir h)). }
  unfold getOrCreateDeviceToken, bind.
  rewrite (getConfigPath_again h s configPath eq_refl)
    by (unfold Fs.existsSync; now rewrite Hdir).
  rewrite (storedToken_none h configPath s data Hne Hfile Hno).
  unfold try_catch, writeFileSync. rewrite writes_run. unfold Fs.writeFileSync.
  rewrite (FsFacts.stat_lookup _ _ Hne), Hfile.
  unfold configPath at 1. rewrite key_token, removelast_last, Hdir. reflexivity.
Qed.

Lemma unreadable_token_is_replaced_witness :
  getOrCreateDeviceToken Scenario.linux 5 "2026-01-01T00:00:00.000Z"
    (Scenario.fresh Trials.token_is_junk)
  = (Ret (VStr (randomUUID 5)),
     {| files := <[Fs.key (disk Scenario.linux)
                     (Path.join (configDir Scenario.linux) "device_token.json")
                   := File (tokenRecord (randomUUID 5) "2026-01-01T00:00:00.000Z")]>
                   Trials.token_is_junk;
        requests := [] |}).
Proof.
  apply (unreadable_token_is_replaced Scenario.linux 5 "2026-01-01T00:00:00.000Z"
           (Scenario.fresh Trials.token_is_junk) (Text "{tok"));
    vm_compute; reflexivity.
Defined.

Lemma confined_writeFileSync h (K : list string -> Prop) p data :
  K (Fs.key (disk h) p) -> keeps (confined K) (writeFileSync h p data).
Proof.
  intros HK s. unfold writeFileSync. rewrite writes_run.
  destruct (Fs.writeFileSync _ _ _ _) as [t|e] eqn:Hw; [|apply confined_refl].
  apply FsFacts.writeFileSync_ok in Hw as [-> _]. split; simpl.
  - intros k n Hk. rewrite lookup_insert_ne; congruence.
  - intros k d Hf. destruct (decide (Fs.key (disk h) p = k)) as [<-|Hne]; [auto|].
    left. now rewrite lookup_insert_ne in Hf.
Qed.

Lemma silent_writes f : keeps silent (writes f).
Proof. intros s. rewrite writes_run. now destruct (f (files s)). Qed.

Lemma getConfigPath_value h s cp s1 :
  getConfigPath h s = (Ret cp, s1) -> cp = Path.join (configDir h) "device_token.json".
Proof. intros H. now apply getConfigPath_ok in H. Qed.

(** [bind], when something is known of what the first part returns. *)
Lemma keeps_bind_ret {A B} (R : state -> state -> Prop) (P : A -> Prop)
    (c : M A) (k : A -> M B) :
  (forall a b c, R a b -> R b c -> R a c) ->
  (forall s a s', c s = (Ret a, s') -> P a) ->
  keeps R c -> (forall a, P a -> keeps R (k a)) -> keeps R (bind c k).
Proof.
  intros Htrans Hval Hc Hk s. unfold bind. specialize (Hc s).
  destruct (c s) as [[a|e|e] s1] eqn:Hrun; simpl in *; try assumption.
  eapply Htrans; [exact Hc|]. apply Hk. eapply Hval, Hrun.
Qed.

Lemma silent_getOrCreateDeviceToken h bits now :
  keeps silent (getOrCreateDeviceToken h bits now).
Proof.
  unfold getOrCreateDeviceToken, getConfigPath.
  apply keeps_bind; [apply silent_trans| |].
  - apply keeps_bind; [apply silent_trans|apply keeps_reads, silent_refl|].
    intros there.
    apply keeps_bind; [apply silent_trans| |intros _; apply keeps_ret, silent_refl].
    destruct there; [apply keeps_ret, silent_refl|apply silent_writes].
  - intros cp. apply keeps_bind; [apply silent_trans| |].
    + intros s. destruct (storedToken_total h cp s) as [stored ->]. reflexivity.
    + intros [tok|]; [apply keeps_ret, silent_refl|].
      apply keeps_bind; [apply silent_trans| |intros _; apply keeps_ret, silent_refl].
      apply keeps_try_catch; [apply silent_trans|apply silent_writes|].
      intros _. apply keeps_ret, silent_refl.
Qed.

Lemma confined_getOrCreateDeviceToken h bits now :
  keeps (confined (λ q, q = Fs.key (disk h)
                                (Path.join (configDir h) "device_token.json")))
        (getOrCreateDeviceToken h bits now).
Proof.
  unfold getOrCreateDeviceToken.
  apply (keeps_bind_ret _ (λ cp, cp = Path.join (configDir h) "device_token.json"));
    [apply confined_trans|apply getConfigPath_value| |].
  - unfold getConfigPath. apply c_bind; [apply confined_existsSync|].
    intros there. apply c_bind; [|intros _; apply c_ret].
    destruct there; [apply c_ret|apply confined_mkdirSync].
  - intros cp ->. apply c_bind.
    + intros s.
      destruct (storedToken_total h (Path.join (configDir h) "device_token.json") s)
        as [stored ->].
      apply confined_refl.
    + intros [tok|]; [apply c_ret|].
      apply c_bind; [|intros _; apply c_ret].
      apply c_try_catch; [now apply confined_writeFileSync|intros _; apply c_ret].
Qed.

(** X20.  Reading or creating the device token makes no request, and
    removes or changes no entry, and makes no file, other than
    [device_token.json] in the configuration directory (which it may
    create). *)
Theorem device_token_touches_only_its_file (h : host) (bits : N) (now : string)
    (s : state) (k : list string) :
  let after := getOrCreateDeviceToken h bits now s in
  k <> Fs.key (disk h) (Path.join (configDir h) "device_token.json") ->
  requests after.2 = requests s /\
  (forall n, files s !! k = Some n -> files after.2 !! k = Some n) /\
  (forall d, files after.2 !! k = Some (File d) -> files s !! k = Some (File d)).
Proof.
  intros after Hk. subst after.
  destruct (confined_getOrCreateDeviceToken h bits now s) as [Hkept Hnew].
  split; [apply silent_getOrCreateDeviceToken|].
  split; [intros n; now apply Hkept|].
  intros d Hd. now destruct (Hnew k d Hd).
Qed.

Lemma device_token_touches_only_its_file_witness :
  let after := getOrCreateDeviceToken Scenario.linux 5 "2026-01-01T00:00:00.000Z"
                 (Scenario.fresh Scenario.installed) in
  requests after.2 = [] /\
  (forall n, Scenario.installed !! (Scenario.mc ++ ["mods"; "old.jar"]) = Some n ->
             files after.2 !! (Scenario.mc ++ ["mods"; "old.jar"]) = Some n) /\
  (forall d, files after.2 !! (Scenario.mc ++ ["mods"; "old.jar"]) = Some (File d) ->
             Scenario.installed !! (Scenario.mc ++ ["mods"; "old.jar"]) = Some (File d)).
Proof.
  apply (device_token_touches_only_its_file Scenario.linux 5 "2026-01-01T00:00:00.000Z"
           (Scenario.fresh Scenario.installed)).
  vm_compute. discriminate.
Defined.
